(** * RISC-V CLIC, T-Head UART and T-Head timer: a shallow embedding

    The devices of [hw/intc/riscv_clic.c], [hw/char/thead_uart.c] and
    [hw/timer/thead_timer.c] are embedded as pure functions over explicit
    device states.  C integers are [Z] with their truncation written out,
    byte arrays are [list Z], and a path that ends the process ([assert],
    [exit]) yields [None]. *)

From Stdlib Require Import ZArith List Lia Bool String Permutation.
Import ListNotations.
Open Scope list_scope.
Open Scope Z_scope.

(** ** Integer and bit-field helpers (QEMU's [bitops.h] and [cpu_bits.h]) *)

Module Bits.

Definition uint8 (x : Z) : Z := Z.land x 255.
Definition uint16 (x : Z) : Z := Z.land x 65535.
Definition uint32 (x : Z) : Z := Z.land x 4294967295.

(** [!!x] in C. *)
Definition lnot2 (x : Z) : Z := if x =? 0 then 0 else 1.
(** [!x] in C. *)
Definition lnot (x : Z) : Z := if x =? 0 then 1 else 0.

(** [extract32(value, start, length)]: [(value >> start) & (~0U >> (32 - length))]. *)
Definition extract32 (value start length : Z) : Z :=
  Z.land (Z.shiftr (uint32 value) start) (Z.ones length).

Definition extract64 (value start length : Z) : Z :=
  Z.land (Z.shiftr value start) (Z.ones length).

(** Lowest set bit of a mask: [mask & ~(mask << 1)]. *)
Definition mask_lsb (mask : Z) : Z := Z.land mask (Z.lnot (Z.shiftl mask 1)).

(** [get_field(reg, mask)]: [(reg & mask) / (mask & ~(mask << 1))]. *)
Definition get_field (reg mask : Z) : Z := Z.land reg mask / mask_lsb mask.

(** [set_field(reg, mask, val)]:
    [(reg & ~mask) | ((val * (mask & ~(mask << 1))) & mask)]. *)
Definition set_field (reg mask val : Z) : Z :=
  Z.lor (Z.land reg (Z.lnot mask)) (Z.land (val * mask_lsb mask) mask).

(** Arrays indexed by a C integer.  A load outside the array reads 0 and a
    store outside it is dropped; the device only indexes with interrupt
    numbers below [num_sources]. *)
Definition zget (l : list Z) (i : Z) : Z := nth (Z.to_nat i) l 0.

Fixpoint set_nth {A} (n : nat) (l : list A) (v : A) : list A :=
  match l, n with
  | [], _ => []
  | _ :: t, O => v :: t
  | h :: t, S n' => h :: set_nth n' t v
  end.

Definition zset (l : list Z) (i : Z) (v : Z) : list Z :=
  if i <? 0 then l else set_nth (Z.to_nat i) l v.

End Bits.
Import Bits.

(** ** The error monad of paths that may end the process *)

Definition bind {A B} (m : option A) (f : A -> option B) : option B :=
  match m with
  | Some a => f a
  | None => None
  end.

Notation "x <- m ;; k" := (bind m (fun x => k))
  (at level 61, m at next level, right associativity).

(** ** CLIC *)

Module Clic.

(** Privilege levels. *)
Definition PRV_U : Z := 0.
Definition PRV_S : Z := 1.
Definition PRV_RESERVED : Z := 2.
Definition PRV_M : Z := 3.

(** Constants of [include/hw/intc/riscv_clic.h]. *)
Definition CLIC_INTCTL_BASE : Z := 0x1000.
Definition CLIC_IRQ_BITS : Z := 12.
Definition CLIC_MAX_IRQ_COUNT : Z := Z.shiftl 1 CLIC_IRQ_BITS.
Definition CLIC_MAX_IRQ : Z := CLIC_MAX_IRQ_COUNT - 1.
Definition CLIC_IRQ_MASK : Z := CLIC_MAX_IRQ.
Definition CLIC_INTTRIG_REGS : Z := 32.
Definition CLIC_INTTRIG_START : Z := 0x10.
Definition CLIC_INTTRIG_END : Z := CLIC_INTTRIG_START + CLIC_INTTRIG_REGS - 1.
Definition CLIC_INTTRIG_TRAP_ENA : Z := 0x80000000.
Definition CLIC_INTTRIG_NXTI_ENA : Z := 0x40000000.
Definition CLIC_INTTRIG_IRQN : Z := 0x00001fff.
Definition CLIC_INTTRIG_MASK : Z :=
  Z.lor (Z.lor CLIC_INTTRIG_TRAP_ENA CLIC_INTTRIG_NXTI_ENA) CLIC_INTTRIG_IRQN.
Definition CLIC_INTCFG_MODE_SHIFT : Z := 8.
Definition CLIC_INTCFG_MODE : Z := 0x300.
Definition CLIC_INTCFG_CTL : Z := 0xff.
Definition CLIC_INTCFG_MASK : Z := Z.lor CLIC_INTCFG_MODE CLIC_INTCFG_CTL.
Definition CLIC_INTATTR_MODE_SHIFT : Z := 6.
Definition CLIC_INTATTR_MODE_WIDTH : Z := 2.
Definition CLIC_INTATTR_MODE : Z := 0xc0.
Definition CLIC_INTATTR_TRIG : Z := 0x06.
Definition CLIC_INTATTR_SHV : Z := 0x01.
Definition CLIC_INTATTR_MASK : Z :=
  Z.lor (Z.lor CLIC_INTATTR_MODE CLIC_INTATTR_TRIG) CLIC_INTATTR_SHV.
Definition CLIC_INTATTR_TRIG_EDGE : Z := 1.
Definition CLIC_INTATTR_TRIG_INV : Z := 2.

(** [enum TRIG_TYPE]. *)
Definition POSITIVE_LEVEL : Z := 0.
Definition POSITIVE_EDGE : Z := 1.
Definition NEG_LEVEL : Z := 2.
Definition NEG_EDGE : Z := 3.

Record CLICActiveInterrupt := mkActive {
  intcfg : Z;   (* uint16_t *)
  irq : Z       (* uint16_t *)
}.

(** [RISCVCLICState].  The view handles [prv_s] and [prv_u] are only tested
    for being non-null, so they are booleans here.  [cpu_irq] records every
    value driven on the outgoing line by [qemu_set_irq], latest first. *)
Record RISCVCLICState := mkClic {
  shv_enabled : bool;
  num_sources : Z;
  clic_size : Z;
  clicintctlbits : Z;
  prv_s : bool;
  prv_u : bool;
  version : string;
  nmbits : Z;
  mnlbits : Z;
  snlbits : Z;
  unlbits : Z;
  clicinttrig : list Z;
  clicintip : list Z;
  clicintie : list Z;
  clicintattr : list Z;
  clicintctl : list Z;
  mintthresh : Z;
  sintthresh : Z;
  uintthresh : Z;
  exccode : Z;
  active_list : list CLICActiveInterrupt;
  active_count : Z;
  cpu_irq : list Z
}.

(** The part of [CPURISCVState] the device reads: the current privilege and
    the three level fields of [mintstatus] (the results of
    [get_field(env->mintstatus, MINTSTATUS_xIL)]), together with the
    process-wide [qtest_enabled()] flag. *)
Record CPURISCVState := mkEnv {
  priv : Z;
  mintstatus_uil : Z;
  mintstatus_sil : Z;
  mintstatus_mil : Z;
  qtest_enabled : bool
}.

(** Field updates. *)
Definition set_clicintip (s : RISCVCLICState) (v : list Z) : RISCVCLICState :=
  mkClic (shv_enabled s) (num_sources s) (clic_size s) (clicintctlbits s)
    (prv_s s) (prv_u s) (version s) (nmbits s) (mnlbits s) (snlbits s)
    (unlbits s) (clicinttrig s) v (clicintie s) (clicintattr s)
    (clicintctl s) (mintthresh s) (sintthresh s) (uintthresh s) (exccode s)
    (active_list s) (active_count s) (cpu_irq s).

Definition set_clicintie (s : RISCVCLICState) (v : list Z) : RISCVCLICState :=
  mkClic (shv_enabled s) (num_sources s) (clic_size s) (clicintctlbits s)
    (prv_s s) (prv_u s) (version s) (nmbits s) (mnlbits s) (snlbits s)
    (unlbits s) (clicinttrig s) (clicintip s) v (clicintattr s)
    (clicintctl s) (mintthresh s) (sintthresh s) (uintthresh s) (exccode s)
    (active_list s) (active_count s) (cpu_irq s).

Definition set_clicintattr (s : RISCVCLICState) (v : list Z) : RISCVCLICState :=
  mkClic (shv_enabled s) (num_sources s) (clic_size s) (clicintctlbits s)
    (prv_s s) (prv_u s) (version s) (nmbits s) (mnlbits s) (snlbits s)
    (unlbits s) (clicinttrig s) (clicintip s) (clicintie s) v
    (clicintctl s) (mintthresh s) (sintthresh s) (uintthresh s) (exccode s)
    (active_list s) (active_count s) (cpu_irq s).

Definition set_clicintctl (s : RISCVCLICState) (v : list Z) : RISCVCLICState :=
  mkClic (shv_enabled s) (num_sources s) (clic_size s) (clicintctlbits s)
    (prv_s s) (prv_u s) (version s) (nmbits s) (mnlbits s) (snlbits s)
    (unlbits s) (clicinttrig s) (clicintip s) (clicintie s) (clicintattr s)
    v (mintthresh s) (sintthresh s) (uintthresh s) (exccode s)
    (active_list s) (active_count s) (cpu_irq s).

Definition set_exccode (s : RISCVCLICState) (v : Z) : RISCVCLICState :=
  mkClic (shv_enabled s) (num_sources s) (clic_size s) (clicintctlbits s)
    (prv_s s) (prv_u s) (version s) (nmbits s) (mnlbits s) (snlbits s)
    (unlbits s) (clicinttrig s) (clicintip s) (clicintie s) (clicintattr s)
    (clicintctl s) (mintthresh s) (sintthresh s) (uintthresh s) v
    (active_list s) (active_count s) (cpu_irq s).

Definition set_active (s : RISCVCLICState) (l : list CLICActiveInterrupt)
    (n : Z) : RISCVCLICState :=
  mkClic (shv_enabled s) (num_sources s) (clic_size s) (clicintctlbits s)
    (prv_s s) (prv_u s) (version s) (nmbits s) (mnlbits s) (snlbits s)
    (unlbits s) (clicinttrig s) (clicintip s) (clicintie s) (clicintattr s)
    (clicintctl s) (mintthresh s) (sintthresh s) (uintthresh s) (exccode s)
    l n (cpu_irq s).

(** [qemu_set_irq(clic->cpu_irq, v)]. *)
Definition qemu_set_cpu_irq (s : RISCVCLICState) (v : Z) : RISCVCLICState :=
  mkClic (shv_enabled s) (num_sources s) (clic_size s) (clicintctlbits s)
    (prv_s s) (prv_u s) (version s) (nmbits s) (mnlbits s) (snlbits s)
    (unlbits s) (clicinttrig s) (clicintip s) (clicintie s) (clicintattr s)
    (clicintctl s) (mintthresh s) (sintthresh s) (uintthresh s) (exccode s)
    (active_list s) (active_count s) (v :: cpu_irq s).

Definition set_cliccfg (s : RISCVCLICState) (nm mnl snl unl : Z)
    : RISCVCLICState :=
  mkClic (shv_enabled s) (num_sources s) (clic_size s) (clicintctlbits s)
    (prv_s s) (prv_u s) (version s) nm mnl snl unl
    (clicinttrig s) (clicintip s) (clicintie s) (clicintattr s)
    (clicintctl s) (mintthresh s) (sintthresh s) (uintthresh s) (exccode s)
    (active_list s) (active_count s) (cpu_irq s).

Definition set_clicinttrig (s : RISCVCLICState) (v : list Z) : RISCVCLICState :=
  mkClic (shv_enabled s) (num_sources s) (clic_size s) (clicintctlbits s)
    (prv_s s) (prv_u s) (version s) (nmbits s) (mnlbits s) (snlbits s)
    (unlbits s) v (clicintip s) (clicintie s) (clicintattr s)
    (clicintctl s) (mintthresh s) (sintthresh s) (uintthresh s) (exccode s)
    (active_list s) (active_count s) (cpu_irq s).

Definition set_mintthresh (s : RISCVCLICState) (v : Z) : RISCVCLICState :=
  mkClic (shv_enabled s) (num_sources s) (clic_size s) (clicintctlbits s)
    (prv_s s) (prv_u s) (version s) (nmbits s) (mnlbits s) (snlbits s)
    (unlbits s) (clicinttrig s) (clicintip s) (clicintie s) (clicintattr s)
    (clicintctl s) v (sintthresh s) (uintthresh s) (exccode s)
    (active_list s) (active_count s) (cpu_irq s).

(** *** Trigger type and vectoring *)

Definition riscv_clic_get_trigger_type (s : RISCVCLICState) (i : Z) : Z :=
  get_field (zget (clicintattr s) i) CLIC_INTATTR_TRIG.

Definition riscv_clic_is_edge_triggered (s : RISCVCLICState) (i : Z) : bool :=
  negb (Z.land (riscv_clic_get_trigger_type s i) CLIC_INTATTR_TRIG_EDGE =? 0).

Definition riscv_clic_is_shv_interrupt (s : RISCVCLICState) (i : Z) : bool :=
  negb (get_field (zget (clicintattr s) i) CLIC_INTATTR_SHV =? 0)
  && shv_enabled s.

(** *** Level and priority *)

Definition riscv_clic_get_interrupt_level (s : RISCVCLICState) (intctl : Z) : Z :=
  let nlbits := Z.min (mnlbits s) (clicintctlbits s) in
  let mask_il := uint8 (Z.shiftl (Z.shiftl 1 nlbits - 1) (8 - nlbits)) in
  let mask_padding := uint8 (Z.shiftl 1 (8 - nlbits) - 1) in
  uint8 (Z.lor (Z.land intctl mask_il) mask_padding).

Definition riscv_clic_get_interrupt_priority (s : RISCVCLICState) (intctl : Z) : Z :=
  let npbits := clicintctlbits s - mnlbits s in
  let mask_priority := uint8 (Z.shiftl (Z.shiftl 1 npbits - 1) (8 - npbits)) in
  let mask_padding := uint8 (Z.shiftl 1 (8 - npbits) - 1) in
  if npbits <? 0 then 255
  else uint8 (Z.lor (Z.land intctl mask_priority) mask_padding).

(** [riscv_clic_intcfg_decode]: the three out-parameters as a triple. *)
Definition riscv_clic_intcfg_decode (s : RISCVCLICState) (cfg : Z) : Z * Z * Z :=
  (uint8 (Z.shiftr cfg 8),
   riscv_clic_get_interrupt_level s (Z.land cfg 255),
   riscv_clic_get_interrupt_priority s (Z.land cfg 255)).

(** *** Arbitration *)

(** The local array [il[4]] of [riscv_clic_next_interrupt]; the decoded
    mode is a two-bit field, so the array is never indexed above 3. *)
Definition il (env : CPURISCVState) (s : RISCVCLICState) (mode : Z) : Z :=
  if mode =? 0 then Z.max (mintstatus_uil env) (Z.land (uintthresh s) 255)
  else if mode =? 1 then Z.max (mintstatus_sil env) (Z.land (sintthresh s) 255)
  else if mode =? 2 then 0
  else if mode =? 3 then Z.max (mintstatus_mil env) (Z.land (mintthresh s) 255)
  else 0.

Section CpuBits.

(** Declarations of [target/riscv/cpu_bits.h] and of the qtest harness that
    the device uses and that lie outside the device sources: the positions
    of the mode and level fields in the cause word, and the encoding of an
    interrupt number for the qtest harness. *)
Variable RISCV_EXCP_CLIC_MODE_SHIFT : Z.
Variable RISCV_EXCP_CLIC_LEVEL_SHIFT : Z.
Variable qtest_encode_irq : Z -> Z -> Z.

(** The cause word stored in the [uint32_t exccode]. *)
Definition clic_cause (i mode level : Z) : Z :=
  uint32 (Z.lor (Z.lor i (Z.shiftl mode RISCV_EXCP_CLIC_MODE_SHIFT))
                (Z.shiftl level RISCV_EXCP_CLIC_LEVEL_SHIFT)).

(** The test that ends the scan of [riscv_clic_next_interrupt]. *)
Definition scan_break (env : CPURISCVState) (s : RISCVCLICState)
    (a : CLICActiveInterrupt) : bool :=
  let '(mode, level, _) := riscv_clic_intcfg_decode s (intcfg a) in
  (mode <? priv env) || ((mode =? priv env) && (level <? il env s mode)).

(** What the scan does at a pending entry. *)
Definition deliver (env : CPURISCVState) (s : RISCVCLICState)
    (a : CLICActiveInterrupt) : RISCVCLICState :=
  let '(mode, level, _) := riscv_clic_intcfg_decode s (intcfg a) in
  let s1 :=
    if riscv_clic_is_edge_triggered s (irq a)
       && riscv_clic_is_shv_interrupt s (irq a)
    then set_clicintip s (zset (clicintip s) (irq a) 0)
    else s in
  if qtest_enabled env then qemu_set_cpu_irq s1 (qtest_encode_irq (irq a) 1)
  else qemu_set_cpu_irq (set_exccode s1 (clic_cause (irq a) mode level)) 1.

(** The [while (active_count)] loop over the entries still to visit. *)
Fixpoint scan_active (env : CPURISCVState) (s : RISCVCLICState)
    (l : list CLICActiveInterrupt) : RISCVCLICState :=
  match l with
  | [] => s
  | a :: rest =>
      if scan_break env s a then s
      else if negb (zget (clicintip s) (irq a) =? 0) then deliver env s a
      else scan_active env s rest
  end.

Definition active_prefix (s : RISCVCLICState) : list CLICActiveInterrupt :=
  firstn (Z.to_nat (active_count s)) (active_list s).

Definition riscv_clic_next_interrupt (env : CPURISCVState)
    (s : RISCVCLICState) : RISCVCLICState :=
  scan_active env s (active_prefix s).

(** *** Visibility and WARL filters *)

(** [riscv_clic_check_visible]; [None] is the [exit(1)] of an [nmbits]
    value that does not fit the implemented privileges. *)
Definition riscv_clic_check_visible (s : RISCVCLICState) (mode i : Z)
    : option bool :=
  let intattr_mode := get_field (zget (clicintattr s) i) CLIC_INTATTR_MODE in
  if negb (prv_s s) && negb (prv_u s) then Some (mode =? PRV_M)
  else if prv_s s && prv_u s then
    if nmbits s =? 0 then Some (mode =? PRV_M)
    else if nmbits s =? 1 then Some ((mode =? PRV_M) || (intattr_mode <=? PRV_S))
    else if nmbits s =? 2 then Some (mode >=? intattr_mode)
    else None
  else
    if nmbits s =? 0 then Some (mode =? PRV_M)
    else if nmbits s =? 1 then Some ((mode =? PRV_M) || (intattr_mode <=? PRV_S))
    else None.

Definition riscv_clic_validate_intip (s : RISCVCLICState) (i : Z) : bool :=
  riscv_clic_is_edge_triggered s i.

Definition riscv_clic_update_intip (env : CPURISCVState) (s : RISCVCLICState)
    (i value : Z) : RISCVCLICState :=
  riscv_clic_next_interrupt env
    (set_clicintip s (zset (clicintip s) i (lnot2 value))).

(** [riscv_clic_validate_intattr]; [value] is the [uint8_t] argument. *)
Definition riscv_clic_validate_intattr (env : CPURISCVState) (value : Z) : bool :=
  let mode := extract64 value CLIC_INTATTR_MODE_SHIFT CLIC_INTATTR_MODE_WIDTH in
  if negb (qtest_enabled env) then
    if priv env <? mode then false else true
  else true.

(** [riscv_clic_effective_mode]; [None] is a failed [assert]. *)
Definition riscv_clic_effective_mode (s : RISCVCLICState) (intattr : Z)
    : option Z :=
  let mode := get_field intattr CLIC_INTATTR_MODE in
  if nmbits s =? 0 then Some PRV_M
  else if nmbits s =? 1 then
    if mode <=? PRV_S then
      if prv_s s then Some PRV_S
      else if prv_u s then Some PRV_U else None
    else Some PRV_M
  else if nmbits s =? 2 then Some mode
  else if nmbits s <=? 2 then Some mode else None.

Definition riscv_clic_get_irq (addr : Z) : Z := addr / 4.

(** *** The sorted list of enabled interrupts *)

Definition riscv_clic_encode_priority (a : CLICActiveInterrupt) : Z :=
  let priority := Z.shiftl (Z.land (intcfg a) CLIC_INTCFG_MASK) CLIC_IRQ_BITS in
  let i := Z.land (irq a) CLIC_IRQ_MASK in
  Z.lor priority i.

Definition riscv_clic_active_compare (a b : CLICActiveInterrupt) : Z :=
  riscv_clic_encode_priority b - riscv_clic_encode_priority a.

(** [qsort] with [riscv_clic_active_compare], as an insertion sort: an entry
    comes before every entry it does not compare greater than. *)
Fixpoint insert_active (a : CLICActiveInterrupt) (l : list CLICActiveInterrupt)
    : list CLICActiveInterrupt :=
  match l with
  | [] => [a]
  | b :: t =>
      if riscv_clic_active_compare a b <=? 0 then a :: l
      else b :: insert_active a t
  end.

Definition qsort_active (l : list CLICActiveInterrupt)
    : list CLICActiveInterrupt :=
  fold_right insert_active [] l.

(** [bsearch] with [riscv_clic_active_compare]: the bisection of the C
    library over [arr[0..n)], [fuel] bounding its iterations. *)
Fixpoint bsearch_loop (fuel : nat) (key : CLICActiveInterrupt)
    (arr : list CLICActiveInterrupt) (l u : Z) : option Z :=
  match fuel with
  | O => None
  | S fuel' =>
      if l <? u then
        let idx := (l + u) / 2 in
        let c := riscv_clic_active_compare key
                   (nth (Z.to_nat idx) arr (mkActive 0 0)) in
        if c <? 0 then bsearch_loop fuel' key arr l idx
        else if c >? 0 then bsearch_loop fuel' key arr (idx + 1) u
        else Some idx
      else None
  end.

Definition bsearch_active (key : CLICActiveInterrupt)
    (arr : list CLICActiveInterrupt) (n : Z) : option Z :=
  bsearch_loop (S (Z.to_nat n)) key arr 0 n.

(** The array of [CLICActiveInterrupt] as the bytes [memmove] sees: four
    bytes per entry, [intcfg] then [irq], each least significant byte first
    (a little-endian host). *)
Definition entry_bytes (a : CLICActiveInterrupt) : list Z :=
  [Z.land (intcfg a) 255; Z.land (Z.shiftr (intcfg a) 8) 255;
   Z.land (irq a) 255; Z.land (Z.shiftr (irq a) 8) 255].

Definition array_bytes (l : list CLICActiveInterrupt) : list Z :=
  flat_map entry_bytes l.

Fixpoint bytes_array (b : list Z) : list CLICActiveInterrupt :=
  match b with
  | b0 :: b1 :: b2 :: b3 :: r =>
      mkActive (Z.lor b0 (Z.shiftl b1 8)) (Z.lor b2 (Z.shiftl b3 8))
      :: bytes_array r
  | _ => []
  end.

(** [memmove(mem + dst, mem + src, n)] on a byte array. *)
Definition memmove (mem : list Z) (dst src n : nat) : list Z :=
  let chunk := firstn n (skipn src mem) in
  firstn dst mem ++ chunk ++ skipn (dst + List.length chunk) mem.

(** [qsort(active_list, active_count, ...)]: only the first [active_count]
    entries are sorted. *)
Definition sort_active_list (s : RISCVCLICState) : RISCVCLICState :=
  let n := Z.to_nat (active_count s) in
  set_active s (qsort_active (firstn n (active_list s))
                ++ skipn n (active_list s)) (active_count s).

(** [riscv_clic_update_intie]; [None] is the failed [assert(result)]. *)
Definition riscv_clic_update_intie (env : CPURISCVState) (s : RISCVCLICState)
    (mode i new_intie : Z) : option RISCVCLICState :=
  let old_intie := zget (clicintie s) i in
  let s1 := set_clicintie s (zset (clicintie s) i (lnot2 new_intie)) in
  s2 <- (if negb (new_intie =? 0) && (old_intie =? 0) then
           let cfg := uint16 (Z.lor (Z.shiftl mode CLIC_INTCFG_MODE_SHIFT)
                                    (zget (clicintctl s1) i)) in
           Some (set_active s1
                   (set_nth (Z.to_nat (active_count s1)) (active_list s1)
                            (mkActive cfg (uint16 i)))
                   (active_count s1 + 1))
         else if (new_intie =? 0) && negb (old_intie =? 0) then
           let key := mkActive (uint16 (Z.lor (Z.shiftl mode 8)
                                              (zget (clicintctl s1) i)))
                               (uint16 i) in
           match bsearch_active key (active_list s1) (active_count s1) with
           | None => None
           | Some elem =>
               let cnt := active_count s1 - 1 in
               let sz := cnt - elem in
               Some (set_active s1
                       (bytes_array
                          (memmove (array_bytes (active_list s1))
                                   (Z.to_nat (4 * elem))
                                   (Z.to_nat (4 * (elem + 1)))
                                   (Z.to_nat sz)))
                       cnt)
           end
         else Some s1) ;;
  Some (riscv_clic_next_interrupt env (sort_active_list s2)).

(** *** Per-interrupt registers *)

(** [for (i = first; ...; i++)] run [n] times over a state, stopping at the
    first abort. *)
Fixpoint for_range {S : Type} (n : nat) (i : Z)
    (body : Z -> S -> option S) (s : S) : option S :=
  match n with
  | O => Some s
  | S n' => s' <- body i s ;; for_range n' (i + 1) body s'
  end.

(** The body of [riscv_clic_hart_write], its recursive call being [self]. *)
Definition hart_write_body
    (self : RISCVCLICState -> Z -> Z -> option RISCVCLICState)
    (env : CPURISCVState) (s : RISCVCLICState)
    (addr value size mode i : Z) : option RISCVCLICState :=
  let req := extract32 addr 0 2 in
  if i >=? num_sources s then Some s
  else if req =? 0 then
    let s1 :=
      if riscv_clic_validate_intip s i then
        if negb (value =? zget (clicintip s) i)
        then riscv_clic_update_intip env s i value
        else s
      else s in
    if size >? 1 then
      let width := Z.min size 4 in
      for_range (Z.to_nat (width - 1)) 1
        (fun k st => self st (addr + k) (Z.land (Z.shiftr value (k * 8)) 255))
        s1
    else Some s1
  else if req =? 1 then
    if negb (zget (clicintie s) i =? value)
    then riscv_clic_update_intie env s mode i value
    else Some s
  else if req =? 2 then
    fm <- riscv_clic_effective_mode s (uint8 value) ;;
    let field_mode :=
      if PRV_RESERVED =? fm
      then get_field (zget (clicintattr s) i) CLIC_INTATTR_MODE
      else fm in
    let value' := set_field value CLIC_INTATTR_MODE field_mode in
    if riscv_clic_validate_intattr env (uint8 value') then
      if negb (zget (clicintattr s) i =? value') then
        Some (riscv_clic_next_interrupt env
                (set_clicintattr s (zset (clicintattr s) i (uint8 value'))))
      else Some s
    else Some s
  else
    if negb (value =? zget (clicintctl s) i) then
      Some (riscv_clic_next_interrupt env
              (set_clicintctl s (zset (clicintctl s) i (uint8 value))))
    else Some s.

(** A call with [size = 1] never reaches the recursive call. *)
Definition riscv_clic_hart_write_1 (env : CPURISCVState) (mode i : Z)
    (s : RISCVCLICState) (addr value : Z) : option RISCVCLICState :=
  hart_write_body (fun st _ _ => Some st) env s addr value 1 mode i.

Definition riscv_clic_hart_write (env : CPURISCVState) (s : RISCVCLICState)
    (addr value size mode i : Z) : option RISCVCLICState :=
  hart_write_body (riscv_clic_hart_write_1 env mode i) env s addr value size mode i.

(** The body of [riscv_clic_hart_read], its recursive call being [self]. *)
Definition hart_read_body (self : Z -> option Z) (s : RISCVCLICState)
    (addr size i : Z) : option Z :=
  let req := extract32 addr 0 2 in
  if i >=? num_sources s then Some 0
  else if req =? 0 then
    let retval := zget (clicintip s) i in
    if size >? 1 then
      for_range (Z.to_nat (size - 1)) 1
        (fun k acc =>
           sub <- self (addr + k) ;;
           Some (Z.lor acc (Z.shiftl (Z.land sub 255) (k * 8))))
        retval
    else Some retval
  else if req =? 1 then Some (zget (clicintie s) i)
  else if req =? 2 then
    let intattr := Z.land (zget (clicintattr s) i) CLIC_INTATTR_MASK in
    fm <- riscv_clic_effective_mode s intattr ;;
    Some (uint8 (set_field intattr CLIC_INTATTR_MODE fm))
  else
    Some (Z.lor (zget (clicintctl s) i)
                (Z.shiftl 1 (8 - clicintctlbits s) - 1)).

Definition riscv_clic_hart_read_1 (s : RISCVCLICState) (i : Z) (addr : Z)
    : option Z :=
  hart_read_body (fun _ => Some 0) s addr 1 i.

Definition riscv_clic_hart_read (s : RISCVCLICState) (addr size i : Z)
    : option Z :=
  hart_read_body (riscv_clic_hart_read_1 s i) s addr size i.

(** *** MMIO entry points of a view *)

(** The [cliccfg] write of [riscv_clic_write]. *)
Definition cliccfg_write (s : RISCVCLICState) (mode value : Z) : RISCVCLICState :=
  let mnl := extract32 value 0 4 in
  let nm := extract32 value 4 2 in
  let snl := extract32 value 16 4 in
  let unl := extract32 value 24 4 in
  let mnl' := if (mnl <=? 8) && (PRV_M =? mode) then mnl else mnlbits s in
  let snl' := if prv_s s && (snl <=? 8) && (mode >=? PRV_S) then snl
              else snlbits s in
  let unl' := if prv_u s && (unl <=? 8) then unl else unlbits s in
  let nm' :=
    if PRV_M =? mode then
      if prv_s s && prv_u s then
        if nm <=? 2 then nm else nmbits s
      else if prv_s s || prv_u s then
        if nm <=? 1 then nm else nmbits s
      else
        if nm =? 0 then 0 else nmbits s
    else nmbits s in
  set_cliccfg s nm' mnl' snl' unl'.

(** [riscv_clic_write] through the view of access mode [mode]; [None] is a
    failed [assert] or an [exit]. *)
Definition riscv_clic_write (env : CPURISCVState) (mode : Z)
    (s : RISCVCLICState) (addr value size : Z) : option RISCVCLICState :=
  if negb (addr <? clic_size s) then None
  else if mode >? priv env then Some s
  else if addr <? CLIC_INTCTL_BASE then
    if negb (addr mod 4 =? 0) then None
    else
      let index := addr / 4 in
      if index =? 0 then Some (cliccfg_write s mode value)
      else if (CLIC_INTTRIG_START <=? index) && (index <=? CLIC_INTTRIG_END) then
        let interrupt_number := Z.land value CLIC_INTTRIG_IRQN in
        if interrupt_number <=? num_sources s then
          Some (set_clicinttrig s
                  (zset (clicinttrig s) (index - CLIC_INTTRIG_START)
                        (uint32 (Z.land value CLIC_INTTRIG_MASK))))
        else Some s
      else if index =? 2 then
        if String.eqb (version s) "v0.8"%string
        then Some (set_mintthresh s (uint32 value))
        else Some s
      else Some s
  else
    let addr' := addr - CLIC_INTCTL_BASE in
    let i := riscv_clic_get_irq addr' in
    vis <- riscv_clic_check_visible s mode i ;;
    if vis then riscv_clic_hart_write env s addr' value size mode i
    else Some s.

(** [riscv_clic_read] through the view of access mode [mode]. *)
Definition riscv_clic_read (env : CPURISCVState) (mode : Z)
    (s : RISCVCLICState) (addr size : Z) : option Z :=
  if negb (addr <? clic_size s) then None
  else if mode >? priv env then Some 0
  else if addr <? CLIC_INTCTL_BASE then
    if negb (addr mod 4 =? 0) then None
    else
      let index := addr / 4 in
      if index =? 0 then
        let c0 := if PRV_M =? mode
                  then Z.lor (mnlbits s) (Z.shiftl (nmbits s) 4) else 0 in
        let c1 := if prv_s s && (mode >=? PRV_S)
                  then Z.lor c0 (Z.shiftl (snlbits s) 16) else c0 in
        let c2 := if prv_u s && (mode >=? PRV_U)
                  then Z.lor c1 (Z.shiftl (unlbits s) 24) else c1 in
        Some c2
      else if (CLIC_INTTRIG_START <=? index) && (index <=? CLIC_INTTRIG_END) then
        Some (Z.land (zget (clicinttrig s) (index - CLIC_INTTRIG_START))
                     CLIC_INTTRIG_MASK)
      else if index =? 2 then
        if String.eqb (version s) "v0.8"%string then Some (mintthresh s) else Some 0
      else Some 0
  else
    let addr' := addr - CLIC_INTCTL_BASE in
    let i := riscv_clic_get_irq addr' in
    vis <- riscv_clic_check_visible s mode i ;;
    if vis then riscv_clic_hart_read s addr' size i
    else Some 0.

(** *** Input lines and CPU helpers *)

Definition riscv_clic_set_irq (env : CPURISCVState) (s : RISCVCLICState)
    (id level : Z) : RISCVCLICState :=
  let type := riscv_clic_get_trigger_type s id in
  if negb (level =? 0) then
    if (type =? POSITIVE_LEVEL) || (type =? POSITIVE_EDGE)
    then riscv_clic_update_intip env s id level
    else if type =? NEG_LEVEL
    then riscv_clic_update_intip env s id (lnot level)
    else s
  else
    if type =? POSITIVE_LEVEL
    then riscv_clic_update_intip env s id level
    else if type =? POSITIVE_EDGE then s
    else if (type =? NEG_LEVEL) || (type =? NEG_EDGE)
    then riscv_clic_update_intip env s id (lnot level)
    else s.



End CpuBits.

(** [riscv_clic_create] followed by [riscv_clic_realize]: the state of a
    freshly instantiated CLIC with the default properties. *)
Definition riscv_clic_realize (n : Z) (intctlbits : Z) (has_s has_u : bool)
    (ver : string) : RISCVCLICState :=
  let zeros := repeat 0 (Z.to_nat n) in
  mkClic true n (n * 4 + CLIC_INTCTL_BASE) intctlbits has_s has_u ver
    (if has_s && has_u then 2 else if has_s || has_u then 1 else 0)
    8 (if has_s then 8 else 0) (if has_u then 8 else 0)
    (repeat 0 (Z.to_nat CLIC_INTTRIG_REGS))
    zeros zeros zeros zeros 0 0 0 0
    (repeat (mkActive 0 0) (Z.to_nat n)) 0 [].

(** *** Vocabulary of the statements about the CLIC *)

(** An entry the scan passes over: it does not end the scan and its
    interrupt is not pending. *)
Definition passed_over (env : CPURISCVState) (s : RISCVCLICState)
    (a : CLICActiveInterrupt) : Prop :=
  scan_break env s a = false /\ zget (clicintip s) (irq a) = 0.


(** The pending array after the vectored-edge auto-clear of interrupt [i]. *)
Definition auto_cleared (s : RISCVCLICState) (i : Z) : list Z :=
  if riscv_clic_is_edge_triggered s i && riscv_clic_is_shv_interrupt s i
  then zset (clicintip s) i 0
  else clicintip s.

(** Descending order of the compound key. *)
Fixpoint sorted_desc (l : list CLICActiveInterrupt) : Prop :=
  match l with
  | [] => True
  | a :: t =>
      Forall (fun b => riscv_clic_encode_priority b
                       <= riscv_clic_encode_priority a) t
      /\ sorted_desc t
  end.

(** Two states that differ at most in the pending bits, the cause word and
    the history of the CPU line. *)
Definition same_config (s s' : RISCVCLICState) : Prop :=
  shv_enabled s' = shv_enabled s /\ num_sources s' = num_sources s /\
  clic_size s' = clic_size s /\ clicintctlbits s' = clicintctlbits s /\
  prv_s s' = prv_s s /\ prv_u s' = prv_u s /\ version s' = version s /\
  nmbits s' = nmbits s /\ mnlbits s' = mnlbits s /\
  snlbits s' = snlbits s /\ unlbits s' = unlbits s /\
  clicinttrig s' = clicinttrig s /\ clicintie s' = clicintie s /\
  clicintattr s' = clicintattr s /\ clicintctl s' = clicintctl s /\
  mintthresh s' = mintthresh s /\ sintthresh s' = sintthresh s /\
  uintthresh s' = uintthresh s /\ active_list s' = active_list s /\
  active_count s' = active_count s.

(** Every byte of the array is 0 or 1. *)
Definition bits01 (l : list Z) : Prop := Forall (fun b => b = 0 \/ b = 1) l.


(** The shape every instantiated CLIC has: the four byte arrays hold
    [num_sources] entries, the aperture size is the one computed by
    [riscv_clic_create], and [clicintctlbits] passed its [assert]. *)
Definition wf_clic (s : RISCVCLICState) : Prop :=
  0 <= num_sources s /\
  clic_size s = num_sources s * 4 + CLIC_INTCTL_BASE /\
  0 <= clicintctlbits s <= 8 /\
  List.length (clicintip s) = Z.to_nat (num_sources s) /\
  List.length (clicintie s) = Z.to_nat (num_sources s) /\
  List.length (clicintattr s) = Z.to_nat (num_sources s) /\
  List.length (clicintctl s) = Z.to_nat (num_sources s).

(** [nmbits] fits the implemented privileges, so that neither
    [riscv_clic_check_visible] nor [riscv_clic_effective_mode] ends the
    process. *)
Definition nmbits_valid (s : RISCVCLICState) : Prop :=
  0 <= nmbits s /\
  nmbits s <= (if prv_s s && prv_u s then 2
               else if prv_s s || prv_u s then 1 else 0).


(** What the per-interrupt registers, the input lines and the arbitration
    leave alone on top of that: the instantiation parameters and the mode
    partition [nmbits]. *)
Definition footprint (s s' : RISCVCLICState) : Prop :=
  nmbits s' = nmbits s /\
  shv_enabled s' = shv_enabled s /\ num_sources s' = num_sources s /\
  clic_size s' = clic_size s /\ clicintctlbits s' = clicintctlbits s /\
  prv_s s' = prv_s s /\ prv_u s' = prv_u s /\ version s' = version s /\
  List.length (clicintip s') = List.length (clicintip s) /\
  List.length (clicintie s') = List.length (clicintie s) /\
  List.length (clicintattr s') = List.length (clicintattr s) /\
  List.length (clicintctl s') = List.length (clicintctl s) /\
  (bits01 (clicintip s) -> bits01 (clicintip s')) /\
  (bits01 (clicintie s) -> bits01 (clicintie s')).




(** The concatenation of [n] single-byte reads at consecutive addresses,
    least significant byte first. *)
Definition read_bytes (env : CPURISCVState) (mode : Z) (s : RISCVCLICState)
    (addr : Z) (n : nat) : option Z :=
  b0 <- riscv_clic_read env mode s addr 1 ;;
  for_range (n - 1) 1
    (fun k acc =>
       b <- riscv_clic_read env mode s (addr + k) 1 ;;
       Some (Z.lor acc (Z.shiftl b (k * 8))))
    b0.

(** [n] single-byte writes at consecutive addresses, least significant byte
    of [value] first. *)
Definition write_bytes (MODE_SHIFT LEVEL_SHIFT : Z) (encode_irq : Z -> Z -> Z)
    (env : CPURISCVState) (mode : Z) (s : RISCVCLICState)
    (addr value : Z) (n : nat) : option RISCVCLICState :=
  for_range n 0
    (fun k st =>
       riscv_clic_write MODE_SHIFT LEVEL_SHIFT encode_irq env mode st
         (addr + k) (Z.land (Z.shiftr value (k * 8)) 255) 1)
    s.

(** *** States and runs used in examples *)

(** The CPU after reset: machine mode, all interrupt levels zero. *)
Definition env_reset : CPURISCVState := mkEnv PRV_M 0 0 0 false.


(** Addresses of the four registers of interrupt [i] within a view. *)
Definition clicintip_addr (i : Z) : Z := CLIC_INTCTL_BASE + 4 * i.
Definition clicintie_addr (i : Z) : Z := CLIC_INTCTL_BASE + 4 * i + 1.
Definition clicintattr_addr (i : Z) : Z := CLIC_INTCTL_BASE + 4 * i + 2.
Definition clicintctl_addr (i : Z) : Z := CLIC_INTCTL_BASE + 4 * i + 3.

(** A machine-mode-only CLIC with 32 sources and 8 control bits in which
    interrupt 5, level triggered with [clicintctl[5] = 0xff], is enabled
    and has just become pending: the state [riscv_clic_update_intip] hands
    to the arbitration when input line 5 rises. *)
Definition one_pending : RISCVCLICState :=
  let s := riscv_clic_realize 32 8 false false "v0.9" in
  set_active
    (set_clicintctl
       (set_clicintie (set_clicintip s (zset (clicintip s) 5 1))
                      (zset (clicintie s) 5 1))
       (zset (clicintctl s) 5 0xff))
    (set_nth 0 (active_list s) (mkActive 0x3ff 5)) 1.

(** A sequence of byte writes [(addr, value)] through the view [mode]. *)
Definition byte_writes (MODE_SHIFT LEVEL_SHIFT : Z)
    (encode_irq : Z -> Z -> Z) (env : CPURISCVState) (mode : Z)
    (l : list (Z * Z)) (s : RISCVCLICState) : option RISCVCLICState :=
  fold_left
    (fun acc '(addr, value) =>
       st <- acc ;;
       riscv_clic_write MODE_SHIFT LEVEL_SHIFT encode_irq env mode st
         addr value 1)
    l (Some s).

(** A CLIC with the M view only, 32 sources and the 3 control bits of the
    [virt] machine. *)
Definition virt_clic : RISCVCLICState :=
  riscv_clic_realize 32 3 false false "v0.9".

(** The vectored positive-edge arbitration scenario: [mnlbits = 1],
    [ctl[25] = 0xBF], [ctl[26] = 0x3F], both attributes 0xC3, both
    interrupts enabled. *)
Definition arbitration_setup : list (Z * Z) :=
  [(0, 0x1);
   (clicintattr_addr 25, 0xc3); (clicintattr_addr 26, 0xc3);
   (clicintctl_addr 25, 0xbf); (clicintctl_addr 26, 0x3f);
   (clicintie_addr 25, 1); (clicintie_addr 26, 1)].

Definition arbitration_configured (MODE_SHIFT LEVEL_SHIFT : Z)
    (encode_irq : Z -> Z -> Z) (env : CPURISCVState)
    : option RISCVCLICState :=
  byte_writes MODE_SHIFT LEVEL_SHIFT encode_irq env PRV_M
    arbitration_setup virt_clic.

(** Software then sets [ip[25]] and [ip[26]]. *)
Definition arbitration_pending_set (MODE_SHIFT LEVEL_SHIFT : Z)
    (encode_irq : Z -> Z -> Z) (env : CPURISCVState)
    : option RISCVCLICState :=
  s <- arbitration_configured MODE_SHIFT LEVEL_SHIFT encode_irq env ;;
  byte_writes MODE_SHIFT LEVEL_SHIFT encode_irq env PRV_M
    [(clicintip_addr 25, 1); (clicintip_addr 26, 1)] s.

(** Input line 25 is then driven low and high. *)
Definition arbitration_scenario (MODE_SHIFT LEVEL_SHIFT : Z)
    (encode_irq : Z -> Z -> Z) (env : CPURISCVState)
    : option RISCVCLICState :=
  s <- arbitration_pending_set MODE_SHIFT LEVEL_SHIFT encode_irq env ;;
  Some (riscv_clic_set_irq MODE_SHIFT LEVEL_SHIFT encode_irq env
          (riscv_clic_set_irq MODE_SHIFT LEVEL_SHIFT encode_irq env s 25 0)
          25 1).

(** A CLIC with 8 sources and the M view only. *)
Definition small_clic : RISCVCLICState :=
  riscv_clic_realize 8 8 false false "v0.9".

(** The interrupts the list ought to hold: those with a nonzero enable
    byte. *)
Definition enabled_irqs (s : RISCVCLICState) : list Z :=
  filter (fun i => negb (zget (clicintie s) i =? 0))
         (map Z.of_nat (seq 0 (Z.to_nat (num_sources s)))).

(** *** Vocabulary of the further properties *)

(** An entry whose fields fit the key: a two-bit mode over the control
    byte, and an interrupt number below [CLIC_MAX_IRQ_COUNT]. *)
Definition entry_in_range (a : CLICActiveInterrupt) : Prop :=
  0 <= intcfg a <= CLIC_INTCFG_MASK /\ 0 <= irq a <= CLIC_IRQ_MASK.

(** The level [riscv_clic_get_interrupt_level] computes, as a function of
    the number of level bits alone. *)
Definition level_of (nlbits intctl : Z) : Z :=
  uint8 (Z.lor (Z.land intctl
                  (uint8 (Z.shiftl (Z.shiftl 1 nlbits - 1) (8 - nlbits))))
               (uint8 (Z.shiftl 1 (8 - nlbits) - 1))).

(** The integers [0 .. n-1]. *)
Definition zrange (n : nat) : list Z := map Z.of_nat (seq 0 n).

(** The mode and level an entry decodes to. *)
Definition entry_mode (a : CLICActiveInterrupt) : Z :=
  uint8 (Z.shiftr (intcfg a) 8).

Definition entry_level (s : RISCVCLICState) (a : CLICActiveInterrupt) : Z :=
  riscv_clic_get_interrupt_level s (Z.land (intcfg a) 255).

(** The mode a write of the byte [v] to [clicintattr[i]] asks for, after
    the WARL remap of [riscv_clic_effective_mode] and the rule for the
    reserved value. *)
Definition attr_written_mode (s : RISCVCLICState) (i v : Z) : Z :=
  let m := get_field v CLIC_INTATTR_MODE in
  if nmbits s =? 0 then PRV_M
  else if nmbits s =? 1 then
    if m <=? PRV_S then (if prv_s s then PRV_S else PRV_U) else PRV_M
  else if m =? PRV_RESERVED
       then get_field (zget (clicintattr s) i) CLIC_INTATTR_MODE
       else m.

(** A CLIC with 8 sources for a hart with machine, supervisor and user
    modes, as realized ([nmbits = 2]). *)
Definition msu_clic : RISCVCLICState :=
  riscv_clic_realize 8 8 true true "v0.9".

(** The same with interrupt 3 given to machine mode, positive-edge
    triggered ([clicintattr[3] = 0xc2]). *)
Definition machine_owned : RISCVCLICState :=
  set_clicintattr msu_clic (zset (clicintattr msu_clic) 3 0xc2).

(** A CPU running in supervisor mode. *)
Definition env_supervisor : CPURISCVState := mkEnv PRV_S 0 0 0 false.

(** A machine-mode-only CLIC with 8 sources following version v0.8 of the
    specification. *)
Definition v08_clic : RISCVCLICState :=
  riscv_clic_realize 8 8 false false "v0.8".

End Clic.

(** ** T-Head UART *)

Module Uart.

Definition lsr_TEMT : Z := 0x40.
Definition lsr_THRE : Z := 0x20.
Definition lsr_OE : Z := 0x2.
Definition lsr_DR : Z := 0x1.
Definition usr_REF : Z := 0x10.
Definition usr_RFNE : Z := 0x8.
Definition usr_TFE : Z := 0x4.
Definition usr_TFNF : Z := 0x2.
Definition INT_NONE : Z := 0x1.
Definition INT_TX : Z := 0x2.
Definition INT_RX : Z := 0x4.

(** [thead_uart_state].  [irq] records every level driven on the interrupt
    line, latest first; [chr] records the bytes handed to the character
    back-end, latest first. *)
Record thead_uart_state := mkUart {
  dll : Z;
  dlh : Z;
  ier : Z;
  iir : Z;
  fcr : Z;
  lcr : Z;
  mcr : Z;
  lsr : Z;
  msr : Z;
  usr : Z;
  rx_fifo : list Z;
  rx_pos : Z;
  rx_count : Z;
  rx_trigger : Z;
  chr : list Z;
  irq : list Z
}.

(** [x &= ~m] on a [uint32_t]. *)
Definition clear_bits (x m : Z) : Z := uint32 (Z.land x (Z.lnot m)).

(** [(s->iir & ~0xf) | src]. *)
Definition iir_with (x src : Z) : Z := uint32 (Z.lor (Z.land x (Z.lnot 0xf)) src).

Definition thead_uart_update (s : thead_uart_state) : thead_uart_state :=
  let f1 := (Z.land (iir s) 0xf =? INT_TX) && negb (Z.land (ier s) 0x2 =? 0) in
  let f2 := (Z.land (iir s) 0xf =? INT_RX) && negb (Z.land (ier s) 0x1 =? 0) in
  let flags := Z.lor (Z.b2z f1) (Z.b2z f2) in
  mkUart (dll s) (dlh s) (ier s) (iir s) (fcr s) (lcr s) (mcr s) (lsr s)
    (msr s) (usr s) (rx_fifo s) (rx_pos s) (rx_count s) (rx_trigger s)
    (chr s) (lnot2 flags :: irq s).

(** The receive-side registers changed together by the read and receive
    paths. *)
Definition set_rx (s : thead_uart_state) (iir' lsr' usr' : Z)
    (fifo : list Z) (pos count : Z) : thead_uart_state :=
  mkUart (dll s) (dlh s) (ier s) iir' (fcr s) (lcr s) (mcr s) lsr'
    (msr s) usr' fifo pos count (rx_trigger s) (chr s) (irq s).

(** [thead_uart_read]: the value read and the state left behind. *)
Definition thead_uart_read (s : thead_uart_state) (offset size : Z)
    : Z * thead_uart_state :=
  let reg := Z.shiftr (Z.land offset 0xfff) 2 in
  if reg =? 0x0 then
    if negb (Z.land (lcr s) 0x80 =? 0) then (dll s, s)
    else if negb (Z.land (fcr s) 0x1 =? 0) then
      let usr1 := clear_bits (usr s) usr_REF in
      let c := zget (rx_fifo s) (rx_pos s) in
      let count1 := if rx_count s >? 0 then rx_count s - 1 else rx_count s in
      let pos1 := if rx_count s >? 0
                  then (if rx_pos s + 1 =? 16 then 0 else rx_pos s + 1)
                  else rx_pos s in
      let lsr1 := if count1 =? 0 then clear_bits (lsr s) lsr_DR else lsr s in
      let usr2 := if count1 =? 0 then clear_bits usr1 usr_RFNE else usr1 in
      (c, thead_uart_update
            (set_rx s (iir_with (iir s) INT_NONE) lsr1 usr2 (rx_fifo s)
                    pos1 count1))
    else
      let usr1 := clear_bits (clear_bits (usr s) usr_REF) usr_RFNE in
      let lsr1 := clear_bits (lsr s) lsr_DR in
      (zget (rx_fifo s) 0,
       thead_uart_update
         (set_rx s (iir_with (iir s) INT_NONE) lsr1 usr1 (rx_fifo s)
                 (rx_pos s) (rx_count s)))
  else if reg =? 0x1 then
    if negb (Z.land (lcr s) 0x80 =? 0) then (dlh s, s) else (ier s, s)
  else if reg =? 0x2 then
    if Z.land (iir s) 0xf =? INT_TX then
      let s1 := thead_uart_update
                  (set_rx s (iir_with (iir s) INT_NONE) (lsr s) (usr s)
                          (rx_fifo s) (rx_pos s) (rx_count s)) in
      (uint32 (Z.lor (Z.land (iir s1) (Z.lnot 0xf)) INT_TX), s1)
    else (iir s, s)
  else if reg =? 0x3 then (lcr s, s)
  else if reg =? 0x4 then (mcr s, s)
  else if reg =? 0x5 then (lsr s, s)
  else if reg =? 0x6 then (msr s, s)
  else if reg =? 0x1f then (usr s, s)
  else (0, s).

Definition thead_uart_fcr_update (s : thead_uart_state) : thead_uart_state :=
  let trig :=
    if negb (Z.land (fcr s) 0x1 =? 0) then
      let sel := Z.land (Z.shiftr (fcr s) 6) 0x3 in
      if sel =? 0 then 1
      else if sel =? 1 then 4
      else if sel =? 2 then 8
      else if sel =? 3 then 14
      else 1
    else 1 in
  let reset := negb (Z.land (fcr s) 0x2 =? 0) in
  mkUart (dll s) (dlh s) (ier s) (iir s) (fcr s) (lcr s) (mcr s) (lsr s)
    (msr s) (usr s) (rx_fifo s)
    (if reset then 0 else rx_pos s) (if reset then 0 else rx_count s)
    trig (chr s) (irq s).

Definition thead_uart_write (s : thead_uart_state) (offset value size : Z)
    : thead_uart_state :=
  let reg := Z.shiftr offset 2 in
  if reg =? 0x0 then
    if negb (Z.land (lcr s) 0x80 =? 0) then
      mkUart (uint32 value) (dlh s) (ier s) (iir s) (fcr s) (lcr s) (mcr s)
        (lsr s) (msr s) (usr s) (rx_fifo s) (rx_pos s) (rx_count s)
        (rx_trigger s) (chr s) (irq s)
    else
      let iir1 := if negb (Z.land (iir s) 0xf =? INT_RX)
                  then iir_with (iir s) INT_TX else iir s in
      thead_uart_update
        (mkUart (dll s) (dlh s) (ier s) iir1 (fcr s) (lcr s) (mcr s)
           (uint32 (Z.lor (lsr s) (Z.lor lsr_THRE lsr_TEMT)))
           (msr s) (usr s) (rx_fifo s) (rx_pos s) (rx_count s)
           (rx_trigger s) (uint8 value :: chr s) (irq s))
  else if reg =? 0x1 then
    if negb (Z.land (lcr s) 0x80 =? 0) then
      mkUart (dll s) (uint32 value) (ier s) (iir s) (fcr s) (lcr s) (mcr s)
        (lsr s) (msr s) (usr s) (rx_fifo s) (rx_pos s) (rx_count s)
        (rx_trigger s) (chr s) (irq s)
    else
      thead_uart_update
        (mkUart (dll s) (dlh s) (uint32 value) (iir_with (iir s) INT_TX)
           (fcr s) (lcr s) (mcr s) (lsr s) (msr s) (usr s) (rx_fifo s)
           (rx_pos s) (rx_count s) (rx_trigger s) (chr s) (irq s))
  else if reg =? 0x2 then
    let flip := negb (Z.lxor (Z.land (fcr s) 0x1) (Z.land value 0x1) =? 0) in
    thead_uart_fcr_update
      (mkUart (dll s) (dlh s) (ier s) (iir s) (uint32 value) (lcr s) (mcr s)
         (lsr s) (msr s) (usr s) (rx_fifo s)
         (if flip then 0 else rx_pos s) (if flip then 0 else rx_count s)
         (rx_trigger s) (chr s) (irq s))
  else if reg =? 0x3 then
    mkUart (dll s) (dlh s) (ier s) (iir s) (fcr s) (uint32 value) (mcr s)
      (lsr s) (msr s) (usr s) (rx_fifo s) (rx_pos s) (rx_count s)
      (rx_trigger s) (chr s) (irq s)
  else if reg =? 0x4 then
    mkUart (dll s) (dlh s) (ier s) (iir s) (fcr s) (lcr s) (uint32 value)
      (lsr s) (msr s) (usr s) (rx_fifo s) (rx_pos s) (rx_count s)
      (rx_trigger s) (chr s) (irq s)
  else s.

Definition thead_uart_can_receive (s : thead_uart_state) : Z :=
  if negb (Z.land (fcr s) 0x1 =? 0)
  then Z.b2z (rx_count s <? 16)
  else Z.b2z (rx_count s <? 1).

(** [thead_uart_receive]; [b] is [*buf], the only byte the function takes. *)
Definition thead_uart_receive (s : thead_uart_state) (b size : Z)
    : thead_uart_state :=
  if size <? 1 then s
  else
    let lsr0 := if negb (Z.land (usr s) usr_REF =? 0)
                then uint32 (Z.lor (lsr s) lsr_OE) else lsr s in
    if Z.land (fcr s) 0x1 =? 0 then
      thead_uart_update
        (set_rx s (iir_with (iir s) INT_RX) (uint32 (Z.lor lsr0 lsr_DR))
           (uint32 (Z.lor (Z.lor (usr s) usr_REF) usr_RFNE))
           (zset (rx_fifo s) 0 (uint8 b)) (rx_pos s) (rx_count s))
    else
      let slot0 := rx_pos s + rx_count s in
      let slot := if slot0 >=? 16 then slot0 - 16 else slot0 in
      let count1 := rx_count s + 1 in
      let usr1 := uint32 (Z.lor (usr s) usr_RFNE) in
      let usr2 := if count1 =? 16 then uint32 (Z.lor usr1 usr_REF) else usr1 in
      thead_uart_update
        (set_rx s (iir_with (iir s) INT_RX) (uint32 (Z.lor lsr0 lsr_DR)) usr2
           (zset (rx_fifo s) slot (uint8 b)) (rx_pos s) count1).

(** The state left by [thead_uart_init]. *)
Definition thead_uart_init : thead_uart_state :=
  mkUart 0 0x4 0 0x1 0 0 0 0x60 0 0x6 (repeat 0 16%nat) 0 0 1 [] [].

(** The back-end delivers the bytes of [bs] one call at a time. *)
Definition deliver_bytes (s : thead_uart_state) (bs : list Z)
    : thead_uart_state :=
  fold_left (fun st b => thead_uart_receive st b 1) bs s.

(** The current level of the interrupt line (low before any update). *)
Definition irq_level (s : thead_uart_state) : Z := hd 0 (irq s).

(** The UART after the guest enables the FIFO with a trigger level of 4
    bytes ([FCR = 0x41]) and the receive interrupt ([IER = 0x1]). *)
Definition fifo_threshold_4 : thead_uart_state :=
  thead_uart_write (thead_uart_write thead_uart_init 8 0x41 4) 4 0x1 4.

(** Read the receive buffer register once. *)
Definition pop_rbr (s : thead_uart_state) : thead_uart_state :=
  snd (thead_uart_read s 0 4).

(** The bytes queued in the receive FIFO, oldest first: [rx_count] slots of
    the ring from [rx_pos] on. *)
Definition fifo_contents (s : thead_uart_state) : list Z :=
  map (fun k => zget (rx_fifo s) ((rx_pos s + Z.of_nat k) mod 16))
      (seq 0 (Z.to_nat (rx_count s))).

(** The guest reads the receive buffer register [n] times; the values read
    and the state left behind. *)
Fixpoint read_rbr (n : nat) (s : thead_uart_state)
    : list Z * thead_uart_state :=
  match n with
  | O => ([], s)
  | S k =>
      let '(c, s1) := thead_uart_read s 0 4 in
      let '(cs, s2) := read_rbr k s1 in
      (c :: cs, s2)
  end.

(** The FIFO is enabled, the divisor latch is not selected, and the ring
    indices are in range. *)
Definition fifo_mode (s : thead_uart_state) : Prop :=
  Z.land (fcr s) 0x1 <> 0 /\ Z.land (lcr s) 0x80 = 0 /\
  List.length (rx_fifo s) = 16%nat /\
  0 <= rx_pos s < 16 /\ 0 <= rx_count s <= 16.

End Uart.

(** ** T-Head timer *)

Module Timer.

Definition TIMER_CTRL_ENABLE : Z := Z.shiftl 1 0.
Definition TIMER_CTRL_MODE : Z := Z.shiftl 1 1.
Definition TIMER_CTRL_IE : Z := Z.shiftl 1 2.
Definition TIMER_CTRL_CLOCK : Z := Z.shiftl 1 3.

Section Ptimer.

(** QEMU's [ptimer] lies outside the device: its state and
    [ptimer_set_limit] are taken as given. *)
Variable ptimer_state : Type.
Variable ptimer_set_limit : ptimer_state -> Z -> Z -> ptimer_state.

Record thead_timer_state := mkTimer {
  timer : list ptimer_state;
  control : list Z;
  limit : list Z;
  freq : list Z;
  int_level : list Z
}.

(** Apply [f] to the ptimer [s->timer[index]]. *)
Definition set_timer (s : thead_timer_state) (index : Z)
    (f : ptimer_state -> ptimer_state) : thead_timer_state :=
  match nth_error (timer s) (Z.to_nat index) with
  | Some t =>
      mkTimer (set_nth (Z.to_nat index) (timer s) (f t))
              (control s) (limit s) (freq s) (int_level s)
  | None => s
  end.

Definition thead_timer_reload (s : thead_timer_state) (reload index : Z)
    : thead_timer_state :=
  let lim :=
    if negb (Z.land (zget (control s) index) TIMER_CTRL_MODE =? 0)
    then zget (limit s) index
    else zget (limit s) index in
  set_timer s index (fun t => ptimer_set_limit t lim reload).

(** The simplified reload, which takes [s->limit[index]] unconditionally. *)
Definition thead_timer_reload_simplified (s : thead_timer_state)
    (reload index : Z) : thead_timer_state :=
  set_timer s index (fun t => ptimer_set_limit t (zget (limit s) index) reload).

(** [s] with [control[index]] replaced by [c]. *)
Definition with_control (s : thead_timer_state) (index c : Z)
    : thead_timer_state :=
  mkTimer (timer s) (zset (control s) index c) (limit s) (freq s) (int_level s).

End Ptimer.


Section TimerOps.

(** The rest of the [ptimer] interface the register file calls. *)
Variable ptimer_state : Type.
Variable ptimer_set_limit : ptimer_state -> Z -> Z -> ptimer_state.
Variable ptimer_get_count : ptimer_state -> Z.
Variable ptimer_run : ptimer_state -> Z -> ptimer_state.
Variable ptimer_stop : ptimer_state -> ptimer_state.
Variable ptimer_set_freq : ptimer_state -> Z -> ptimer_state.

(** A level driven on one of the four interrupt lines: the channel and 1
    for [qemu_irq_raise], 0 for [qemu_irq_lower]. *)
Definition irq_event : Type := Z * Z.

(** [s->int_level[index] && !(s->control[index] & TIMER_CTRL_IE)]. *)
Definition int_status (s : thead_timer_state ptimer_state) (index : Z) : Z :=
  Z.b2z (negb (zget (int_level _ s) index =? 0)
         && (Z.land (zget (control _ s) index) TIMER_CTRL_IE =? 0)).

(** [thead_timer_update]: the level it drives on [irq[index]]. *)
Definition thead_timer_update (s : thead_timer_state ptimer_state)
    (index : Z) : irq_event :=
  (index, int_status s index).

Definition set_int_level (s : thead_timer_state ptimer_state)
    (index v : Z) : thead_timer_state ptimer_state :=
  mkTimer _ (timer _ s) (control _ s) (limit _ s) (freq _ s)
    (zset (int_level _ s) index v).

Definition set_limit (s : thead_timer_state ptimer_state)
    (index v : Z) : thead_timer_state ptimer_state :=
  mkTimer _ (timer _ s) (control _ s) (zset (limit _ s) index v) (freq _ s)
    (int_level _ s).

(** [thead_timer_read]: the value, the state left behind and the levels
    driven on the lines. *)
Definition thead_timer_read (s : thead_timer_state ptimer_state)
    (offset index : Z)
    : Z * thead_timer_state ptimer_state * list irq_event :=
  let reg := Z.shiftr offset 2 in
  if reg =? 0 then (zget (limit _ s) index, s, [])
  else if reg =? 1 then
    (match nth_error (timer _ s) (Z.to_nat index) with
     | Some t => uint32 (ptimer_get_count t)
     | None => 0
     end, s, [])
  else if reg =? 2 then (zget (control _ s) index, s, [])
  else if reg =? 3 then
    let s1 := set_int_level s index 0 in
    (0, s1, [thead_timer_update s1 index])
  else if reg =? 4 then (int_status s index, s, [])
  else (0, s, []).

Definition thead_timer_write (s : thead_timer_state ptimer_state)
    (offset value index : Z)
    : thead_timer_state ptimer_state * list irq_event :=
  let reg := Z.shiftr offset 2 in
  if reg =? 0 then
    let s1 := set_limit s index (uint32 value) in
    let s2 :=
      if negb (Z.land (zget (control _ s1) index) TIMER_CTRL_ENABLE =? 0)
      then set_timer _ (thead_timer_reload _ ptimer_set_limit s1 0 index)
             index (fun t => ptimer_run t 0)
      else s1 in
    (s2, [thead_timer_update s2 index])
  else if reg =? 2 then
    let s1 :=
      if negb (Z.land (zget (control _ s) index) TIMER_CTRL_ENABLE =? 0)
      then set_timer _ s index ptimer_stop
      else s in
    let s2 := with_control _ s1 index (uint32 value) in
    let s3 := thead_timer_reload _ ptimer_set_limit s2
                (Z.land (zget (control _ s2) index) TIMER_CTRL_ENABLE)
                index in
    let s4 := set_timer _ s3 index
                (fun t => ptimer_set_freq t (zget (freq _ s3) index)) in
    let s5 :=
      if negb (Z.land (zget (control _ s4) index) TIMER_CTRL_ENABLE =? 0)
      then set_timer _ s4 index (fun t => ptimer_run t 0)
      else s4 in
    (s5, [thead_timer_update s5 index])
  else if (reg =? 1) || (reg =? 3) || (reg =? 4) then (s, [])
  else (s, [thead_timer_update s index]).

(** [thead_timer_tick0] .. [thead_timer_tick3], by channel. *)
Definition thead_timer_tick (s : thead_timer_state ptimer_state) (n : Z)
    : thead_timer_state ptimer_state * list irq_event :=
  let s1 := set_int_level (thead_timer_reload _ ptimer_set_limit s 1 n) n 1 in
  (s1, [thead_timer_update s1 n]).

(** The [TimersEOI] loop over the four channels. *)
Fixpoint eoi_all (k : nat) (i : Z) (s : thead_timer_state ptimer_state)
    : thead_timer_state ptimer_state * list irq_event :=
  match k with
  | O => (s, [])
  | S k' =>
      let s1 := set_int_level s i 0 in
      let '(s2, evs) := eoi_all k' (i + 1) s1 in
      (s2, thead_timer_update s1 i :: evs)
  end.

Definition thead_timers_read (s : thead_timer_state ptimer_state)
    (offset size : Z)
    : Z * thead_timer_state ptimer_state * list irq_event :=
  let n := offset / 0x14 in
  if (0 <=? n) && (n <=? 3) then thead_timer_read s (offset mod 0x14) n
  else if n =? 8 then
    let reg := Z.shiftr (offset mod 0x14) 2 in
    if reg =? 0 then
      (uint32 (Z.lor (Z.lor (Z.lor (int_status s 0)
                                   (Z.shiftl (int_status s 1) 1))
                            (Z.shiftl (int_status s 2) 2))
                     (Z.shiftl (int_status s 3) 3)), s, [])
    else if reg =? 1 then
      let '(s1, evs) := eoi_all 4 0 s in (0, s1, evs)
    else if reg =? 2 then
      (uint32 (Z.lor (Z.lor (Z.lor (zget (int_level _ s) 0)
                                   (Z.shiftl (zget (int_level _ s) 1) 1))
                            (Z.shiftl (zget (int_level _ s) 2) 2))
                     (Z.shiftl (zget (int_level _ s) 3) 3)), s, [])
    else (0, s, [])
  else (0, s, []).

(** [thead_timers_write]; a channel number above 3 is logged and then used
    all the same. *)
Definition thead_timers_write (s : thead_timer_state ptimer_state)
    (offset value size : Z)
    : thead_timer_state ptimer_state * list irq_event :=
  thead_timer_write s (offset mod 0x14) value (offset / 0x14).

(** The register file holds four channels. *)
Definition four_channels (s : thead_timer_state ptimer_state) : Prop :=
  List.length (timer _ s) = 4%nat /\ List.length (control _ s) = 4%nat /\
  List.length (limit _ s) = 4%nat /\ List.length (freq _ s) = 4%nat /\
  List.length (int_level _ s) = 4%nat.

(** The state left by [thead_timer_init]: the four ptimers as
    [ptimer_init] returns them, the frequency taken from
    [thead_timer_freq] (1000000000 unless [thead_timer_set_freq] changed
    it), everything else zero. *)
Definition thead_timer_init (thead_timer_freq : Z)
    (t0 t1 t2 t3 : ptimer_state) : thead_timer_state ptimer_state :=
  mkTimer _ [t0; t1; t2; t3] [0; 0; 0; 0] [0; 0; 0; 0]
    [thead_timer_freq; thead_timer_freq; thead_timer_freq; thead_timer_freq]
    [0; 0; 0; 0].

End TimerOps.

End Timer.

(** ** T-Head CLINT *)

Module Clint.

Definition uint64 (x : Z) : Z := x mod 2 ^ 64.

(** A [uint64_t] passed where an [int64_t] is taken. *)
Definition int64 (x : Z) : Z := if x <? 2 ^ 63 then x else x - 2 ^ 64.

Definition NANOSECONDS_PER_SECOND : Z := 1000000000.

(** [THEADCLINTState].  [timer] is the expiry time the [QEMUTimer] is set
    to, if any; [irq] counts the pulses sent on the two outgoing lines
    (0 software, 1 timer). *)
Record THEADCLINTState := mkClint {
  msip : Z;
  mtimecmp : Z;
  timer : option Z;
  irq : Z * Z
}.

Definition qemu_irq_pulse (s : THEADCLINTState) (line : Z) : THEADCLINTState :=
  mkClint (msip s) (mtimecmp s) (timer s)
    (if line =? 0 then (fst (irq s) + 1, snd (irq s))
     else (fst (irq s), snd (irq s) + 1)).

Definition thead_clint_mtimecmp_cb (s : THEADCLINTState) : THEADCLINTState :=
  qemu_irq_pulse s 1.

Section HostUtils.

(** QEMU's [muldiv64(a, b, c)] lies outside the device and is taken as
    given. *)
Variable muldiv64 : Z -> Z -> Z -> Z.

(** [cpu_riscv_read_rtc], [now] being
    [qemu_clock_get_ns(QEMU_CLOCK_VIRTUAL)]. *)
Definition cpu_riscv_read_rtc (now : Z) : Z :=
  muldiv64 now 10000000 NANOSECONDS_PER_SECOND.

(** [thead_clint_write_timecmp]; the two reads of the virtual clock in one
    call are taken at the same instant [now]. *)
Definition thead_clint_write_timecmp (s : THEADCLINTState) (now value : Z)
    : THEADCLINTState :=
  let rtc := cpu_riscv_read_rtc now in
  let cmp := uint64 value in
  let s1 := mkClint (msip s) cmp (timer s) (irq s) in
  let diff := uint64 (cmp - rtc) in
  let next_ns := uint64 (now + muldiv64 diff NANOSECONDS_PER_SECOND 10000000) in
  if cmp <=? rtc then qemu_irq_pulse s1 1
  else mkClint (msip s1) (mtimecmp s1) (Some (int64 next_ns)) (irq s1).

Definition thead_clint_read (s : THEADCLINTState) (now addr size : Z) : Z :=
  if negb (Z.land addr 0x3 =? 0) || negb (size =? 4) then 0
  else if addr =? 0 then msip s
  else if addr =? 0x4000 then Z.land (mtimecmp s) 0xFFFFFFFF
  else if addr =? 0x4004 then Z.land (Z.shiftr (mtimecmp s) 32) 0xFFFFFFFF
  else if addr =? 0xbff8 then Z.land (cpu_riscv_read_rtc now) 0xFFFFFFFF
  else if addr =? 0xbffc
  then Z.land (Z.shiftr (cpu_riscv_read_rtc now) 32) 0xFFFFFFFF
  else 0.

Definition thead_clint_write (s : THEADCLINTState) (now addr value size : Z)
    : THEADCLINTState :=
  if negb (Z.land addr 0x3 =? 0) || negb (size =? 4) then s
  else if addr =? 0x0 then
    let s1 := qemu_irq_pulse s 0 in
    mkClint 0x1 (mtimecmp s1) (timer s1) (irq s1)
  else if addr =? 0x4000 then
    let timecmp_hi := Z.shiftr (mtimecmp s) 32 in
    thead_clint_write_timecmp s now
      (Z.lor (uint64 (Z.shiftl timecmp_hi 32)) (Z.land value 0xFFFFFFFF))
  else if addr =? 0x4004 then
    let timecmp_lo := mtimecmp s in
    thead_clint_write_timecmp s now
      (Z.lor (uint64 (Z.shiftl value 32)) (Z.land timecmp_lo 0xFFFFFFFF))
  else s.

(** A run of guest writes [(now, addr, value, size)]. *)
Definition clint_writes (l : list (Z * Z * Z * Z)) (s : THEADCLINTState)
    : THEADCLINTState :=
  fold_left (fun st '(now, addr, value, size) =>
               thead_clint_write st now addr value size) l s.

(** What [muldiv64] is documented to return: [a * b / c], computed with an
    intermediate wide enough not to overflow, as a [uint64_t]. *)
Definition muldiv64_exact : Prop :=
  forall a b c, 0 <= a -> 0 <= b -> 0 < c ->
                muldiv64 a b c = uint64 (a * b / c).

End HostUtils.

(** The state after [thead_clint_init] (the object is zero-filled). *)
Definition thead_clint_init : THEADCLINTState := mkClint 0 0 None (0, 0).

(** The multiplication and division themselves, for the examples. *)
Definition muldiv64_wide (a b c : Z) : Z := uint64 (a * b / c).

End Clint.

(** * Properties *)

(** ** Arrays and bit fields *)

Lemma set_nth_length {A} (n : nat) (l : list A) (v : A) :
  List.length (set_nth n l v) = List.length l.
Proof.
  revert n; induction l as [|h t IH]; intros [|n]; simpl; auto.
Qed.

Lemma set_nth_twice {A} (n : nat) (l : list A) (a b : A) :
  set_nth n (set_nth n l a) b = set_nth n l b.
Proof.
  revert n; induction l as [|h t IH]; intros [|n]; simpl; auto.
  rewrite IH. reflexivity.
Qed.

Lemma nth_set_nth_same (n : nat) (l : list Z) (v : Z) :
  (n < List.length l)%nat -> nth n (set_nth n l v) 0 = v.
Proof.
  revert n; induction l as [|h t IH]; intros [|n] H; simpl in *; try lia; auto.
  apply IH; lia.
Qed.

Lemma zget_zset_same (l : list Z) (i v : Z) :
  0 <= i < Z.of_nat (List.length l) -> zget (zset l i v) i = v.
Proof.
  intros H. unfold zget, zset.
  destruct (Z.ltb_spec i 0); [lia|].
  apply nth_set_nth_same. lia.
Qed.

Lemma zset_length (l : list Z) (i v : Z) :
  List.length (zset l i v) = List.length l.
Proof.
  unfold zset. destruct (i <? 0); auto using set_nth_length.
Qed.

Lemma set_nth_Forall {A} (P : A -> Prop) (n : nat) (l : list A) (v : A) :
  P v -> Forall P l -> Forall P (set_nth n l v).
Proof.
  intros Hv. revert n; induction l as [|h t IH]; intros n H; simpl.
  - destruct n; constructor.
  - inversion H; subst. destruct n; constructor; auto.
Qed.

Lemma extract32_low2 (a : Z) : extract32 a 0 2 = a mod 4.
Proof.
  unfold extract32, uint32. rewrite Z.shiftr_0_r, <- Z.land_assoc.
  change (Z.land 4294967295 (Z.ones 2)) with (Z.ones 2).
  rewrite Z.land_ones by lia. reflexivity.
Qed.

Lemma lnot2_01 (x : Z) : lnot2 x = 0 \/ lnot2 x = 1.
Proof. unfold lnot2. destruct (x =? 0); auto. Qed.

Lemma nth_set_nth_cases (n m : nat) (l : list Z) (v : Z) :
  nth m (set_nth n l v) 0 = nth m l 0 \/ (n = m /\ nth m (set_nth n l v) 0 = v).
Proof.
  revert n m. induction l as [|h t IH]; intros [|n] [|m]; simpl; auto.
  destruct (IH n m) as [H|[-> H]]; auto.
Qed.

Lemma zget_zset_other l i j v :
  0 <= j -> i <> j -> zget (zset l i v) j = zget l j.
Proof.
  intros Hj Hne. unfold zget, zset. destruct (Z.ltb_spec i 0); [reflexivity|].
  destruct (nth_set_nth_cases (Z.to_nat i) (Z.to_nat j) l v) as [E|[E _]];
    [exact E|lia].
Qed.

Lemma zget_zset_zero l i j : zget l j = 0 -> zget (zset l i 0) j = 0.
Proof.
  intros H. unfold zget, zset in *. destruct (i <? 0); [exact H|].
  destruct (nth_set_nth_cases (Z.to_nat i) (Z.to_nat j) l 0) as [E|[_ E]];
    congruence.
Qed.

(** ** CLIC *)

Module ClicProofs.
Import Clic.

Section Arbitration.

Variables MODE_SHIFT LEVEL_SHIFT : Z.
Variable encode_irq : Z -> Z -> Z.

Abbreviation next_interrupt :=
  (riscv_clic_next_interrupt MODE_SHIFT LEVEL_SHIFT encode_irq).
Abbreviation scan := (scan_active MODE_SHIFT LEVEL_SHIFT encode_irq).
Abbreviation deliver_at := (deliver MODE_SHIFT LEVEL_SHIFT encode_irq).

Lemma scan_skips_passed_over env s pre rest :
  Forall (passed_over env s) pre ->
  scan env s (pre ++ rest) = scan env s rest.
Proof.
  induction 1 as [|a pre [Hb Hp] _ IH]; simpl; auto.
  rewrite Hb, Hp. simpl. exact IH.
Qed.

Lemma deliver_same_config env s a : same_config s (deliver_at env s a).
Proof.
  unfold deliver, same_config.
  destruct (riscv_clic_intcfg_decode s (intcfg a)) as [[m l] p].
  destruct (riscv_clic_is_edge_triggered s (irq a)
            && riscv_clic_is_shv_interrupt s (irq a));
    destruct (qtest_enabled env); simpl; repeat split; reflexivity.
Qed.

Lemma same_config_refl s : same_config s s.
Proof. unfold same_config; repeat split; reflexivity. Qed.

Lemma same_config_trans s1 s2 s3 :
  same_config s1 s2 -> same_config s2 s3 -> same_config s1 s3.
Proof.
  unfold same_config; intros H1 H2.
  repeat match goal with H : _ /\ _ |- _ => destruct H end.
  repeat split; congruence.
Qed.

Lemma scan_same_config env s l : same_config s (scan env s l).
Proof.
  induction l as [|a l IH]; simpl.
  - apply same_config_refl.
  - destruct (scan_break env s a); [apply same_config_refl|].
    destruct (negb _); [apply deliver_same_config | exact IH].
Qed.

Lemma next_interrupt_same_config env s : same_config s (next_interrupt env s).
Proof. apply scan_same_config. Qed.

(** The fields the delivery of entry [a] writes. *)
Lemma deliver_fields env s a :
  let mode := uint8 (Z.shiftr (intcfg a) 8) in
  let level := riscv_clic_get_interrupt_level s (Z.land (intcfg a) 255) in
  let s' := deliver_at env s a in
  clicintip s' = auto_cleared s (irq a) /\
  cpu_irq s' = (if qtest_enabled env then encode_irq (irq a) 1 else 1)
               :: cpu_irq s /\
  exccode s' = (if qtest_enabled env then exccode s
                else clic_cause MODE_SHIFT LEVEL_SHIFT (irq a) mode level).
Proof.
  unfold deliver, auto_cleared, riscv_clic_intcfg_decode.
  destruct (riscv_clic_is_edge_triggered s (irq a)
            && riscv_clic_is_shv_interrupt s (irq a));
    destruct (qtest_enabled env); simpl; repeat split; reflexivity.
Qed.

Lemma scan_pending_bits env s l :
  clicintip (scan env s l) = clicintip s
  \/ exists i, clicintip (scan env s l) = zset (clicintip s) i 0.
Proof.
  induction l as [|a l IH]; simpl; auto.
  destruct (scan_break env s a); auto.
  destruct (negb _); auto.
  destruct (deliver_fields env s a) as [H _]. rewrite H.
  unfold auto_cleared. destruct (_ && _); eauto.
Qed.




(** The bisection never runs out of iterations: any two bounds above the
    width of the interval give the same answer. *)
Lemma bsearch_loop_fuel key arr f1 :
  forall f2 l u,
    u - l < Z.of_nat f1 -> u - l < Z.of_nat f2 ->
    bsearch_loop f1 key arr l u = bsearch_loop f2 key arr l u.
Proof.
  induction f1 as [|f1 IH]; intros [|f2] l u H1 H2; simpl;
    try reflexivity.
  - destruct (Z.ltb_spec l u); [lia|reflexivity].
  - destruct (Z.ltb_spec l u); [lia|reflexivity].
  - destruct (Z.ltb_spec l u) as [Hlu|Hlu]; [|reflexivity].
    pose proof (Z.div_mod (l + u) 2 ltac:(lia)) as Hd.
    pose proof (Z.mod_pos_bound (l + u) 2 ltac:(lia)) as Hm.
    destruct (_ <? 0); [apply IH; lia|].
    destruct (_ >? 0); [apply IH; lia|reflexivity].
Qed.

(** The list is in descending key order after every change of an enable
    bit: [riscv_clic_update_intie] ends with the [qsort]. *)
Lemma insert_active_elems a l (P : CLICActiveInterrupt -> Prop) :
  P a -> Forall P l -> Forall P (insert_active a l).
Proof.
  intros Ha. induction 1 as [|b t Hb Ht IH]; simpl.
  - repeat constructor; exact Ha.
  - destruct (_ <=? 0); repeat constructor; auto.
Qed.

Lemma insert_active_sorted a l :
  sorted_desc l -> sorted_desc (insert_active a l).
Proof.
  induction l as [|b t IH]; simpl; intros H.
  - repeat constructor.
  - destruct H as [Hb Ht]. unfold riscv_clic_active_compare.
    destruct (Z.leb_spec (riscv_clic_encode_priority b
                          - riscv_clic_encode_priority a) 0) as [Hc|Hc]; simpl.
    + repeat split; auto. constructor; [lia|].
      eapply Forall_impl; [|exact Hb]. simpl; intros; lia.
    + split; [|auto]. apply insert_active_elems; [lia|exact Hb].
Qed.

Lemma qsort_active_sorted l : sorted_desc (qsort_active l).
Proof.
  induction l as [|a l IH]; simpl; [exact I|].
  apply insert_active_sorted, IH.
Qed.

Lemma insert_active_length a l :
  List.length (insert_active a l) = S (List.length l).
Proof.
  induction l as [|b t IH]; simpl; auto.
  destruct (_ <=? 0); simpl; auto.
Qed.

Lemma qsort_active_length l : List.length (qsort_active l) = List.length l.
Proof.
  induction l as [|a l IH]; simpl; auto.
  rewrite insert_active_length, IH. reflexivity.
Qed.

Lemma sort_active_list_prefix s :
  active_prefix (sort_active_list s) = qsort_active (active_prefix s).
Proof.
  unfold active_prefix, sort_active_list. simpl.
  set (n := Z.to_nat (active_count s)).
  rewrite firstn_app, qsort_active_length, length_firstn.
  destruct (Nat.le_gt_cases n (List.length (active_list s))) as [H|H].
  - replace (n - Nat.min n (List.length (active_list s)))%nat with 0%nat by lia.
    simpl. rewrite app_nil_r. apply firstn_all2.
    rewrite qsort_active_length, length_firstn. lia.
  - rewrite skipn_all2 by lia. rewrite firstn_nil, app_nil_r.
    apply firstn_all2. rewrite qsort_active_length, length_firstn. lia.
Qed.

Lemma update_intie_sorted env s mode i v s' :
  riscv_clic_update_intie MODE_SHIFT LEVEL_SHIFT encode_irq env s mode i v
    = Some s' ->
  sorted_desc (active_prefix s').
Proof.
  unfold riscv_clic_update_intie. intros H.
  destruct (if negb (v =? 0) && _ then _ else _) as [s2|]; [|discriminate].
  simpl in H. injection H as <-.
  pose proof (next_interrupt_same_config env (sort_active_list s2)) as Hc.
  unfold same_config in Hc.
  repeat match goal with H : _ /\ _ |- _ => destruct H end.
  unfold active_prefix at 1.
  match goal with
  | Hl : active_list _ = _, Hn : active_count _ = _ |- _ => rewrite Hl, Hn
  end.
  fold (active_prefix (sort_active_list s2)).
  rewrite sort_active_list_prefix. apply qsort_active_sorted.
Qed.

(** *** What the operations leave alone *)

Lemma zset_Forall (P : Z -> Prop) l i v :
  P v -> Forall P l -> Forall P (zset l i v).
Proof.
  intros. unfold zset. destruct (i <? 0); auto using set_nth_Forall.
Qed.

Lemma footprint_refl s : footprint s s.
Proof. unfold footprint; repeat split; auto. Qed.

Lemma footprint_trans s1 s2 s3 :
  footprint s1 s2 -> footprint s2 s3 -> footprint s1 s3.
Proof.
  unfold footprint; intros H1 H2.
  repeat match goal with H : _ /\ _ |- _ => destruct H end.
  repeat split; try congruence; auto.
Qed.

Lemma next_interrupt_footprint env s : footprint s (next_interrupt env s).
Proof.
  pose proof (next_interrupt_same_config env s) as Hc.
  pose proof (scan_pending_bits env s (active_prefix s)) as Hp.
  fold (next_interrupt env s) in Hp.
  unfold same_config in Hc.
  repeat match goal with H : _ /\ _ |- _ => destruct H end.
  unfold footprint; repeat split; try congruence.
  - destruct Hp as [-> | [i ->]]; auto using zset_length.
  - intros Hb. destruct Hp as [-> | [i ->]]; auto.
    apply zset_Forall; auto.
Qed.

Ltac footprint_step :=
  eapply footprint_trans; [|apply next_interrupt_footprint];
  unfold footprint; simpl; repeat split; auto using zset_length;
  intros; apply zset_Forall; auto using lnot2_01.

Lemma update_intip_footprint env s i v :
  footprint s (riscv_clic_update_intip MODE_SHIFT LEVEL_SHIFT encode_irq
                 env s i v).
Proof. unfold riscv_clic_update_intip. footprint_step. Qed.

Lemma update_intie_footprint env s mode i v s' :
  riscv_clic_update_intie MODE_SHIFT LEVEL_SHIFT encode_irq env s mode i v
    = Some s' ->
  footprint s s'.
Proof.
  unfold riscv_clic_update_intie. intros H.
  destruct (negb (v =? 0) && _).
  - simpl in H. injection H as <-. footprint_step.
  - destruct ((v =? 0) && _).
    + destruct (bsearch_active _ _ _); [|discriminate].
      simpl in H. injection H as <-. footprint_step.
    + simpl in H. injection H as <-. footprint_step.
Qed.

Lemma for_range_footprint n k body s s' :
  (forall j st st', body j st = Some st' -> footprint st st') ->
  for_range n k body s = Some s' -> footprint s s'.
Proof.
  intros Hb. revert k s. induction n as [|n IH]; simpl; intros k s H.
  - injection H as <-. apply footprint_refl.
  - destruct (body k s) as [s1|] eqn:E; [|discriminate]. simpl in H.
    eapply footprint_trans; eauto.
Qed.

Lemma hart_write_body_footprint self env s addr value size mode i s' :
  (forall st a v st', self st a v = Some st' -> footprint st st') ->
  hart_write_body MODE_SHIFT LEVEL_SHIFT encode_irq self env s addr value
    size mode i = Some s' ->
  footprint s s'.
Proof.
  intros Hself. unfold hart_write_body. intros H.
  destruct (i >=? num_sources s); [injection H as <-; apply footprint_refl|].
  destruct (extract32 addr 0 2 =? 0).
  { match type of H with
    | (if _ then for_range _ _ _ ?s1 else _) = _ =>
        assert (H1 : footprint s s1)
    end.
    { destruct (riscv_clic_validate_intip s i); [|apply footprint_refl].
      destruct (negb _); [apply update_intip_footprint|apply footprint_refl]. }
    destruct (size >? 1).
    - eapply footprint_trans; [exact H1|].
      eapply for_range_footprint; [|exact H].
      intros j st st' E. eapply Hself. exact E.
    - injection H as <-. exact H1. }
  destruct (extract32 addr 0 2 =? 1).
  { destruct (negb _); [eapply update_intie_footprint; eauto|].
    injection H as <-; apply footprint_refl. }
  destruct (extract32 addr 0 2 =? 2).
  { destruct (riscv_clic_effective_mode s (uint8 value)); [|discriminate].
    simpl in H.
    destruct (riscv_clic_validate_intattr env _);
      [|injection H as <-; apply footprint_refl].
    destruct (negb _); injection H as <-; [|apply footprint_refl].
    footprint_step. }
  destruct (negb _); injection H as <-; [|apply footprint_refl].
  footprint_step.
Qed.

Lemma hart_write_footprint env s addr value size mode i s' :
  riscv_clic_hart_write MODE_SHIFT LEVEL_SHIFT encode_irq env s addr value
    size mode i = Some s' ->
  footprint s s'.
Proof.
  apply hart_write_body_footprint.
  intros st a v st'. apply hart_write_body_footprint.
  intros ? ? ? ? E; injection E as <-; apply footprint_refl.
Qed.












(** *** Address decoding *)

Lemma quartet_addr i b :
  0 <= b < 4 ->
  extract32 (4 * i + b) 0 2 = b /\ riscv_clic_get_irq (4 * i + b) = i.
Proof.
  intros Hb. rewrite extract32_low2. unfold riscv_clic_get_irq.
  rewrite (Z.mul_comm 4 i), (Z.add_comm (i * 4) b).
  rewrite Z.mod_add, Z.div_add by lia.
  rewrite Z.mod_small, Z.div_small by lia. split; lia.
Qed.

Lemma uint8_byte w : 0 <= w < 256 -> uint8 w = w.
Proof.
  intros H. unfold uint8. change 255 with (Z.ones 8).
  rewrite Z.land_ones by lia. apply Z.mod_small. change (2 ^ 8) with 256. lia.
Qed.

Lemma check_visible_ext s s' mode i :
  prv_s s' = prv_s s -> prv_u s' = prv_u s -> nmbits s' = nmbits s ->
  clicintattr s' = clicintattr s ->
  riscv_clic_check_visible s' mode i = riscv_clic_check_visible s mode i.
Proof.
  unfold riscv_clic_check_visible. intros -> -> -> ->. reflexivity.
Qed.

Lemma read_quartet env mode s i b size :
  0 <= i -> 0 <= b < 4 ->
  riscv_clic_read env mode s (CLIC_INTCTL_BASE + 4 * i + b) size =
  if negb (CLIC_INTCTL_BASE + 4 * i + b <? clic_size s) then None
  else if mode >? priv env then Some 0
  else vis <- riscv_clic_check_visible s mode i ;;
       if vis then riscv_clic_hart_read s (4 * i + b) size i else Some 0.
Proof.
  intros Hi Hb. unfold riscv_clic_read.
  destruct (Z.ltb_spec (CLIC_INTCTL_BASE + 4 * i + b) CLIC_INTCTL_BASE); [lia|].
  replace (CLIC_INTCTL_BASE + 4 * i + b - CLIC_INTCTL_BASE)
    with (4 * i + b) by lia.
  destruct (quartet_addr i b Hb) as [_ ->]. reflexivity.
Qed.

Lemma write_quartet env mode s i b value size :
  0 <= i -> 0 <= b < 4 ->
  riscv_clic_write MODE_SHIFT LEVEL_SHIFT encode_irq env mode s
    (CLIC_INTCTL_BASE + 4 * i + b) value size =
  if negb (CLIC_INTCTL_BASE + 4 * i + b <? clic_size s) then None
  else if mode >? priv env then Some s
  else vis <- riscv_clic_check_visible s mode i ;;
       if vis
       then riscv_clic_hart_write MODE_SHIFT LEVEL_SHIFT encode_irq env s
              (4 * i + b) value size mode i
       else Some s.
Proof.
  intros Hi Hb. unfold riscv_clic_write.
  destruct (Z.ltb_spec (CLIC_INTCTL_BASE + 4 * i + b) CLIC_INTCTL_BASE); [lia|].
  replace (CLIC_INTCTL_BASE + 4 * i + b - CLIC_INTCTL_BASE)
    with (4 * i + b) by lia.
  destruct (quartet_addr i b Hb) as [_ ->]. reflexivity.
Qed.

(** A byte read of register [b] of the quartet of interrupt [i]. *)
Lemma hart_read_byte s i b :
  0 <= b < 4 -> i < num_sources s ->
  riscv_clic_hart_read s (4 * i + b) 1 i =
  if b =? 0 then Some (zget (clicintip s) i)
  else if b =? 1 then Some (zget (clicintie s) i)
  else if b =? 2 then
    fm <- riscv_clic_effective_mode s
            (Z.land (zget (clicintattr s) i) CLIC_INTATTR_MASK) ;;
    Some (uint8 (set_field (Z.land (zget (clicintattr s) i) CLIC_INTATTR_MASK)
                   CLIC_INTATTR_MODE fm))
  else Some (Z.lor (zget (clicintctl s) i)
                   (Z.shiftl 1 (8 - clicintctlbits s) - 1)).
Proof.
  intros Hb Hi. unfold riscv_clic_hart_read, hart_read_body.
  destruct (quartet_addr i b Hb) as [-> _].
  destruct (Z.geb_spec i (num_sources s)); [lia|].
  destruct (b =? 0); reflexivity.
Qed.

(** The scan clears at most the pending bit of one listed interrupt, and
    only of a vectored edge-triggered one. *)
Lemma scan_clears_only_vectored_edge env s l :
  clicintip (scan_active MODE_SHIFT LEVEL_SHIFT encode_irq env s l)
  = clicintip s
  \/ exists a,
       In a l /\ riscv_clic_is_edge_triggered s (irq a) = true /\
       clicintip (scan_active MODE_SHIFT LEVEL_SHIFT encode_irq env s l)
       = zset (clicintip s) (irq a) 0.
Proof.
  induction l as [|a l IH]; simpl; auto.
  destruct (scan_break env s a); auto.
  destruct (negb _).
  - destruct (deliver_fields env s a) as [H _].
    rewrite H. unfold auto_cleared.
    destruct (riscv_clic_is_edge_triggered s (irq a)) eqn:E; cbn [andb]; auto.
    destruct (riscv_clic_is_shv_interrupt s (irq a)); auto.
    right. exists a. auto.
  - destruct IH as [IH|(b & Hb & He & Hz)]; auto.
    right. exists b. auto.
Qed.

(** A pending bit just stored survives the arbitration that follows unless
    its interrupt is listed and edge triggered. *)
Lemma update_intip_kept env s id v :
  0 <= id < Z.of_nat (List.length (clicintip s)) ->
  (forall a, In a (active_prefix s) ->
             riscv_clic_is_edge_triggered s (irq a) = true -> irq a <> id) ->
  zget (clicintip (riscv_clic_update_intip MODE_SHIFT LEVEL_SHIFT encode_irq
                     env s id v)) id = lnot2 v.
Proof.
  intros Hid Hno. unfold riscv_clic_update_intip, riscv_clic_next_interrupt.
  set (s1 := set_clicintip s (zset (clicintip s) id (lnot2 v))).
  destruct (scan_clears_only_vectored_edge env s1 (active_prefix s1))
    as [->|(a & Ha & He & ->)].
  - simpl. apply zget_zset_same. exact Hid.
  - rewrite zget_zset_other; [simpl; apply zget_zset_same; exact Hid|lia|].
    apply Hno; [exact Ha|exact He].
Qed.


(** C3.  For an interrupt [i < num_sources] and a byte [w], a write of [w]
    to [clicintctl[i]] through a view that sees the interrupt is followed
    by a read of [w | ((1 << (8 - clicintctlbits)) - 1)]; with
    [clicintctlbits = 3], 0x21 reads back 0x3F, 0x00 reads back 0x1F and
    0xF0 reads back 0xFF. *)
Theorem clicintctl_write_then_read env mode s i w :
  wf_clic s -> 0 <= i < num_sources s -> 0 <= w < 256 ->
  mode <= priv env ->
  riscv_clic_check_visible s mode i = Some true ->
  exists s',
    riscv_clic_write MODE_SHIFT LEVEL_SHIFT encode_irq env mode s
      (clicintctl_addr i) w 1 = Some s' /\
    riscv_clic_read env mode s' (clicintctl_addr i) 1
      = Some (Z.lor w (Z.shiftl 1 (8 - clicintctlbits s) - 1)) /\
    (clicintctlbits s = 3 ->
     (w = 0x21 ->
      riscv_clic_read env mode s' (clicintctl_addr i) 1 = Some 0x3F) /\
     (w = 0x00 ->
      riscv_clic_read env mode s' (clicintctl_addr i) 1 = Some 0x1F) /\
     (w = 0xF0 ->
      riscv_clic_read env mode s' (clicintctl_addr i) 1 = Some 0xFF)).
Proof.
  intros (Hn & Hsz & Hbits & _ & _ & _ & Hlen) Hi Hw Hpriv Hvis.
  assert (Hrd : forall s',
            clic_size s' = clic_size s -> num_sources s' = num_sources s ->
            clicintctlbits s' = clicintctlbits s ->
            riscv_clic_check_visible s' mode i = Some true ->
            zget (clicintctl s') i = w ->
            riscv_clic_read env mode s' (clicintctl_addr i) 1
              = Some (Z.lor w (Z.shiftl 1 (8 - clicintctlbits s) - 1))).
  { intros s' E1 E2 E3 E4 E5. unfold clicintctl_addr.
    rewrite read_quartet, E1, Hsz, E4 by lia.
    destruct (Z.ltb_spec (CLIC_INTCTL_BASE + 4 * i + 3)
                (num_sources s * 4 + CLIC_INTCTL_BASE)); [|lia].
    destruct (Z.gtb_spec mode (priv env)); [lia|].
    unfold bind, negb. rewrite hart_read_byte by lia.
    simpl. rewrite E3, E5. reflexivity. }
  assert (Hw' : exists s',
            riscv_clic_write MODE_SHIFT LEVEL_SHIFT encode_irq env mode s
              (clicintctl_addr i) w 1 = Some s' /\
            clic_size s' = clic_size s /\ num_sources s' = num_sources s /\
            clicintctlbits s' = clicintctlbits s /\
            riscv_clic_check_visible s' mode i = Some true /\
            zget (clicintctl s') i = w).
  { unfold clicintctl_addr. rewrite write_quartet, Hsz, Hvis by lia.
    destruct (Z.ltb_spec (CLIC_INTCTL_BASE + 4 * i + 3)
                (num_sources s * 4 + CLIC_INTCTL_BASE)); [|lia].
    destruct (Z.gtb_spec mode (priv env)); [lia|].
    unfold bind, negb, riscv_clic_hart_write, hart_write_body.
    destruct (quartet_addr i 3 ltac:(lia)) as [-> _].
    destruct (Z.geb_spec i (num_sources s)); [lia|]. simpl.
    destruct (Z.eqb_spec w (zget (clicintctl s) i)) as [E|E]; simpl.
    - exists s. repeat split; auto.
    - eexists. split; [reflexivity|].
      match goal with
      | |- context [riscv_clic_next_interrupt _ _ _ env ?s0] =>
          pose proof (next_interrupt_same_config env s0) as Hc
      end.
      unfold same_config in Hc.
      repeat match goal with H : _ /\ _ |- _ => destruct H end.
      repeat split; try (simpl in *; congruence).
      + rewrite <- Hvis. apply check_visible_ext; simpl in *; congruence.
      + match goal with Hx : clicintctl _ = _ |- _ => rewrite Hx end.
        simpl. rewrite zget_zset_same by (rewrite Hlen; lia).
        apply uint8_byte; lia. }
  destruct Hw' as (s' & Hwr & E1 & E2 & E3 & E4 & E5).
  exists s'. split; [exact Hwr|].
  pose proof (Hrd s' E1 E2 E3 E4 E5) as Hr.
  split; [exact Hr|].
  intros Hb. rewrite Hr, Hb.
  repeat split; intros ->; reflexivity.
Qed.

Lemma check_visible_defined s mode i :
  nmbits_valid s -> riscv_clic_check_visible s mode i <> None.
Proof.
  unfold nmbits_valid, riscv_clic_check_visible. intros [H0 H1].
  destruct (prv_s s), (prv_u s); simpl in *;
    repeat match goal with
           | |- context [?a =? ?b] => destruct (Z.eqb_spec a b)
           end; try discriminate; lia.
Qed.

(** C4.  For an interrupt whose trigger is level (positive or negative), a
    byte write to [clicintip[i]] through any view, of any value, leaves the
    whole CLIC state as it was; so a byte write to [clicintip[i]] that
    changes the state finds an edge trigger. *)
Theorem level_triggered_intip_write_ignored env mode s i v :
  nmbits_valid s -> 0 <= i -> clicintip_addr i < clic_size s ->
  (riscv_clic_get_trigger_type s i = POSITIVE_LEVEL
   \/ riscv_clic_get_trigger_type s i = NEG_LEVEL ->
   riscv_clic_write MODE_SHIFT LEVEL_SHIFT encode_irq env mode s
     (clicintip_addr i) v 1 = Some s) /\
  (forall s',
      riscv_clic_write MODE_SHIFT LEVEL_SHIFT encode_irq env mode s
        (clicintip_addr i) v 1 = Some s' ->
      s' <> s -> riscv_clic_is_edge_triggered s i = true).
Proof.
  intros Hnm Hi Ha.
  assert (Hne : riscv_clic_is_edge_triggered s i = false ->
                riscv_clic_write MODE_SHIFT LEVEL_SHIFT encode_irq env mode s
                  (clicintip_addr i) v 1 = Some s).
  { intros He. unfold clicintip_addr in *.
    replace (CLIC_INTCTL_BASE + 4 * i) with (CLIC_INTCTL_BASE + 4 * i + 0)
      in * by lia.
    rewrite write_quartet by lia.
    destruct (Z.ltb_spec (CLIC_INTCTL_BASE + 4 * i + 0) (clic_size s)); [|lia].
    unfold negb. destruct (mode >? priv env); [reflexivity|].
    pose proof (check_visible_defined s mode i Hnm) as Hv.
    destruct (riscv_clic_check_visible s mode i) as [[|]|];
      [|reflexivity|contradiction].
    unfold bind, riscv_clic_hart_write, hart_write_body.
    destruct (quartet_addr i 0 ltac:(lia)) as [-> _].
    destruct (i >=? num_sources s); [reflexivity|].
    unfold riscv_clic_validate_intip. rewrite He. reflexivity. }
  split.
  - intros Ht. apply Hne. unfold riscv_clic_is_edge_triggered.
    destruct Ht as [-> | ->]; reflexivity.
  - intros s' Hw Hd.
    destruct (riscv_clic_is_edge_triggered s i) eqn:He; [reflexivity|].
    rewrite (Hne eq_refl) in Hw. injection Hw as <-. contradiction.
Qed.

(** C7.  A write to [cliccfg] always completes.  Whatever the implemented
    privileges, an [nmbits] value above the maximum they allow (0 for M
    only, 1 for M+S or M+U, 2 for M+S+U) leaves the stored [nmbits] as it
    was; a value within the range written through the M view by a CPU in
    machine mode is stored; and a write through another view leaves
    [nmbits] as it was. *)
Theorem cliccfg_nmbits_write env mode s value size :
  0 < clic_size s ->
  let nm := extract32 value 4 2 in
  let nm_max := if prv_s s && prv_u s then 2
                else if prv_s s || prv_u s then 1 else 0 in
  exists s',
    riscv_clic_write MODE_SHIFT LEVEL_SHIFT encode_irq env mode s 0 value size
      = Some s' /\
    (nm_max < nm -> nmbits s' = nmbits s) /\
    (nm <= nm_max -> mode = PRV_M -> PRV_M <= priv env -> nmbits s' = nm) /\
    (mode <> PRV_M -> nmbits s' = nmbits s).
Proof.
  intros Hsz nm nm_max. unfold riscv_clic_write.
  assert (Hnm : 0 <= nm).
  { subst nm. unfold extract32. apply Z.land_nonneg. right. discriminate. }
  destruct (Z.ltb_spec 0 (clic_size s)); [|lia]. simpl negb. cbv iota.
  destruct (Z.gtb_spec mode (priv env)) as [Hg|Hg].
  - exists s. repeat split; auto. intros; subst; lia.
  - change (0 <? CLIC_INTCTL_BASE) with true.
    change (negb (0 mod 4 =? 0)) with false.
    change (0 / 4 =? 0) with true. cbv iota.
    eexists; split; [reflexivity|].
    unfold cliccfg_write, set_cliccfg. cbn [nmbits]. fold nm.
    subst nm_max.
    destruct (Z.eqb_spec PRV_M mode) as [Em|Em].
    + destruct (prv_s s), (prv_u s); cbn [andb orb];
        repeat match goal with
               | |- context [?a <=? ?b] => destruct (Z.leb_spec a b)
               | |- context [?a =? ?b] => destruct (Z.eqb_spec a b)
               end; repeat split; intros; try lia; try congruence.
    + repeat split; intros; congruence.
Qed.

(** *** Multi-byte accesses *)

Lemma hart_read_1_eq s i a :
  riscv_clic_hart_read_1 s i a = riscv_clic_hart_read s a 1 i.
Proof. reflexivity. Qed.

Lemma hart_write_1_eq env mode i s a v :
  riscv_clic_hart_write_1 MODE_SHIFT LEVEL_SHIFT encode_irq env mode i s a v
  = riscv_clic_hart_write MODE_SHIFT LEVEL_SHIFT encode_irq env s a v 1 mode i.
Proof. reflexivity. Qed.

Lemma lor_byte a b :
  0 <= a < 256 -> 0 <= b < 256 -> Z.land (Z.lor a b) 255 = Z.lor a b.
Proof.
  intros Ha Hb. rewrite Z.land_lor_distr_l.
  fold (uint8 a) (uint8 b). rewrite !uint8_byte by lia. reflexivity.
Qed.

Lemma uint8_idem x : Z.land (uint8 x) 255 = uint8 x.
Proof.
  unfold uint8. rewrite <- Z.land_assoc. reflexivity.
Qed.

Lemma ctl_padding_byte bits :
  0 <= bits <= 8 -> 0 <= Z.shiftl 1 (8 - bits) - 1 < 256.
Proof.
  intros H. rewrite Z.shiftl_1_l.
  assert (0 < 2 ^ (8 - bits)) by (apply Z.pow_pos_nonneg; lia).
  assert (2 ^ (8 - bits) <= 2 ^ 8) by (apply Z.pow_le_mono_r; lia).
  change (2 ^ 8) with 256 in *. lia.
Qed.

Lemma quartet_in_range s i k :
  clic_size s = num_sources s * 4 + CLIC_INTCTL_BASE ->
  0 <= i < num_sources s -> 0 <= k < 4 ->
  negb (CLIC_INTCTL_BASE + 4 * i + k <? clic_size s) = false.
Proof.
  intros -> Hi Hk.
  destruct (Z.ltb_spec (CLIC_INTCTL_BASE + 4 * i + k)
              (num_sources s * 4 + CLIC_INTCTL_BASE)); [reflexivity|lia].
Qed.

(** A read of [size] bytes from byte 0 of a quartet. *)
Lemma hart_read_multi s i size :
  i < num_sources s -> 1 < size ->
  riscv_clic_hart_read s (4 * i + 0) size i =
  for_range (Z.to_nat (size - 1)) 1
    (fun k acc =>
       sub <- riscv_clic_hart_read s (4 * i + 0 + k) 1 i ;;
       Some (Z.lor acc (Z.shiftl (Z.land sub 255) (k * 8))))
    (zget (clicintip s) i).
Proof.
  intros Hi Hs. unfold riscv_clic_hart_read at 1. unfold hart_read_body.
  destruct (quartet_addr i 0 ltac:(lia)) as [-> _].
  destruct (Z.geb_spec i (num_sources s)); [lia|].
  destruct (Z.gtb_spec size 1); [|lia]. reflexivity.
Qed.

Lemma multi_byte_read env mode s i size :
  wf_clic s -> 0 <= i < num_sources s -> size = 2 \/ size = 4 ->
  0 <= zget (clicintie s) i < 256 -> 0 <= zget (clicintctl s) i < 256 ->
  riscv_clic_read env mode s (clicintip_addr i) size
    = read_bytes env mode s (clicintip_addr i) (Z.to_nat size).
Proof.
  intros (Hn & Hsz & Hbits & _ & _ & _ & Hlen) Hi Hsize Hie Hctl.
  unfold read_bytes, clicintip_addr.
  replace (riscv_clic_read env mode s (CLIC_INTCTL_BASE + 4 * i))
    with (riscv_clic_read env mode s (CLIC_INTCTL_BASE + 4 * i + 0))
    by (f_equal; lia).
  assert (Hctl' : Z.land (Z.lor (zget (clicintctl s) i)
                            (Z.shiftl 1 (8 - clicintctlbits s) - 1)) 255
                  = Z.lor (zget (clicintctl s) i)
                      (Z.shiftl 1 (8 - clicintctlbits s) - 1))
    by (apply lor_byte; auto using ctl_padding_byte).
  assert (Hie' : Z.land (zget (clicintie s) i) 255 = zget (clicintie s) i)
    by (apply uint8_byte; assumption).
  destruct Hsize as [-> | ->].
  - change (Z.to_nat 2 - 1)%nat with 1%nat. cbn [for_range].
    rewrite !read_quartet, !quartet_in_range by lia.
    destruct (mode >? priv env); [reflexivity|].
    destruct (riscv_clic_check_visible s mode i) as [[|]|];
      [|reflexivity|reflexivity].
    cbn [bind]. rewrite hart_read_multi by lia.
    change (Z.to_nat (2 - 1)) with 1%nat. cbn [for_range].
    rewrite (hart_read_byte s i 0) by lia.
    rewrite Z.add_0_r, !hart_read_byte by lia.
    cbn [Z.eqb Pos.eqb bind]. rewrite Hie'. reflexivity.
  - change (Z.to_nat 4 - 1)%nat with 3%nat. cbn [for_range].
    change (1 + 1) with 2. change (2 + 1) with 3.
    rewrite !read_quartet, !quartet_in_range by lia.
    destruct (mode >? priv env); [reflexivity|].
    destruct (riscv_clic_check_visible s mode i) as [[|]|];
      [|reflexivity|reflexivity].
    cbn [bind]. rewrite hart_read_multi by lia.
    change (Z.to_nat (4 - 1)) with 3%nat. cbn [for_range].
    change (1 + 1) with 2. change (2 + 1) with 3.
    rewrite (hart_read_byte s i 0) by lia.
    rewrite Z.add_0_r, !hart_read_byte by lia.
    cbn [Z.eqb Pos.eqb bind]. rewrite Hie'.
    destruct (riscv_clic_effective_mode s _); [|reflexivity].
    cbn [bind]. rewrite uint8_idem, Hctl'. reflexivity.
Qed.

Lemma land_le_r a b : 0 <= b -> 0 <= Z.land a b <= b.
Proof.
  intros Hb. split; [apply Z.land_nonneg; auto|].
  assert (H : Z.land (Z.ldiff b a) (Z.land b a) = 0).
  { rewrite Z.land_comm, <- Z.land_assoc, (Z.land_comm a), Z.land_ldiff.
    apply Z.land_0_r. }
  pose proof (Z.add_nocarry_lxor _ _ H) as H1.
  rewrite (Z.lxor_lor _ _ H), Z.lor_ldiff_and in H1.
  assert (0 <= Z.ldiff b a) by (apply Z.ldiff_nonneg; auto).
  rewrite (Z.land_comm a b). lia.
Qed.

Lemma intattr_mode_le3 x : get_field x CLIC_INTATTR_MODE <= 3.
Proof.
  unfold get_field. change (mask_lsb CLIC_INTATTR_MODE) with 64.
  pose proof (land_le_r x CLIC_INTATTR_MODE ltac:(discriminate)) as H.
  change CLIC_INTATTR_MODE with 192 in *.
  apply Z.div_le_upper_bound; lia.
Qed.

(** The M view sees every interrupt, whatever its attributes. *)
Lemma check_visible_M s i :
  riscv_clic_check_visible s PRV_M i = Some true
  \/ riscv_clic_check_visible s PRV_M i = None.
Proof.
  unfold riscv_clic_check_visible.
  pose proof (intattr_mode_le3 (zget (clicintattr s) i)) as H.
  destruct (prv_s s), (prv_u s); simpl; auto;
    repeat match goal with
           | |- context [nmbits s =? ?b] => destruct (nmbits s =? b)
           end; auto.
  left. f_equal. unfold PRV_M.
  destruct (Z.geb_spec 3 (get_field (zget (clicintattr s) i)
                            CLIC_INTATTR_MODE)); [reflexivity|lia].
Qed.

Lemma check_visible_M_footprint s st i :
  footprint s st ->
  riscv_clic_check_visible s PRV_M i = Some true ->
  riscv_clic_check_visible st PRV_M i = Some true.
Proof.
  intros (Hnm & _ & _ & _ & _ & Hps & Hpu & _) Hv.
  destruct (check_visible_M st i) as [H|H]; [exact H|].
  exfalso. revert Hv H. unfold riscv_clic_check_visible.
  rewrite Hnm, Hps, Hpu.
  destruct (prv_s s), (prv_u s); simpl;
    repeat match goal with
           | |- context [nmbits s =? ?b] => destruct (nmbits s =? b)
           end; discriminate.
Qed.

(** Byte writes through the M view, one after the other, are the byte
    writes the loop of [riscv_clic_hart_write] makes. *)
Lemma byte_writes_loop env s0 i value n :
  clic_size s0 = num_sources s0 * 4 + CLIC_INTCTL_BASE ->
  0 <= i < num_sources s0 -> PRV_M <= priv env ->
  riscv_clic_check_visible s0 PRV_M i = Some true ->
  forall k0 st,
    footprint s0 st -> 0 <= k0 -> k0 + Z.of_nat n <= 4 ->
    for_range n k0
      (fun k st' =>
         riscv_clic_write MODE_SHIFT LEVEL_SHIFT encode_irq env PRV_M st'
           (CLIC_INTCTL_BASE + 4 * i + k)
           (Z.land (Z.shiftr value (k * 8)) 255) 1) st
    = for_range n k0
        (fun k st' =>
           riscv_clic_hart_write_1 MODE_SHIFT LEVEL_SHIFT encode_irq env
             PRV_M i st' (4 * i + k)
             (Z.land (Z.shiftr value (k * 8)) 255)) st.
Proof.
  intros Hsz Hi Hpriv Hvis. induction n as [|n IH]; intros k0 st Hf Hk0 Hk.
  - reflexivity.
  - cbn [for_range].
    assert (Hst : clic_size st = num_sources st * 4 + CLIC_INTCTL_BASE
                  /\ num_sources st = num_sources s0).
    { destruct Hf as (_ & _ & H1 & H2 & _). split; congruence. }
    destruct Hst as [Hsz' Hns].
    rewrite write_quartet, quartet_in_range by lia.
    destruct (Z.gtb_spec PRV_M (priv env)); [lia|].
    rewrite (check_visible_M_footprint s0 st i Hf Hvis). cbn [bind].
    rewrite hart_write_1_eq.
    destruct (riscv_clic_hart_write _ _ _ env st (4 * i + k0) _ 1 PRV_M i)
      as [st1|] eqn:E; [|reflexivity].
    cbn [bind]. apply IH; [|lia|lia].
    eapply footprint_trans; [exact Hf|].
    eapply hart_write_footprint; exact E.
Qed.

Lemma for_range_ext {S} n k (f g : Z -> S -> option S) s :
  (forall j st, f j st = g j st) ->
  for_range n k f s = for_range n k g s.
Proof.
  intros H. revert k s. induction n as [|n IH]; intros k s; simpl; auto.
  rewrite H. destruct (g k s); simpl; auto.
Qed.

(** A write of [size] bytes to byte 0 of a quartet. *)
Lemma hart_write_multi env s i value size mode :
  i < num_sources s -> 1 < size ->
  riscv_clic_hart_write MODE_SHIFT LEVEL_SHIFT encode_irq env s (4 * i + 0)
    value size mode i =
  s1 <- riscv_clic_hart_write MODE_SHIFT LEVEL_SHIFT encode_irq env s
          (4 * i + 0) value 1 mode i ;;
  for_range (Z.to_nat (Z.min size 4 - 1)) 1
    (fun k st =>
       riscv_clic_hart_write_1 MODE_SHIFT LEVEL_SHIFT encode_irq env mode i
         st (4 * i + k) (Z.land (Z.shiftr value (k * 8)) 255))
    s1.
Proof.
  intros Hi Hs. unfold riscv_clic_hart_write, hart_write_body.
  destruct (quartet_addr i 0 ltac:(lia)) as [-> _].
  destruct (Z.geb_spec i (num_sources s)); [lia|].
  destruct (Z.gtb_spec size 1); [|lia]. cbn [Z.eqb bind].
  apply for_range_ext. intros k st. rewrite Z.add_0_r. reflexivity.
Qed.

Lemma multi_byte_write env s i size value :
  wf_clic s -> 0 <= i < num_sources s -> size = 2 \/ size = 4 ->
  PRV_M <= priv env ->
  riscv_clic_write MODE_SHIFT LEVEL_SHIFT encode_irq env PRV_M s
    (clicintip_addr i) value 1
  = riscv_clic_write MODE_SHIFT LEVEL_SHIFT encode_irq env PRV_M s
      (clicintip_addr i) (Z.land value 255) 1 ->
  riscv_clic_write MODE_SHIFT LEVEL_SHIFT encode_irq env PRV_M s
    (clicintip_addr i) value size
  = write_bytes MODE_SHIFT LEVEL_SHIFT encode_irq env PRV_M s
      (clicintip_addr i) value (Z.to_nat size).
Proof.
  intros (Hn & Hsz & _) Hi Hsize Hpriv. unfold write_bytes, clicintip_addr.
  assert (Hn' : exists n, Z.to_nat size = S n
                          /\ Z.to_nat (Z.min size 4 - 1) = n
                          /\ 1 + Z.of_nat n <= 4 /\ 1 < size).
  { destruct Hsize as [-> | ->]; eexists; repeat split;
      try reflexivity; simpl; lia. }
  destruct Hn' as (n & -> & Hw & Hle & Hgt). cbn [for_range].
  rewrite Z.shiftr_0_r, (Z.add_0_r (CLIC_INTCTL_BASE + 4 * i)).
  intros <-.
  replace (CLIC_INTCTL_BASE + 4 * i) with (CLIC_INTCTL_BASE + 4 * i + 0)
    at 1 2 by lia.
  rewrite !write_quartet, !quartet_in_range by lia.
  destruct (Z.gtb_spec PRV_M (priv env)); [lia|].
  destruct (check_visible_M s i) as [Hv|Hv]; rewrite Hv; [|reflexivity].
  cbn [bind]. rewrite hart_write_multi, Hw by lia.
  destruct (riscv_clic_hart_write _ _ _ env s (4 * i + 0) value 1 PRV_M i)
    as [s1|] eqn:E; [|reflexivity].
  cbn [bind]. change (0 + 1) with 1. symmetry.
  apply (byte_writes_loop env s i value n); auto; try lia.
  eapply hart_write_footprint; exact E.
Qed.

(** An access that does not start at byte 0 of a quartet never looks at
    its size. *)
Lemma offset_access_single env mode s i b size value :
  0 <= i -> 0 < b < 4 ->
  riscv_clic_read env mode s (CLIC_INTCTL_BASE + 4 * i + b) size
  = riscv_clic_read env mode s (CLIC_INTCTL_BASE + 4 * i + b) 1 /\
  riscv_clic_write MODE_SHIFT LEVEL_SHIFT encode_irq env mode s
    (CLIC_INTCTL_BASE + 4 * i + b) value size
  = riscv_clic_write MODE_SHIFT LEVEL_SHIFT encode_irq env mode s
      (CLIC_INTCTL_BASE + 4 * i + b) value 1.
Proof.
  intros Hi Hb. rewrite !read_quartet, !write_quartet by lia.
  unfold riscv_clic_hart_read, hart_read_body, riscv_clic_hart_write,
    hart_write_body.
  destruct (quartet_addr i b ltac:(lia)) as [-> _].
  destruct (Z.eqb_spec b 0); [lia|]. split; reflexivity.
Qed.

(** C8 (as amended).  For a per-interrupt access of 2 or 4 bytes that
    starts at byte 0 of the quartet of interrupt [i]: the read returns the
    concatenation of the single-byte reads of the bytes it covers; and,
    through the M view with the CPU in machine mode, the write performs
    the single-byte writes of the bytes it covers whenever the pending
    byte is settled alike by the whole value and by its low byte.  An
    access of any size that starts at byte 1, 2 or 3 reads or writes the
    addressed register only, as the access of size 1 with the same value
    does. *)
Theorem multi_byte_access env mode s i size value :
  0 <= i ->
  (wf_clic s -> i < num_sources s -> size = 2 \/ size = 4 ->
   0 <= zget (clicintie s) i < 256 -> 0 <= zget (clicintctl s) i < 256 ->
   riscv_clic_read env mode s (clicintip_addr i) size
     = read_bytes env mode s (clicintip_addr i) (Z.to_nat size) /\
   (PRV_M <= priv env ->
    riscv_clic_write MODE_SHIFT LEVEL_SHIFT encode_irq env PRV_M s
      (clicintip_addr i) value 1
    = riscv_clic_write MODE_SHIFT LEVEL_SHIFT encode_irq env PRV_M s
        (clicintip_addr i) (Z.land value 255) 1 ->
    riscv_clic_write MODE_SHIFT LEVEL_SHIFT encode_irq env PRV_M s
      (clicintip_addr i) value size
    = write_bytes MODE_SHIFT LEVEL_SHIFT encode_irq env PRV_M s
        (clicintip_addr i) value (Z.to_nat size))) /\
  (forall b,
      0 < b < 4 ->
      riscv_clic_read env mode s (clicintip_addr i + b) size
      = riscv_clic_read env mode s (clicintip_addr i + b) 1 /\
      riscv_clic_write MODE_SHIFT LEVEL_SHIFT encode_irq env mode s
        (clicintip_addr i + b) value size
      = riscv_clic_write MODE_SHIFT LEVEL_SHIFT encode_irq env mode s
          (clicintip_addr i + b) value 1).
Proof.
  intros Hi0. split.
  - intros Hwf Hi Hsize Hie Hctl. split.
    + apply multi_byte_read; [assumption|lia|assumption..].
    + intros Hpriv. apply multi_byte_write; [assumption|lia|assumption..].
  - intros b Hb. unfold clicintip_addr.
    apply offset_access_single; lia.
Qed.

(** *** The cause word *)

Lemma shiftl_land_low a m n :
  0 <= n <= m -> Z.land (Z.shiftl a m) (Z.ones n) = 0.
Proof.
  intros H. apply Z.bits_inj'. intros k Hk.
  rewrite Z.land_spec, Z.bits_0.
  destruct (Z.lt_ge_cases k n).
  - rewrite Z.shiftl_spec_low by lia. reflexivity.
  - rewrite Z.ones_spec_high by lia. apply andb_false_r.
Qed.

(** The interrupt number is the low [CLIC_IRQ_BITS] bits of the cause word
    when the mode and level fields lie above them. *)
Lemma clic_cause_irq_field i mode level :
  CLIC_IRQ_BITS <= MODE_SHIFT -> CLIC_IRQ_BITS <= LEVEL_SHIFT ->
  0 <= i <= CLIC_MAX_IRQ ->
  Z.land (clic_cause MODE_SHIFT LEVEL_SHIFT i mode level) CLIC_IRQ_MASK = i.
Proof.
  unfold clic_cause, uint32, CLIC_IRQ_MASK, CLIC_MAX_IRQ, CLIC_MAX_IRQ_COUNT,
    CLIC_IRQ_BITS.
  intros Hm Hl Hi. rewrite <- Z.land_assoc.
  change (Z.land 4294967295 (Z.shiftl 1 12 - 1)) with (Z.ones 12).
  rewrite !Z.land_lor_distr_l, !shiftl_land_low by lia.
  rewrite !Z.lor_0_r, Z.land_ones by lia.
  apply Z.mod_small. change (Z.shiftl 1 12 - 1) with 4095 in Hi.
  change (2 ^ 12) with 4096. lia.
Qed.

End Arbitration.




(** *** The arbitration scenario *)

(** C2 (as amended).  In the scenario ([mnlbits = 1], [ctl[25] = 0xBF],
    [ctl[26] = 0x3F], both attributes 0xC3, both interrupts enabled, CPU in
    machine mode with zero thresholds, outside qtest) every pending bit is
    arbitrated the moment it is set: the write of [ip[25]] delivers
    interrupt 25 and auto-clears it, the write of [ip[26]] delivers
    interrupt 26 and auto-clears it, and the pulse on input line 25
    delivers interrupt 25 once more.  At the end the CPU line has been
    raised three times (once by the pulse), the interrupt field of the
    cause word is 25, and [ip[25]] and [ip[26]] are both 0. *)
Theorem arbitration_scenario_outcome MODE_SHIFT LEVEL_SHIFT encode_irq :
  CLIC_IRQ_BITS <= MODE_SHIFT -> CLIC_IRQ_BITS <= LEVEL_SHIFT ->
  exists s0 s1 s2 s3,
    arbitration_configured MODE_SHIFT LEVEL_SHIFT encode_irq env_reset
      = Some s0 /\
    active_prefix s0 = [mkActive 0x3bf 25; mkActive 0x33f 26] /\
    cpu_irq s0 = [] /\
    byte_writes MODE_SHIFT LEVEL_SHIFT encode_irq env_reset PRV_M
      [(clicintip_addr 25, 1)] s0 = Some s1 /\
    cpu_irq s1 = [1] /\ zget (clicintip s1) 25 = 0 /\
    exccode s1 = clic_cause MODE_SHIFT LEVEL_SHIFT 25 3 255 /\
    arbitration_pending_set MODE_SHIFT LEVEL_SHIFT encode_irq env_reset
      = Some s2 /\
    cpu_irq s2 = [1; 1] /\ zget (clicintip s2) 26 = 0 /\
    exccode s2 = clic_cause MODE_SHIFT LEVEL_SHIFT 26 3 127 /\
    arbitration_scenario MODE_SHIFT LEVEL_SHIFT encode_irq env_reset
      = Some s3 /\
    cpu_irq s3 = [1; 1; 1] /\
    Z.land (exccode s3) CLIC_IRQ_MASK = 25 /\
    zget (clicintip s3) 25 = 0 /\ zget (clicintip s3) 26 = 0.
Proof.
  intros Hm Hl.
  do 4 eexists.
  split; [cbv -[clic_cause]; reflexivity|].
  split; [reflexivity|]. split; [reflexivity|].
  split; [cbv -[clic_cause]; reflexivity|].
  split; [reflexivity|]. split; [reflexivity|]. split; [reflexivity|].
  split; [cbv -[clic_cause]; reflexivity|].
  split; [reflexivity|]. split; [reflexivity|]. split; [reflexivity|].
  split; [cbv -[clic_cause]; reflexivity|].
  split; [reflexivity|].
  split; [|split; reflexivity].
  cbn [exccode]. apply clic_cause_irq_field; auto.
  unfold CLIC_MAX_IRQ, CLIC_MAX_IRQ_COUNT, CLIC_IRQ_BITS. simpl. lia.
Qed.

Lemma arbitration_scenario_outcome_witness :
  CLIC_IRQ_BITS <= 12 /\ CLIC_IRQ_BITS <= 14 /\
  exists s3,
    arbitration_scenario 12 14 (fun i _ => i) env_reset = Some s3 /\
    cpu_irq s3 = [1; 1; 1] /\ zget (clicintip s3) 26 = 0.
Proof.
  assert (Hm : CLIC_IRQ_BITS <= 12) by (unfold CLIC_IRQ_BITS; lia).
  assert (Hl : CLIC_IRQ_BITS <= 14) by (unfold CLIC_IRQ_BITS; lia).
  split; [exact Hm|]. split; [exact Hl|].
  destruct (arbitration_scenario_outcome 12 14 (fun i _ => i) Hm Hl)
    as (s0 & s1 & s2 & s3 & H).
  exists s3. repeat split; apply H.
Defined.

(** C2, counterexample.  The scenario does
    not end with a single assertion of the CPU line and [ip[26]] still
    set: the line has been raised three times and [ip[26]] is 0. *)
Lemma arbitration_scenario_not_single_delivery :
  ~ (exists s,
        arbitration_scenario 12 14 (fun i _ => i) env_reset = Some s /\
        List.length (cpu_irq s) = 1%nat /\
        Z.land (exccode s) CLIC_IRQ_MASK = 25 /\
        zget (clicintip s) 25 = 0 /\
        zget (clicintip s) 26 = 1).
Proof.
  intros (s & H & _ & _ & _ & H26).
  vm_compute in H. injection H as <-. vm_compute in H26. discriminate.
Qed.

(** *** The list of enabled interrupts *)

(** C5, the code at two failing inputs.  (1) With interrupts 1 and 2
    enabled through the M view, disabling interrupt 2 leaves the list
    holding the disabled interrupt 2 and missing the enabled interrupt 1:
    [memmove] is given a count of entries where it takes a count of bytes.
    (2) After enabling interrupt 1 and then writing [clicintctl[1] = 0x80]
    the list still holds the key built from the old control byte, and the
    next attempt to disable the interrupt fails the [assert] after
    [bsearch]. *)
Theorem active_list_out_of_step MODE_SHIFT LEVEL_SHIFT encode_irq :
  (exists s,
      byte_writes MODE_SHIFT LEVEL_SHIFT encode_irq env_reset PRV_M
        [(clicintie_addr 1, 1); (clicintie_addr 2, 1); (clicintie_addr 2, 0)]
        small_clic = Some s /\
      enabled_irqs s = [1] /\
      active_prefix s = [mkActive 0x300 2]) /\
  (exists s,
      byte_writes MODE_SHIFT LEVEL_SHIFT encode_irq env_reset PRV_M
        [(clicintie_addr 1, 1); (clicintctl_addr 1, 0x80)] small_clic
        = Some s /\
      enabled_irqs s = [1] /\
      zget (clicintctl s) 1 = 0x80 /\
      active_prefix s = [mkActive 0x300 1] /\
      riscv_clic_write MODE_SHIFT LEVEL_SHIFT encode_irq env_reset PRV_M s
        (clicintie_addr 1) 0 1 = None).
Proof.
  split; eexists.
  - split; [cbv -[clic_cause]; reflexivity|]. split; reflexivity.
  - split; [cbv -[clic_cause]; reflexivity|]. repeat split; reflexivity.
Qed.


(** The pending byte of a multi-byte write is settled by the whole value:
    a two-byte write of 0x0100 (pending 0, enable 1) to an edge-triggered
    interrupt sets its pending bit and delivers it, where the two byte
    writes leave it clear. *)
Lemma multi_byte_write_pending_byte :
  exists s s1 s2,
    byte_writes 12 14 (fun i _ => i) env_reset PRV_M
      [(clicintattr_addr 3, 0xc2)] small_clic = Some s /\
    riscv_clic_write 12 14 (fun i _ => i) env_reset PRV_M s
      (clicintip_addr 3) 0x0100 2 = Some s1 /\
    write_bytes 12 14 (fun i _ => i) env_reset PRV_M s
      (clicintip_addr 3) 0x0100 2 = Some s2 /\
    zget (clicintip s1) 3 = 1 /\ cpu_irq s1 = [1] /\
    zget (clicintip s2) 3 = 0 /\ cpu_irq s2 = [].
Proof.
  do 3 eexists. split; [reflexivity|]. split; [reflexivity|].
  split; [reflexivity|]. repeat split; reflexivity.
Qed.

(** *** Instances *)

Lemma virt_clic_wf : wf_clic virt_clic.
Proof. unfold wf_clic; simpl; repeat split; try lia; reflexivity. Defined.

Lemma small_clic_wf : wf_clic small_clic.
Proof. unfold wf_clic; simpl; repeat split; try lia; reflexivity. Defined.

Lemma clicintctl_write_then_read_witness :
  exists s',
    riscv_clic_write 12 14 (fun i _ => i) env_reset PRV_M virt_clic
      (clicintctl_addr 12) 0x21 1 = Some s' /\
    riscv_clic_read env_reset PRV_M s' (clicintctl_addr 12) 1 = Some 0x3F.
Proof.
  assert (Hi : 0 <= 12 < num_sources virt_clic) by (simpl; lia).
  assert (Hw : 0 <= 0x21 < 256) by lia.
  assert (Hg : PRV_M <= priv env_reset) by (simpl; lia).
  destruct (clicintctl_write_then_read 12 14 (fun i _ => i) env_reset PRV_M
              virt_clic 12 0x21 virt_clic_wf Hi Hw Hg eq_refl)
    as (s' & Hwr & _ & Hp).
  exists s'. split; [exact Hwr|]. apply Hp; reflexivity.
Defined.

Lemma level_triggered_intip_write_ignored_witness :
  riscv_clic_get_trigger_type small_clic 3 = POSITIVE_LEVEL /\
  riscv_clic_write 12 14 (fun i _ => i) env_reset PRV_M small_clic
    (clicintip_addr 3) 1 1 = Some small_clic.
Proof.
  split; [reflexivity|].
  assert (Hnm : nmbits_valid small_clic) by (unfold nmbits_valid; simpl; lia).
  assert (Hi : 0 <= 3) by lia.
  assert (Ha : clicintip_addr 3 < clic_size small_clic) by reflexivity.
  apply (level_triggered_intip_write_ignored 12 14 (fun i _ => i) env_reset
           PRV_M small_clic 3 1 Hnm Hi Ha).
  left; reflexivity.
Defined.

Lemma cliccfg_nmbits_write_witness :
  exists s',
    riscv_clic_write 12 14 (fun i _ => i) env_reset PRV_M small_clic 0 0x10 4
      = Some s' /\
    nmbits s' = nmbits small_clic.
Proof.
  assert (Hsz : 0 < clic_size small_clic) by reflexivity.
  destruct (cliccfg_nmbits_write 12 14 (fun i _ => i) env_reset PRV_M
              small_clic 0x10 4 Hsz) as (s' & Hw & Hout & _).
  exists s'. split; [exact Hw|]. apply Hout. reflexivity.
Defined.

Lemma multi_byte_access_witness :
  riscv_clic_read env_reset PRV_M small_clic (clicintip_addr 3) 4
  = read_bytes env_reset PRV_M small_clic (clicintip_addr 3) 4 /\
  riscv_clic_write 12 14 (fun i _ => i) env_reset PRV_M small_clic
    (clicintip_addr 3) 0x80030101 4
  = write_bytes 12 14 (fun i _ => i) env_reset PRV_M small_clic
      (clicintip_addr 3) 0x80030101 4.
Proof.
  assert (Hi : 0 <= 3 < num_sources small_clic) by (simpl; lia).
  assert (Hie : 0 <= zget (clicintie small_clic) 3 < 256)
    by (vm_compute; split; [discriminate|reflexivity]).
  assert (Hctl : 0 <= zget (clicintctl small_clic) 3 < 256)
    by (vm_compute; split; [discriminate|reflexivity]).
  assert (Hg : PRV_M <= priv env_reset) by (simpl; lia).
  assert (Hi0 : 0 <= 3) by lia.
  destruct (multi_byte_access 12 14 (fun i _ => i) env_reset PRV_M small_clic
              3 4 0x80030101 Hi0) as (Hbyte0 & _).
  destruct (Hbyte0 small_clic_wf (proj2 Hi) (or_intror eq_refl) Hie Hctl)
    as (Hr & Hw).
  split; [exact Hr|]. apply Hw; [exact Hg|reflexivity].
Defined.


(** C8, counterexample.  With [clicintctl[5] = 0xff], the aligned two-byte
    read at [clicintattr[5]] (byte 2 of the quartet) returns the attribute
    byte alone, while the two single-byte reads give the attribute byte
    and the control byte. *)
Lemma multi_byte_read_not_bytewise :
  clicintattr_addr 5 mod 2 = 0 /\
  riscv_clic_read env_reset PRV_M one_pending (clicintattr_addr 5) 2
  = Some 0xC0 /\
  read_bytes env_reset PRV_M one_pending (clicintattr_addr 5) 2
  = Some 0xFFC0.
Proof. repeat split; reflexivity. Qed.

End ClicProofs.

(** ** T-Head UART *)

Module UartProofs.
Import Uart.

(** C6, the code at the failing input.  With the FIFO enabled and the
    trigger level programmed to 4, the first byte delivered already raises
    the interrupt line and makes IIR read [INT_RX]; the programmed
    [rx_trigger] is stored but never consulted by [thead_uart_receive].
    After four bytes the line is up and IIR reads [INT_RX]; four reads of
    RBR empty the FIFO, clear [lsr.DR] and leave IIR at [INT_NONE]. *)
Theorem rx_interrupt_ignores_trigger_level :
  rx_trigger fifo_threshold_4 = 4 /\
  irq_level fifo_threshold_4 = 0 /\
  (let s1 := deliver_bytes fifo_threshold_4 [0x41] in
   irq_level s1 = 1 /\
   fst (thead_uart_read s1 8 4) = INT_RX) /\
  (let s3 := deliver_bytes fifo_threshold_4 [0x41; 0x42; 0x43] in
   irq_level s3 = 1 /\ rx_count s3 = 3) /\
  (let s4 := deliver_bytes fifo_threshold_4 [0x41; 0x42; 0x43; 0x44] in
   irq_level s4 = 1 /\
   fst (thead_uart_read s4 8 4) = INT_RX /\
   let s5 := pop_rbr (pop_rbr (pop_rbr (pop_rbr s4))) in
   rx_count s5 = 0 /\ Z.land (lsr s5) lsr_DR = 0 /\
   fst (thead_uart_read s5 8 4) = INT_NONE /\ irq_level s5 = 0).
Proof. vm_compute. repeat split; reflexivity. Qed.

End UartProofs.

(** ** T-Head timer *)

Module TimerProofs.
Import Timer.

Section Reload.

Variable ptimer_state : Type.
Variable ptimer_set_limit : ptimer_state -> Z -> Z -> ptimer_state.

(** C9.  [thead_timer_reload] is extensionally equal to the reload that
    takes [s->limit[index]] unconditionally; and whatever value, the
    [TIMER_CTRL_MODE] bit included, [control[index]] holds, the reload
    does the same to the timers and leaves that value in place. *)
Theorem thead_timer_reload_ignores_mode (s : thead_timer_state ptimer_state)
    (reload index c : Z) :
  thead_timer_reload ptimer_state ptimer_set_limit s reload index
  = thead_timer_reload_simplified ptimer_state ptimer_set_limit s reload index
  /\
  thead_timer_reload ptimer_state ptimer_set_limit
    (with_control ptimer_state s index c) reload index
  = with_control ptimer_state
      (thead_timer_reload ptimer_state ptimer_set_limit s reload index)
      index c
  /\
  thead_timer_reload ptimer_state ptimer_set_limit
    (with_control ptimer_state s index (Z.lxor c TIMER_CTRL_MODE))
    reload index
  = with_control ptimer_state
      (thead_timer_reload ptimer_state ptimer_set_limit
         (with_control ptimer_state s index c) reload index)
      index (Z.lxor c TIMER_CTRL_MODE).
Proof.
  assert (H1 : forall s0,
            thead_timer_reload ptimer_state ptimer_set_limit s0 reload index
            = thead_timer_reload_simplified ptimer_state ptimer_set_limit s0
                reload index).
  { intros s0. unfold thead_timer_reload, thead_timer_reload_simplified.
    destruct (negb _); reflexivity. }
  assert (H2 : forall s0 c0,
            thead_timer_reload_simplified ptimer_state ptimer_set_limit
              (with_control ptimer_state s0 index c0) reload index
            = with_control ptimer_state
                (thead_timer_reload_simplified ptimer_state ptimer_set_limit
                   s0 reload index) index c0).
  { intros s0 c0.
    unfold thead_timer_reload_simplified, with_control, set_timer. simpl.
    destruct (nth_error (timer ptimer_state s0) (Z.to_nat index));
      reflexivity. }
  split; [apply H1|]. split.
  - rewrite !H1. apply H2.
  - rewrite !H1, !H2. unfold with_control. simpl.
    f_equal. unfold zset. destruct (index <? 0); [reflexivity|].
    symmetry. apply set_nth_twice.
Qed.

End Reload.

End TimerProofs.

(** * Further properties of the devices *)

(** ** CLIC: keys, levels and the enabled list *)

Module ClicOrder.
Import Clic.

Lemma zrange_In n x : 0 <= x < Z.of_nat n -> In x (zrange n).
Proof.
  intros H. unfold zrange. apply in_map_iff. exists (Z.to_nat x).
  split; [lia|]. apply in_seq. lia.
Qed.

Lemma forallb_zrange (f : Z -> bool) n :
  forallb f (zrange n) = true ->
  forall x, 0 <= x < Z.of_nat n -> f x = true.
Proof.
  intros H x Hx. rewrite forallb_forall in H. apply H, zrange_In, Hx.
Qed.

Lemma land_ones_small x n : 0 <= n -> 0 <= x < 2 ^ n -> Z.land x (Z.ones n) = x.
Proof. intros Hn Hx. rewrite Z.land_ones by lia. apply Z.mod_small, Hx. Qed.

Lemma lor_shiftl_add a y n :
  0 <= n -> 0 <= y < 2 ^ n -> Z.lor (Z.shiftl a n) y = a * 2 ^ n + y.
Proof.
  intros Hn Hy.
  assert (H : Z.land (Z.shiftl a n) y = 0).
  { rewrite <- (land_ones_small y n Hn Hy), (Z.land_comm y), Z.land_assoc.
    rewrite ClicProofs.shiftl_land_low by lia. reflexivity. }
  rewrite <- (Z.lxor_lor _ _ H), <- (Z.add_nocarry_lxor _ _ H).
  rewrite Z.shiftl_mul_pow2 by lia. reflexivity.
Qed.

(** The compound key is the pair read as a number in base 4096. *)
Lemma encode_priority_sum a :
  entry_in_range a ->
  riscv_clic_encode_priority a = intcfg a * 4096 + irq a.
Proof.
  intros [Hc Hi]. unfold riscv_clic_encode_priority.
  change CLIC_INTCFG_MASK with (Z.ones 10) in *.
  change CLIC_IRQ_MASK with (Z.ones 12) in *.
  change (Z.ones 10) with 1023 in Hc. change (Z.ones 12) with 4095 in Hi.
  rewrite !land_ones_small by (try change (2 ^ 10) with 1024;
                               try change (2 ^ 12) with 4096; lia).
  unfold CLIC_IRQ_BITS. rewrite lor_shiftl_add by (change (2 ^ 12) with 4096; lia).
  reflexivity.
Qed.

(** X1.  [riscv_clic_active_compare] orders entries whose fields fit the
    key by [intcfg] first (mode above control byte) and by interrupt
    number second, highest first; two entries compare equal only when
    they are the same entry. *)
Theorem active_compare_lexicographic a b :
  entry_in_range a -> entry_in_range b ->
  (riscv_clic_active_compare a b < 0 <->
   intcfg b < intcfg a \/ (intcfg a = intcfg b /\ irq b < irq a)) /\
  (riscv_clic_active_compare a b = 0 <-> a = b).
Proof.
  intros Ha Hb. unfold riscv_clic_active_compare.
  rewrite (encode_priority_sum a Ha), (encode_priority_sum b Hb).
  destruct Ha as [Ha1 Ha2], Hb as [Hb1 Hb2].
  change CLIC_IRQ_MASK with 4095 in *. split.
  - lia.
  - split.
    + intros H. destruct a as [ca ia], b as [cb ib]; simpl in *.
      assert (ca = cb) by lia. assert (ia = ib) by lia. subst; reflexivity.
    + intros ->. lia.
Qed.

Lemma active_compare_lexicographic_witness :
  riscv_clic_active_compare (mkActive 0x3bf 25) (mkActive 0x33f 26) < 0.
Proof.
  apply (active_compare_lexicographic (mkActive 0x3bf 25) (mkActive 0x33f 26)).
  - unfold entry_in_range; simpl. split; split; vm_compute; discriminate.
  - unfold entry_in_range; simpl. split; split; vm_compute; discriminate.
  - left. simpl. lia.
Defined.

Lemma level_of_state s intctl :
  riscv_clic_get_interrupt_level s intctl
  = level_of (Z.min (mnlbits s) (clicintctlbits s)) intctl.
Proof. reflexivity. Qed.

Lemma level_of_formula nl ctl :
  0 <= nl <= 8 -> 0 <= ctl < 256 ->
  level_of nl ctl = 2 ^ (8 - nl) * (ctl / 2 ^ (8 - nl)) + 2 ^ (8 - nl) - 1.
Proof.
  intros Hn Hc.
  assert (H : forallb (fun n =>
                forallb (fun c =>
                  level_of n c
                  =? 2 ^ (8 - n) * (c / 2 ^ (8 - n)) + 2 ^ (8 - n) - 1)
                  (zrange 256)) (zrange 9) = true) by (vm_compute; reflexivity).
  pose proof (forallb_zrange _ _ H nl ltac:(simpl; lia)) as H1.
  cbv beta in H1.
  pose proof (forallb_zrange _ _ H1 ctl ltac:(simpl; lia)) as H2.
  apply Z.eqb_eq, H2.
Qed.

(** X2.  With [nlbits = min(mnlbits, clicintctlbits)] level bits, the level
    of a control byte keeps the top [nlbits] bits of the byte and has all
    the bits below them set: it lies between the byte and 255, and it does
    not decrease when the control byte grows. *)
Theorem interrupt_level_shape s ctl ctl' :
  0 <= mnlbits s -> 0 <= clicintctlbits s <= 8 ->
  0 <= ctl < 256 -> 0 <= ctl' < 256 ->
  let k := 8 - Z.min (mnlbits s) (clicintctlbits s) in
  let level := riscv_clic_get_interrupt_level s ctl in
  ctl <= level <= 255 /\
  level / 2 ^ k = ctl / 2 ^ k /\
  level mod 2 ^ k = 2 ^ k - 1 /\
  (ctl <= ctl' -> level <= riscv_clic_get_interrupt_level s ctl').
Proof.
  intros Hm Hb Hc Hc' k level. subst level.
  rewrite !level_of_state, !level_of_formula by lia. fold k.
  assert (Hk : 0 <= k <= 8) by (subst k; lia).
  assert (Hp : 0 < 2 ^ k) by (apply Z.pow_pos_nonneg; lia).
  assert (Hp8 : 2 ^ k <= 2 ^ 8) by (apply Z.pow_le_mono_r; lia).
  change (2 ^ 8) with 256 in Hp8.
  pose proof (Z.div_mod ctl (2 ^ k) ltac:(lia)) as Hd.
  pose proof (Z.mod_pos_bound ctl (2 ^ k) Hp) as Hr.
  assert (Hq : ctl / 2 ^ k * 2 ^ k < 256 -> True) by auto.
  assert (Hdiv : (2 ^ k * (ctl / 2 ^ k) + 2 ^ k - 1) / 2 ^ k = ctl / 2 ^ k).
  { replace (2 ^ k * (ctl / 2 ^ k) + 2 ^ k - 1)
      with ((2 ^ k - 1) + (ctl / 2 ^ k) * 2 ^ k) by lia.
    rewrite Z.div_add by lia. rewrite Z.div_small by lia. lia. }
  assert (Hmod : (2 ^ k * (ctl / 2 ^ k) + 2 ^ k - 1) mod 2 ^ k = 2 ^ k - 1).
  { replace (2 ^ k * (ctl / 2 ^ k) + 2 ^ k - 1)
      with ((2 ^ k - 1) + (ctl / 2 ^ k) * 2 ^ k) by lia.
    rewrite Z.mod_add by lia. apply Z.mod_small. lia. }
  assert (Hup : 2 ^ k * (ctl / 2 ^ k) + 2 ^ k - 1 <= 255).
  { assert (ctl / 2 ^ k <= 256 / 2 ^ k - 1 -> True) by auto.
    assert (Hx : ctl / 2 ^ k * 2 ^ k <= ctl) by lia.
    assert (Hy : (256 / 2 ^ k) * 2 ^ k = 256).
    { replace 256 with (2 ^ 8) by reflexivity.
      rewrite <- Z.pow_sub_r by lia. rewrite <- Z.pow_add_r by lia.
      f_equal. lia. }
    assert (ctl / 2 ^ k < 256 / 2 ^ k) by (apply Z.div_lt_upper_bound; lia).
    nia. }
  repeat split; try lia.
  intros Hle.
  pose proof (Z.div_le_mono ctl ctl' (2 ^ k) Hp Hle). nia.
Qed.

Lemma interrupt_level_shape_witness :
  0xBF <= riscv_clic_get_interrupt_level
            (set_cliccfg virt_clic 0 1 0 0) 0xBF <= 255.
Proof.
  apply (interrupt_level_shape (set_cliccfg virt_clic 0 1 0 0) 0xBF 0xBF);
    simpl; lia.
Defined.


(** *** The interrupt delivered is the highest one pending *)

Lemma sorted_desc_app_tail pre a post :
  sorted_desc (pre ++ a :: post) ->
  Forall (fun e => riscv_clic_encode_priority e
                   <= riscv_clic_encode_priority a) post.
Proof.
  induction pre as [|b pre IH]; simpl; intros H.
  - apply H.
  - apply IH, H.
Qed.

Lemma level_of_mono nl c c' :
  0 <= nl <= 8 -> 0 <= c < 256 -> 0 <= c' < 256 -> c <= c' ->
  level_of nl c <= level_of nl c'.
Proof.
  intros Hn Hc Hc' Hle. rewrite !level_of_formula by lia.
  assert (Hp : 0 < 2 ^ (8 - nl)) by (apply Z.pow_pos_nonneg; lia).
  pose proof (Z.div_le_mono c c' _ Hp Hle). nia.
Qed.

(** The mode and control byte of an entry whose [intcfg] fits the key. *)
Lemma entry_mode_ctl a :
  0 <= intcfg a <= CLIC_INTCFG_MASK ->
  entry_mode a = intcfg a / 256 /\ Z.land (intcfg a) 255 = intcfg a mod 256
  /\ 0 <= intcfg a / 256 <= 3.
Proof.
  change CLIC_INTCFG_MASK with 1023. intros H. unfold entry_mode.
  rewrite Z.shiftr_div_pow2 by lia. change (2 ^ 8) with 256.
  assert (0 <= intcfg a / 256 <= 3).
  { split; [apply Z.div_pos; lia|].
    assert (intcfg a / 256 < 4) by (apply Z.div_lt_upper_bound; lia). lia. }
  split; [apply ClicProofs.uint8_byte; lia|].
  split; [|assumption].
  change 255 with (Z.ones 8). rewrite Z.land_ones by lia. reflexivity.
Qed.

Section Delivery.

Variables MODE_SHIFT LEVEL_SHIFT : Z.
Variable encode_irq : Z -> Z -> Z.

(** X3.  When the enabled list is in descending key order and its entries
    fit the key, the scan delivers the first entry that is pending and
    passes the break test, and no other: it adds one event to the CPU
    line, a raise (under qtest the qtest encoding of that entry's
    interrupt number), and outside qtest publishes the cause word built
    from that entry's interrupt number, mode and level.  The mode and
    level delivered dominate every pending entry of the list: no pending
    entry has a higher mode, and none of the same mode has a higher
    level. *)
Theorem delivered_dominates_pending env s pre a post :
  0 <= mnlbits s -> 0 <= clicintctlbits s <= 8 ->
  sorted_desc (active_prefix s) ->
  Forall entry_in_range (active_prefix s) ->
  active_prefix s = pre ++ a :: post ->
  Forall (passed_over env s) pre ->
  scan_break env s a = false ->
  zget (clicintip s) (irq a) <> 0 ->
  let s' := riscv_clic_next_interrupt MODE_SHIFT LEVEL_SHIFT encode_irq
              env s in
  let mode := entry_mode a in
  let level := entry_level s a in
  cpu_irq s' = (if qtest_enabled env then encode_irq (irq a) 1 else 1)
               :: cpu_irq s /\
  (qtest_enabled env = false ->
   exccode s' = clic_cause MODE_SHIFT LEVEL_SHIFT (irq a) mode level) /\
  clicintip s' = auto_cleared s (irq a) /\
  forall e,
    In e (active_prefix s) -> zget (clicintip s) (irq e) <> 0 ->
    entry_mode e < mode
    \/ (entry_mode e = mode /\ entry_level s e <= level).
Proof.
  intros Hm Hb Hs Hr Hl Hpre Hbr Hip. cbv zeta.
  assert (Hscan : riscv_clic_next_interrupt MODE_SHIFT LEVEL_SHIFT encode_irq
                    env s
                  = deliver MODE_SHIFT LEVEL_SHIFT encode_irq env s a).
  { unfold riscv_clic_next_interrupt. rewrite Hl.
    rewrite ClicProofs.scan_skips_passed_over by exact Hpre.
    simpl. rewrite Hbr.
    destruct (Z.eqb_spec (zget (clicintip s) (irq a)) 0); [contradiction|].
    reflexivity. }
  rewrite Hscan.
  destruct (ClicProofs.deliver_fields MODE_SHIFT LEVEL_SHIFT encode_irq
              env s a) as (Hpend & Hline & Hcause).
  split; [exact Hline|]. split.
  { intros Hq. rewrite Hcause, Hq. reflexivity. }
  split; [exact Hpend|].
  - intros e He Hpe. rewrite Hl in *.
    assert (Hra : entry_in_range a).
    { rewrite Forall_forall in Hr. apply Hr, in_or_app. right; left; auto. }
    assert (Hre : entry_in_range e) by (rewrite Forall_forall in Hr; auto).
    apply in_app_or in He. destruct He as [He|[He|He]].
    + rewrite Forall_forall in Hpre. destruct (Hpre e He) as [_ H0].
      contradiction.
    + subst e. right. split; [reflexivity|lia].
    + pose proof (sorted_desc_app_tail _ _ _ Hs) as Ht.
      rewrite Forall_forall in Ht. specialize (Ht e He).
      rewrite (encode_priority_sum e Hre), (encode_priority_sum a Hra) in Ht.
      destruct Hra as [Ha1 Ha2], Hre as [He1 He2].
      change CLIC_IRQ_MASK with 4095 in *.
      assert (Hcfg : intcfg e <= intcfg a) by lia.
      destruct (entry_mode_ctl a Ha1) as (Hma & Hca & Hba).
      destruct (entry_mode_ctl e He1) as (Hme & Hce & Hbe).
      rewrite Hma, Hme.
      pose proof (Z.div_le_mono _ _ 256 ltac:(lia) Hcfg) as Hdiv.
      destruct (Z.eq_dec (intcfg e / 256) (intcfg a / 256)) as [Heq|Hne];
        [right; split; [exact Heq|] | left; lia].
      unfold entry_level. rewrite !level_of_state, Hca, Hce.
      pose proof (Z.div_mod (intcfg a) 256 ltac:(lia)).
      pose proof (Z.div_mod (intcfg e) 256 ltac:(lia)).
      pose proof (Z.mod_pos_bound (intcfg a) 256 ltac:(lia)).
      pose proof (Z.mod_pos_bound (intcfg e) 256 ltac:(lia)).
      apply level_of_mono; lia.
Qed.

End Delivery.

Lemma delivered_dominates_pending_witness :
  cpu_irq (riscv_clic_next_interrupt 12 14 (fun i _ => i) env_reset
             one_pending) = 1 :: cpu_irq one_pending /\
  exccode (riscv_clic_next_interrupt 12 14 (fun i _ => i) env_reset
             one_pending) = clic_cause 12 14 5 3 255.
Proof.
  assert (H1 : 0 <= mnlbits one_pending) by (vm_compute; discriminate).
  assert (H2 : 0 <= clicintctlbits one_pending <= 8)
    by (vm_compute; split; discriminate).
  assert (H3 : sorted_desc (active_prefix one_pending))
    by (simpl; auto).
  assert (H4 : Forall entry_in_range (active_prefix one_pending)).
  { repeat constructor; vm_compute; discriminate. }
  assert (H5 : zget (clicintip one_pending) (irq (mkActive 0x3ff 5)) <> 0)
    by (vm_compute; discriminate).
  destruct (delivered_dominates_pending 12 14 (fun i _ => i) env_reset
              one_pending [] (mkActive 0x3ff 5) [] H1 H2 H3 H4 eq_refl
              (Forall_nil _) eq_refl H5) as (Hline & Hcause & _).
  split; [exact Hline|]. apply Hcause. reflexivity.
Defined.


(** *** Searching and growing the enabled list *)

Lemma sorted_desc_nth L d :
  sorted_desc L ->
  forall i j, (i <= j < List.length L)%nat ->
    riscv_clic_encode_priority (nth j L d)
    <= riscv_clic_encode_priority (nth i L d).
Proof.
  induction L as [|a L IH]; simpl; intros Hs i j Hij; [lia|].
  destruct Hs as [Ha Hs]. destruct i as [|i], j as [|j]; try lia.
  - rewrite Forall_forall in Ha. apply Ha, nth_In. lia.
  - apply IH; [exact Hs|lia].
Qed.

Lemma nth_firstn_lt {A} (l : list A) n j d :
  (j < n)%nat -> nth j (firstn n l) d = nth j l d.
Proof.
  revert n j. induction l as [|a l IH]; intros [|n] [|j] H; simpl;
    try reflexivity; try lia.
  apply IH. lia.
Qed.

Lemma bsearch_loop_sound key arr f :
  forall l u idx,
    bsearch_loop f key arr l u = Some idx ->
    l <= idx < u /\
    riscv_clic_active_compare key (nth (Z.to_nat idx) arr (mkActive 0 0)) = 0.
Proof.
  induction f as [|f IH]; simpl; intros l u idx H; [discriminate|].
  destruct (Z.ltb_spec l u) as [Hlu|Hlu]; [|discriminate].
  pose proof (Z.div_mod (l + u) 2 ltac:(lia)) as Hd.
  pose proof (Z.mod_pos_bound (l + u) 2 ltac:(lia)) as Hm.
  destruct (Z.ltb_spec (riscv_clic_active_compare key
              (nth (Z.to_nat ((l + u) / 2)) arr (mkActive 0 0))) 0).
  - apply IH in H. split; [lia|apply H].
  - destruct (Z.gtb_spec (riscv_clic_active_compare key
                (nth (Z.to_nat ((l + u) / 2)) arr (mkActive 0 0))) 0).
    + apply IH in H. split; [lia|apply H].
    + injection H as <-. split; lia.
Qed.

Lemma bsearch_loop_complete key arr f :
  forall l u,
    0 <= l -> u - l < Z.of_nat f ->
    (forall i j, l <= i /\ i <= j /\ j < u ->
       riscv_clic_encode_priority (nth (Z.to_nat j) arr (mkActive 0 0))
       <= riscv_clic_encode_priority (nth (Z.to_nat i) arr (mkActive 0 0))) ->
    (exists j, l <= j < u /\
       riscv_clic_encode_priority (nth (Z.to_nat j) arr (mkActive 0 0))
       = riscv_clic_encode_priority key) ->
    bsearch_loop f key arr l u <> None.
Proof.
  induction f as [|f IH]; intros l u Hl Hf Hs (j & Hj & Hk); [lia|].
  simpl. destruct (Z.ltb_spec l u) as [Hlu|Hlu]; [|lia].
  pose proof (Z.div_mod (l + u) 2 ltac:(lia)) as Hd.
  pose proof (Z.mod_pos_bound (l + u) 2 ltac:(lia)) as Hm.
  set (idx := (l + u) / 2) in *. unfold riscv_clic_active_compare at 1 2.
  destruct (Z.ltb_spec (riscv_clic_encode_priority
                          (nth (Z.to_nat idx) arr (mkActive 0 0))
                        - riscv_clic_encode_priority key) 0) as [Hc|Hc].
  - apply IH; try lia.
    + intros a b Hab. apply Hs. lia.
    + exists j. split; [|exact Hk].
      destruct (Z.lt_ge_cases j idx); [lia|].
      pose proof (Hs idx j ltac:(lia)). lia.
  - destruct (Z.gtb_spec (riscv_clic_encode_priority
                            (nth (Z.to_nat idx) arr (mkActive 0 0))
                          - riscv_clic_encode_priority key) 0) as [Hg|Hg];
      [|discriminate].
    apply IH; try lia.
    + intros a b Hab. apply Hs. lia.
    + exists j. split; [|exact Hk].
      destruct (Z.lt_ge_cases idx j); [lia|].
      pose proof (Hs j idx ltac:(lia)). lia.
Qed.

Lemma insert_active_perm a l : Permutation (insert_active a l) (a :: l).
Proof.
  induction l as [|b t IH]; simpl; [reflexivity|].
  destruct (_ <=? 0); [reflexivity|].
  rewrite IH. apply perm_swap.
Qed.

Lemma qsort_active_perm l : Permutation (qsort_active l) l.
Proof.
  induction l as [|a l IH]; simpl; [reflexivity|].
  rewrite insert_active_perm. constructor. exact IH.
Qed.

Lemma firstn_set_nth_end {A} (l : list A) n v :
  (n < List.length l)%nat ->
  firstn (S n) (set_nth n l v) = firstn n l ++ [v].
Proof.
  revert n. induction l as [|a l IH]; intros [|n] H; simpl in *; try lia.
  - reflexivity.
  - f_equal. apply IH. lia.
Qed.

Section EnabledList.

Variables MODE_SHIFT LEVEL_SHIFT : Z.
Variable encode_irq : Z -> Z -> Z.

(** X4.  On a list in descending key order, disabling an enabled interrupt
    ends the process (the [assert] after [bsearch] fails) exactly when no
    entry of the list carries the key built from the view mode, the
    current control byte and the interrupt number. *)
Theorem disable_aborts_iff_key_absent env s mode i :
  sorted_desc (active_prefix s) ->
  0 <= active_count s <= Z.of_nat (List.length (active_list s)) ->
  zget (clicintie s) i <> 0 ->
  let key := mkActive (uint16 (Z.lor (Z.shiftl mode 8) (zget (clicintctl s) i)))
                      (uint16 i) in
  riscv_clic_update_intie MODE_SHIFT LEVEL_SHIFT encode_irq env s mode i 0
    = None
  <-> ~ (exists e, In e (active_prefix s) /\
                   riscv_clic_encode_priority e
                   = riscv_clic_encode_priority key).
Proof.
  intros Hs Hn Hie key. unfold riscv_clic_update_intie.
  change (negb (0 =? 0)) with false. cbn [andb].
  change (0 =? 0) with true.
  destruct (Z.eqb_spec (zget (clicintie s) i) 0); [contradiction|].
  cbn [andb negb]. simpl active_list. simpl active_count. simpl clicintctl.
  fold key. unfold bsearch_active.
  destruct (bsearch_loop _ key (active_list s) 0 (active_count s))
    as [idx|] eqn:E.
  - split; [discriminate|]. intros Hno. exfalso. apply Hno.
    apply bsearch_loop_sound in E. destruct E as [Hidx Hc].
    exists (nth (Z.to_nat idx) (active_list s) (mkActive 0 0)). split.
    + unfold active_prefix.
      rewrite <- (nth_firstn_lt _ (Z.to_nat (active_count s))) by lia.
      apply nth_In. rewrite length_firstn. lia.
    + unfold riscv_clic_active_compare in Hc. lia.
  - split; [|reflexivity]. intros _ (e & He & Hk).
    revert E. apply bsearch_loop_complete; try lia.
    + intros a b Hab.
      rewrite <- (nth_firstn_lt (active_list s) (Z.to_nat (active_count s))
                    (Z.to_nat b)) by lia.
      rewrite <- (nth_firstn_lt (active_list s) (Z.to_nat (active_count s))
                    (Z.to_nat a)) by lia.
      apply sorted_desc_nth; [exact Hs|].
      unfold active_prefix. rewrite length_firstn. lia.
    + unfold active_prefix in He.
      destruct (In_nth _ _ (mkActive 0 0) He) as (j & Hj & Hnth).
      rewrite length_firstn in Hj.
      exists (Z.of_nat j). split; [lia|].
      rewrite Nat2Z.id. rewrite nth_firstn_lt in Hnth by lia.
      rewrite Hnth. exact Hk.
Qed.

(** X5.  Enabling a disabled interrupt while the array has room completes,
    adds one entry, built from the view mode, the current control byte and
    the interrupt number, to the entries already listed, and leaves the
    list in descending key order. *)
Theorem enable_inserts_entry env s mode i v :
  zget (clicintie s) i = 0 -> v <> 0 ->
  0 <= active_count s < Z.of_nat (List.length (active_list s)) ->
  exists s',
    riscv_clic_update_intie MODE_SHIFT LEVEL_SHIFT encode_irq env s mode i v
      = Some s' /\
    active_count s' = active_count s + 1 /\
    Permutation (active_prefix s')
      (mkActive (uint16 (Z.lor (Z.shiftl mode 8) (zget (clicintctl s) i)))
                (uint16 i) :: active_prefix s) /\
    sorted_desc (active_prefix s').
Proof.
  intros Hie Hv Hn. unfold riscv_clic_update_intie.
  rewrite Hie. destruct (Z.eqb_spec v 0); [contradiction|].
  cbn [negb andb Z.eqb bind]. eexists. split; [reflexivity|].
  match goal with
  | |- context [riscv_clic_next_interrupt _ _ _ env ?s0] =>
      pose proof (ClicProofs.next_interrupt_same_config MODE_SHIFT
                    LEVEL_SHIFT encode_irq env s0) as Hc;
      set (s2 := s0) in *
  end.
  unfold same_config in Hc.
  repeat match goal with H : _ /\ _ |- _ => destruct H end.
  assert (Hp : active_prefix
                 (riscv_clic_next_interrupt MODE_SHIFT LEVEL_SHIFT encode_irq
                    env s2) = active_prefix s2).
  { unfold active_prefix. congruence. }
  rewrite Hp. subst s2. rewrite ClicProofs.sort_active_list_prefix.
  split; [match goal with Hx : active_count _ = _ |- _ => rewrite Hx end;
          reflexivity|].
  split; [|apply ClicProofs.qsort_active_sorted].
  rewrite qsort_active_perm. unfold active_prefix. simpl.
  replace (Z.to_nat (active_count s + 1)) with (S (Z.to_nat (active_count s)))
    by lia.
  rewrite firstn_set_nth_end by lia.
  rewrite Permutation_app_comm. reflexivity.
Qed.

End EnabledList.

Lemma disable_aborts_iff_key_absent_witness :
  exists s,
    byte_writes 12 14 (fun i _ => i) env_reset PRV_M
      [(clicintie_addr 1, 1); (clicintctl_addr 1, 0x80)] small_clic = Some s /\
    riscv_clic_update_intie 12 14 (fun i _ => i) env_reset s PRV_M 1 0 = None.
Proof.
  eexists. split; [reflexivity|].
  match goal with
  | |- riscv_clic_update_intie _ _ _ _ ?s0 _ _ _ = _ => set (s := s0)
  end.
  assert (H1 : sorted_desc (active_prefix s)) by (simpl; auto).
  assert (H2 : 0 <= active_count s <= Z.of_nat (List.length (active_list s)))
    by (vm_compute; split; discriminate).
  assert (H3 : zget (clicintie s) 1 <> 0) by (vm_compute; discriminate).
  apply (disable_aborts_iff_key_absent 12 14 (fun i _ => i) env_reset s
           PRV_M 1 H1 H2 H3).
  intros (e & [He|[]] & Hk). subst e. vm_compute in Hk. discriminate.
Defined.

Lemma enable_inserts_entry_witness :
  exists s',
    riscv_clic_update_intie 12 14 (fun i _ => i) env_reset small_clic
      PRV_M 3 1 = Some s' /\
    active_count s' = 1.
Proof.
  assert (H1 : zget (clicintie small_clic) 3 = 0) by reflexivity.
  assert (H2 : 1 <> 0) by discriminate.
  assert (H3 : 0 <= active_count small_clic
               < Z.of_nat (List.length (active_list small_clic)))
    by (vm_compute; split; [discriminate|reflexivity]).
  destruct (enable_inserts_entry 12 14 (fun i _ => i) env_reset small_clic
              PRV_M 3 1 H1 H2 H3) as (s' & Hu & Hc & _).
  exists s'. split; [exact Hu|exact Hc].
Defined.

End ClicOrder.

(** ** CLIC: views and registers *)

Module ClicViews.
Import Clic.

Lemma byte_mode_field y :
  0 <= y < 256 ->
  get_field y CLIC_INTATTR_MODE
  = extract64 y CLIC_INTATTR_MODE_SHIFT CLIC_INTATTR_MODE_WIDTH.
Proof.
  intros Hy.
  assert (H : forallb (fun b =>
                get_field b CLIC_INTATTR_MODE
                =? extract64 b CLIC_INTATTR_MODE_SHIFT CLIC_INTATTR_MODE_WIDTH)
                (zrange 256) = true) by (vm_compute; reflexivity).
  apply Z.eqb_eq. exact (ClicOrder.forallb_zrange _ _ H y ltac:(simpl; lia)).
Qed.

Lemma uint8_range x : 0 <= uint8 x < 256.
Proof.
  pose proof (ClicProofs.land_le_r x 255 ltac:(lia)). unfold uint8. lia.
Qed.

Section Views.

Variables MODE_SHIFT LEVEL_SHIFT : Z.
Variable encode_irq : Z -> Z -> Z.

(** X6.  An interrupt whose attribute mode is M is out of reach of the S
    and U views: every access of any size to its quartet through either
    view reads 0, and every write leaves the CLIC state as it was. *)
Theorem machine_interrupt_hidden_from_lower_views env mode s i b value size :
  nmbits_valid s -> mode = PRV_U \/ mode = PRV_S ->
  get_field (zget (clicintattr s) i) CLIC_INTATTR_MODE = PRV_M ->
  0 <= i -> 0 <= b < 4 ->
  CLIC_INTCTL_BASE + 4 * i + b < clic_size s ->
  riscv_clic_read env mode s (CLIC_INTCTL_BASE + 4 * i + b) size = Some 0 /\
  riscv_clic_write MODE_SHIFT LEVEL_SHIFT encode_irq env mode s
    (CLIC_INTCTL_BASE + 4 * i + b) value size = Some s.
Proof.
  intros [Hn0 Hn1] Hmode Hattr Hi Hb Ha.
  rewrite ClicProofs.read_quartet, ClicProofs.write_quartet by lia.
  destruct (Z.ltb_spec (CLIC_INTCTL_BASE + 4 * i + b) (clic_size s)); [|lia].
  cbn [negb].
  destruct (mode >? priv env); [split; reflexivity|].
  assert (Hv : riscv_clic_check_visible s mode i = Some false).
  { unfold riscv_clic_check_visible. rewrite Hattr.
    destruct (prv_s s), (prv_u s); cbn [andb orb negb] in *;
      destruct Hmode as [-> | ->];
      repeat match goal with
             | |- context [nmbits s =? ?c] =>
                 destruct (Z.eqb_spec (nmbits s) c)
             end; try reflexivity; lia. }
  rewrite Hv. split; reflexivity.
Qed.

(** X7.  Outside qtest, a byte write to [clicintattr[i]] never leaves the
    interrupt with a mode above the privilege the CPU is running at:
    either the attribute byte is as it was, or its mode field is at most
    [priv]. *)
Theorem intattr_mode_at_most_priv env mode s i v s' :
  wf_clic s -> 0 <= i -> qtest_enabled env = false ->
  riscv_clic_write MODE_SHIFT LEVEL_SHIFT encode_irq env mode s
    (clicintattr_addr i) v 1 = Some s' ->
  zget (clicintattr s') i = zget (clicintattr s) i
  \/ get_field (zget (clicintattr s') i) CLIC_INTATTR_MODE <= priv env.
Proof.
  intros (Hn & Hsz & _ & _ & _ & Hlen & _) Hi Hq. unfold clicintattr_addr.
  rewrite ClicProofs.write_quartet by lia.
  destruct (negb _); [discriminate|].
  destruct (mode >? priv env); [intros E; injection E as <-; auto|].
  destruct (riscv_clic_check_visible s mode i) as [[|]|]; cbn [bind];
    [|intros E; injection E as <-; auto|discriminate].
  unfold riscv_clic_hart_write, hart_write_body.
  destruct (ClicProofs.quartet_addr i 2 ltac:(lia)) as [-> _].
  destruct (Z.geb_spec i (num_sources s));
    [intros E; injection E as <-; auto|].
  cbn [Z.eqb Pos.eqb].
  destruct (riscv_clic_effective_mode s (uint8 v)) as [fm|]; [|discriminate].
  cbn [bind]. unfold riscv_clic_validate_intattr. rewrite Hq. cbn [negb].
  match goal with
  | |- context [priv env <? ?m] => destruct (Z.ltb_spec (priv env) m) as [Hp|Hp]
  end; [intros E; injection E as <-; auto|].
  destruct (negb _); [|intros E; injection E as <-; auto].
  intros E; injection E as <-. right.
  match goal with
  | |- context [riscv_clic_next_interrupt _ _ _ env ?s0] =>
      pose proof (ClicProofs.next_interrupt_same_config MODE_SHIFT
                    LEVEL_SHIFT encode_irq env s0) as Hc
  end.
  unfold same_config in Hc.
  repeat match goal with H : _ /\ _ |- _ => destruct H end.
  match goal with Hx : clicintattr _ = _ |- _ => rewrite Hx end.
  simpl clicintattr. rewrite zget_zset_same by (rewrite Hlen; lia).
  rewrite byte_mode_field by apply uint8_range. exact Hp.
Qed.

(** X8.  A write to [clicinttrig[k]] through a view the CPU may use
    completes; when the interrupt number it carries is at most
    [num_sources] a read of the register returns the written value under
    the register mask (both enables and the 13-bit interrupt number), and
    otherwise the write changes nothing. *)
Theorem clicinttrig_write_then_read env mode s k value size :
  List.length (clicinttrig s) = 32%nat -> 0 <= k < 32 ->
  0x40 + 4 * k < clic_size s -> mode <= priv env ->
  exists s',
    riscv_clic_write MODE_SHIFT LEVEL_SHIFT encode_irq env mode s
      (0x40 + 4 * k) value size = Some s' /\
    (Z.land value CLIC_INTTRIG_IRQN <= num_sources s ->
     riscv_clic_read env mode s' (0x40 + 4 * k) size
     = Some (Z.land value CLIC_INTTRIG_MASK)) /\
    (num_sources s < Z.land value CLIC_INTTRIG_IRQN -> s' = s).
Proof.
  intros Hlen Hk Ha Hp.
  assert (Hdec : forall st,
            clic_size st = clic_size s ->
            (negb (0x40 + 4 * k <? clic_size st) = false) /\
            (0x40 + 4 * k <? CLIC_INTCTL_BASE) = true /\
            negb ((0x40 + 4 * k) mod 4 =? 0) = false /\
            (0x40 + 4 * k) / 4 = CLIC_INTTRIG_START + k).
  { intros st ->. unfold CLIC_INTCTL_BASE, CLIC_INTTRIG_START.
    replace (0x40 + 4 * k) with ((16 + k) * 4) by lia.
    rewrite Z.mod_mul, Z.div_mul by lia.
    destruct (Z.ltb_spec ((16 + k) * 4) (clic_size s)); [|lia].
    destruct (Z.ltb_spec ((16 + k) * 4) 4096); [|lia].
    repeat split; reflexivity. }
  assert (Hidx : (CLIC_INTTRIG_START + k =? 0) = false
                 /\ (CLIC_INTTRIG_START <=? CLIC_INTTRIG_START + k)
                    && (CLIC_INTTRIG_START + k <=? CLIC_INTTRIG_END) = true
                 /\ CLIC_INTTRIG_START + k - CLIC_INTTRIG_START = k).
  { unfold CLIC_INTTRIG_END, CLIC_INTTRIG_START, CLIC_INTTRIG_REGS.
    destruct (Z.eqb_spec (16 + k) 0); [lia|].
    destruct (Z.leb_spec 16 (16 + k)); [|lia].
    destruct (Z.leb_spec (16 + k) (16 + 32 - 1)); [|lia].
    repeat split; lia. }
  destruct Hidx as (Hi0 & Hi1 & Hi2).
  destruct (Z.gtb_spec mode (priv env)) as [Hg|Hg]; [lia|].
  unfold riscv_clic_write.
  destruct (Hdec s eq_refl) as (-> & -> & -> & ->).
  destruct (Z.gtb_spec mode (priv env)); [lia|].
  rewrite Hi0, Hi1, Hi2.
  destruct (Z.leb_spec (Z.land value CLIC_INTTRIG_IRQN) (num_sources s))
    as [Hle|Hgt].
  - eexists. split; [reflexivity|]. split; [|lia]. intros _.
    unfold riscv_clic_read.
    match goal with
    | |- context [clic_size ?st] =>
        destruct (Hdec st eq_refl) as (-> & -> & -> & ->)
    end.
    destruct (Z.gtb_spec mode (priv env)); [lia|].
    rewrite Hi0, Hi1, Hi2. simpl clicinttrig.
    rewrite zget_zset_same by (rewrite Hlen; lia).
    f_equal. unfold uint32.
    pose proof (ClicProofs.land_le_r value CLIC_INTTRIG_MASK
                  ltac:(discriminate)) as Hb.
    change 4294967295 with (Z.ones 32).
    rewrite ClicOrder.land_ones_small.
    + rewrite <- Z.land_assoc, Z.land_diag. reflexivity.
    + lia.
    + change CLIC_INTTRIG_MASK with 3221233663 in *.
      change (2 ^ 32) with 4294967296. lia.
  - exists s. split; [reflexivity|]. split; [lia|reflexivity].
Qed.

(** X9.  After a [cliccfg] write through the M view whose fields are all
    in range, the M view reads back all four fields, the S view reads
    [snlbits] and [unlbits] only and the U view reads [unlbits] only; the
    fields of privileges that are not implemented read as 0. *)
Theorem cliccfg_write_then_read env s value size :
  0 < clic_size s -> PRV_M <= priv env ->
  let mnl := extract32 value 0 4 in
  let nm := extract32 value 4 2 in
  let snl := extract32 value 16 4 in
  let unl := extract32 value 24 4 in
  let sfield := if prv_s s then Z.shiftl snl 16 else 0 in
  let ufield := if prv_u s then Z.shiftl unl 24 else 0 in
  mnl <= 8 -> snl <= 8 -> unl <= 8 ->
  nm <= (if prv_s s && prv_u s then 2
         else if prv_s s || prv_u s then 1 else 0) ->
  exists s',
    riscv_clic_write MODE_SHIFT LEVEL_SHIFT encode_irq env PRV_M s 0 value
      size = Some s' /\
    riscv_clic_read env PRV_M s' 0 size
      = Some (Z.lor (Z.lor (Z.lor mnl (Z.shiftl nm 4)) sfield) ufield) /\
    riscv_clic_read env PRV_S s' 0 size = Some (Z.lor sfield ufield) /\
    riscv_clic_read env PRV_U s' 0 size = Some ufield.
Proof.
  intros Hsz Hp mnl nm snl unl sfield ufield Hm Hs Hu Hn.
  assert (Hnm : 0 <= nm).
  { subst nm. unfold extract32. apply Z.land_nonneg. right. discriminate. }
  unfold riscv_clic_write, riscv_clic_read.
  destruct (Z.ltb_spec 0 (clic_size s)); [|lia]. cbn [negb].
  destruct (Z.gtb_spec PRV_M (priv env)); [lia|].
  change (0 <? CLIC_INTCTL_BASE) with true.
  change (negb (0 mod 4 =? 0)) with false.
  change (0 / 4 =? 0) with true. cbv iota.
  eexists. split; [reflexivity|].
  unfold cliccfg_write, set_cliccfg.
  cbn [clic_size mnlbits nmbits snlbits unlbits prv_s prv_u].
  destruct (Z.ltb_spec 0 (clic_size s)); [|lia]. cbn [negb].
  destruct (Z.gtb_spec PRV_M (priv env)); [lia|].
  destruct (Z.gtb_spec PRV_S (priv env)); [unfold PRV_S, PRV_M in *; lia|].
  destruct (Z.gtb_spec PRV_U (priv env)); [unfold PRV_U, PRV_M in *; lia|].
  fold mnl nm snl unl.
  destruct (Z.leb_spec mnl 8); [|lia].
  destruct (Z.leb_spec snl 8); [|lia].
  destruct (Z.leb_spec unl 8); [|lia].
  change (PRV_M =? PRV_M) with true. change (PRV_M =? PRV_S) with false.
  change (PRV_M =? PRV_U) with false. change (PRV_M >=? PRV_S) with true.
  change (PRV_M >=? PRV_U) with true. change (PRV_S >=? PRV_S) with true.
  change (PRV_S >=? PRV_U) with true. change (PRV_U >=? PRV_S) with false.
  change (PRV_U >=? PRV_U) with true.
  subst sfield ufield.
  destruct (prv_s s), (prv_u s); cbn [andb orb] in *;
    repeat match goal with
           | |- context [nm <=? ?c] => destruct (Z.leb_spec nm c); [|lia]
           | |- context [nm =? 0] => destruct (Z.eqb_spec nm 0); [|lia]
           end;
    repeat split; rewrite ?Z.lor_0_r, ?Z.lor_0_l; try reflexivity;
    try (repeat f_equal; lia).
  match goal with e : nm = 0 |- _ => rewrite e end.
  rewrite Z.shiftl_0_l, Z.lor_0_r. reflexivity.
Qed.


(** X10.  The pending bit of a level-triggered interrupt follows its input
    line through the arbitration: after any change of the line it is 1
    exactly when the line is high (positive level) or low (negative
    level). *)
Theorem level_pending_follows_line env s id level :
  0 <= id < Z.of_nat (List.length (clicintip s)) ->
  riscv_clic_get_trigger_type s id = POSITIVE_LEVEL
  \/ riscv_clic_get_trigger_type s id = NEG_LEVEL ->
  zget (clicintip (riscv_clic_set_irq MODE_SHIFT LEVEL_SHIFT encode_irq env s
                     id level)) id
  = if riscv_clic_get_trigger_type s id =? POSITIVE_LEVEL
    then lnot2 level else lnot level.
Proof.
  intros Hid Ht.
  assert (Hk : forall v,
            zget (clicintip (riscv_clic_update_intip MODE_SHIFT LEVEL_SHIFT
                               encode_irq env s id v)) id = lnot2 v).
  { intros v. apply ClicProofs.update_intip_kept; [exact Hid|].
    intros a _ He Heq. rewrite Heq in He.
    unfold riscv_clic_is_edge_triggered in He.
    destruct Ht as [Ht|Ht]; rewrite Ht in He; discriminate. }
  unfold riscv_clic_set_irq.
  destruct Ht as [Ht|Ht]; rewrite Ht; cbn [Z.eqb Pos.eqb orb negb];
    unfold POSITIVE_LEVEL, NEG_LEVEL, POSITIVE_EDGE, NEG_EDGE;
    cbn [Z.eqb Pos.eqb orb negb];
    destruct (Z.eqb_spec level 0) as [->|Hl]; cbn [negb];
    rewrite Hk; unfold lnot2, lnot;
    repeat match goal with
           | |- context [?a =? 0] => destruct (Z.eqb_spec a 0)
           end; try reflexivity; try lia; try discriminate.
Qed.

(** X11.  A byte write to [clicintip[i]] of an edge-triggered interrupt,
    through a view that sees it: the value 0 leaves the bit clear; a
    nonzero value leaves the bit at 1 when the interrupt is not in the
    enabled list (so is not delivered at once). *)
Theorem software_pending_write env mode s i v :
  wf_clic s -> 0 <= i < num_sources s -> mode <= priv env ->
  riscv_clic_check_visible s mode i = Some true ->
  riscv_clic_is_edge_triggered s i = true ->
  exists s',
    riscv_clic_write MODE_SHIFT LEVEL_SHIFT encode_irq env mode s
      (clicintip_addr i) v 1 = Some s' /\
    (v = 0 -> zget (clicintip s') i = 0) /\
    (v <> 0 ->
     zget (clicintip s) i = 0 \/ zget (clicintip s) i = 1 ->
     (forall a, In a (active_prefix s) -> irq a <> i) ->
     zget (clicintip s') i = 1).
Proof.
  intros (Hn & Hsz & _ & Hlen & _) Hi Hp Hvis He. unfold clicintip_addr.
  replace (CLIC_INTCTL_BASE + 4 * i) with (CLIC_INTCTL_BASE + 4 * i + 0) by lia.
  rewrite ClicProofs.write_quartet, ClicProofs.quartet_in_range, Hvis by lia.
  destruct (Z.gtb_spec mode (priv env)); [lia|]. cbn [bind].
  unfold riscv_clic_hart_write, hart_write_body.
  destruct (ClicProofs.quartet_addr i 0 ltac:(lia)) as [-> _].
  destruct (Z.geb_spec i (num_sources s)); [lia|].
  unfold riscv_clic_validate_intip. rewrite He.
  cbn [Z.eqb Z.gtb Z.compare Pos.compare Pos.compare_cont].
  eexists. split; [reflexivity|].
  destruct (Z.eqb_spec v (zget (clicintip s) i)) as [Heq|Hne]; cbn [negb].
  - split; [intros ->; auto|]. intros Hv [Hz|Ho] _; [lia|exact Ho].
  - split.
    + intros ->. unfold riscv_clic_update_intip, riscv_clic_next_interrupt.
      match goal with
      | |- context [scan_active _ _ _ env ?s1 ?l] =>
          destruct (ClicProofs.scan_clears_only_vectored_edge MODE_SHIFT
                      LEVEL_SHIFT encode_irq env s1 l)
            as [->|(a & _ & _ & ->)]
      end.
      * simpl. apply zget_zset_same. rewrite Hlen. lia.
      * apply zget_zset_zero. simpl. apply zget_zset_same. rewrite Hlen. lia.
    + intros Hv _ Hno. rewrite ClicProofs.update_intip_kept.
      * unfold lnot2. destruct (Z.eqb_spec v 0); [contradiction|reflexivity].
      * rewrite Hlen. lia.
      * intros a Ha _. apply Hno, Ha.
Qed.

Lemma attr_byte_fields v f :
  0 <= v < 256 -> 0 <= f <= 3 ->
  let stored := set_field v CLIC_INTATTR_MODE f in
  uint8 stored = stored /\
  extract64 stored CLIC_INTATTR_MODE_SHIFT CLIC_INTATTR_MODE_WIDTH = f /\
  get_field (Z.land stored CLIC_INTATTR_MASK) CLIC_INTATTR_MODE = f /\
  uint8 (set_field (Z.land stored CLIC_INTATTR_MASK) CLIC_INTATTR_MODE f)
  = Z.lor (Z.shiftl f 6) (Z.land v 7).
Proof.
  intros Hv Hf.
  assert (H : forallb (fun b =>
                forallb (fun m =>
                  let stored := set_field b CLIC_INTATTR_MODE m in
                  (uint8 stored =? stored)
                  && (extract64 stored CLIC_INTATTR_MODE_SHIFT
                        CLIC_INTATTR_MODE_WIDTH =? m)
                  && (get_field (Z.land stored CLIC_INTATTR_MASK)
                        CLIC_INTATTR_MODE =? m)
                  && (uint8 (set_field (Z.land stored CLIC_INTATTR_MASK)
                               CLIC_INTATTR_MODE m)
                      =? Z.lor (Z.shiftl m 6) (Z.land b 7)))
                  (zrange 4)) (zrange 256) = true)
    by (vm_compute; reflexivity).
  pose proof (ClicOrder.forallb_zrange _ _ H v ltac:(simpl; lia)) as H1.
  cbv beta in H1.
  pose proof (ClicOrder.forallb_zrange _ _ H1 f ltac:(simpl; lia)) as H2.
  cbv beta zeta in H2. rewrite !andb_true_iff in H2.
  destruct H2 as (((Ha & Hb) & Hc) & Hd).
  cbv zeta. repeat split; apply Z.eqb_eq; assumption.
Qed.

Lemma attr_written_mode_range s i v :
  nmbits_valid s -> 0 <= v < 256 -> 0 <= attr_written_mode s i v <= 3.
Proof.
  intros _ Hv. unfold attr_written_mode.
  assert (Hg : forall x, 0 <= get_field x CLIC_INTATTR_MODE <= 3).
  { intros x. split; [|apply ClicProofs.intattr_mode_le3].
    unfold get_field. apply Z.div_pos; [|reflexivity].
    apply Z.land_nonneg. right. discriminate. }
  pose proof (Hg v). pose proof (Hg (zget (clicintattr s) i)).
  unfold PRV_M, PRV_S, PRV_U.
  repeat match goal with
         | |- context [if ?c then _ else _] => destruct c
         end; lia.
Qed.

(** X12.  A byte written to [clicintattr[i]] through the M view by a CPU in
    machine mode reads back with the trigger and vectoring bits as
    written, the reserved bits 5:3 clear, and the mode the WARL remap
    gives: M when [nmbits = 0]; S (or U without S) for requested modes up
    to S and M above when [nmbits = 1]; the requested mode when
    [nmbits = 2], the reserved value 2 keeping the previous mode. *)
Theorem clicintattr_write_then_read env s i v :
  wf_clic s -> nmbits_valid s -> 0 <= i < num_sources s -> 0 <= v < 256 ->
  PRV_M <= priv env ->
  exists s',
    riscv_clic_write MODE_SHIFT LEVEL_SHIFT encode_irq env PRV_M s
      (clicintattr_addr i) v 1 = Some s' /\
    riscv_clic_read env PRV_M s' (clicintattr_addr i) 1
    = Some (Z.lor (Z.shiftl (attr_written_mode s i v) 6) (Z.land v 7)).
Proof.
  intros (Hn & Hsz & _ & _ & _ & Hlen & _) Hnm Hi Hv Hp.
  pose proof (attr_written_mode_range s i v Hnm Hv) as Hf.
  destruct (attr_byte_fields v (attr_written_mode s i v) Hv Hf)
    as (Hu8 & Hex & Hget & Hrd).
  cbv zeta in *.
  set (f := attr_written_mode s i v) in *.
  set (stored := set_field v CLIC_INTATTR_MODE f) in *.
  assert (Hvis : forall st, footprint s st ->
            riscv_clic_check_visible st PRV_M i = Some true).
  { intros st Hft. apply (ClicProofs.check_visible_M_footprint s st i Hft).
    destruct (ClicProofs.check_visible_M s i) as [H|H]; [exact H|].
    exfalso. exact (ClicProofs.check_visible_defined s PRV_M i Hnm H). }
  (* the mode the remap gives, and its fixed point on the stored byte *)
  assert (Heff : exists fm,
            riscv_clic_effective_mode s (uint8 v) = Some fm /\
            (if PRV_RESERVED =? fm
             then get_field (zget (clicintattr s) i) CLIC_INTATTR_MODE
             else fm) = f /\
            forall st, nmbits st = nmbits s -> prv_s st = prv_s s ->
                       prv_u st = prv_u s ->
              riscv_clic_effective_mode st (Z.land stored CLIC_INTATTR_MASK)
              = Some f).
  { unfold riscv_clic_effective_mode.
    rewrite (ClicProofs.uint8_byte v Hv).
    destruct Hnm as [Hn0 Hn1]. subst f. unfold attr_written_mode in *.
    destruct (Z.eqb_spec (nmbits s) 0) as [E0|E0].
    - eexists. split; [reflexivity|]. split; [reflexivity|].
      intros st -> _ _. rewrite E0. reflexivity.
    - destruct (Z.eqb_spec (nmbits s) 1) as [E1|E1].
      + destruct (prv_s s) eqn:Es, (prv_u s) eqn:Eu; cbn [andb orb] in Hn1;
          try lia;
          destruct (Z.leb_spec (get_field v CLIC_INTATTR_MODE) PRV_S);
          (eexists; split; [reflexivity|]; split; [reflexivity|];
           intros st Ha Hb Hc; rewrite Ha, E1, Hget; cbn [Z.eqb Pos.eqb];
           rewrite ?Hb, ?Hc, ?Es, ?Eu; reflexivity).
      + assert (E2 : nmbits s = 2)
          by (destruct (prv_s s), (prv_u s); cbn [andb orb] in Hn1; lia).
        rewrite E2 in *. cbn [Z.eqb Pos.eqb].
        eexists. split; [reflexivity|].
        split; [rewrite Z.eqb_sym; reflexivity|].
        intros st -> _ _. rewrite ?E2, Hget. reflexivity. }
  destruct Heff as (fm & Hfm & Hfield & Hfix).
  unfold clicintattr_addr.
  rewrite ClicProofs.write_quartet, ClicProofs.quartet_in_range by lia.
  destruct (Z.gtb_spec PRV_M (priv env)); [lia|].
  rewrite (Hvis s (ClicProofs.footprint_refl s)). cbn [bind].
  unfold riscv_clic_hart_write, hart_write_body.
  destruct (ClicProofs.quartet_addr i 2 ltac:(lia)) as [-> _].
  destruct (Z.geb_spec i (num_sources s)); [lia|].
  cbn [Z.eqb Pos.eqb]. rewrite Hfm. cbn [bind]. rewrite Hfield.
  fold stored. rewrite Hu8.
  assert (Hval : riscv_clic_validate_intattr env stored = true).
  { unfold riscv_clic_validate_intattr. rewrite Hex.
    destruct (qtest_enabled env); cbn [negb]; [reflexivity|].
    destruct (Z.ltb_spec (priv env) f); [unfold PRV_M in *; lia|reflexivity]. }
  rewrite Hval.
  assert (Hread : forall st,
            footprint s st -> zget (clicintattr st) i = stored ->
            riscv_clic_read env PRV_M st (CLIC_INTCTL_BASE + 4 * i + 2) 1
            = Some (Z.lor (Z.shiftl f 6) (Z.land v 7))).
  { intros st Hft Hst.
    pose proof Hft as (Hnmb & _ & Hns & Hcs & _ & Hps & Hpu & _).
    rewrite ClicProofs.read_quartet by lia.
    rewrite ClicProofs.quartet_in_range by (rewrite ?Hcs, ?Hns; lia).
    destruct (Z.gtb_spec PRV_M (priv env)); [lia|].
    rewrite (Hvis st Hft). cbn [bind].
    rewrite ClicProofs.hart_read_byte by (rewrite ?Hns; lia).
    cbn [Z.eqb Pos.eqb]. rewrite Hst, (Hfix st Hnmb Hps Hpu). cbn [bind].
    rewrite Hrd. reflexivity. }
  destruct (Z.eqb_spec (zget (clicintattr s) i) stored) as [Heq|Hne];
    cbn [negb].
  - exists s. split; [reflexivity|].
    apply Hread; [apply ClicProofs.footprint_refl|exact Heq].
  - eexists. split; [reflexivity|].
    match goal with
    | |- context [riscv_clic_next_interrupt _ _ _ env ?s0] =>
        pose proof (ClicProofs.next_interrupt_footprint MODE_SHIFT
                      LEVEL_SHIFT encode_irq env s0) as Hft;
        pose proof (ClicProofs.next_interrupt_same_config MODE_SHIFT
                      LEVEL_SHIFT encode_irq env s0) as Hc;
        set (s1 := s0) in *
    end.
    apply Hread.
    + eapply ClicProofs.footprint_trans; [|exact Hft].
      unfold footprint, s1; simpl. repeat split; auto using zset_length.
    + unfold same_config in Hc.
      repeat match goal with H : _ /\ _ |- _ => destruct H end.
      match goal with Hx : clicintattr _ = clicintattr s1 |- _ =>
        rewrite Hx end.
      unfold s1. simpl. apply zget_zset_same. rewrite Hlen. lia.
Qed.


Lemma update_intip_config env s id v :
  clicintattr (riscv_clic_update_intip MODE_SHIFT LEVEL_SHIFT encode_irq
                 env s id v) = clicintattr s /\
  active_prefix (riscv_clic_update_intip MODE_SHIFT LEVEL_SHIFT encode_irq
                   env s id v) = active_prefix s /\
  List.length (clicintip (riscv_clic_update_intip MODE_SHIFT LEVEL_SHIFT
                            encode_irq env s id v))
  = List.length (clicintip s).
Proof.
  unfold riscv_clic_update_intip.
  match goal with
  | |- context [riscv_clic_next_interrupt _ _ _ env ?s0] =>
      pose proof (ClicProofs.next_interrupt_same_config MODE_SHIFT
                    LEVEL_SHIFT encode_irq env s0) as Hc;
      pose proof (ClicProofs.next_interrupt_footprint MODE_SHIFT
                    LEVEL_SHIFT encode_irq env s0) as Hf
  end.
  unfold same_config in Hc. unfold footprint in Hf.
  repeat match goal with H : _ /\ _ |- _ => destruct H end.
  split; [|split].
  - match goal with Hx : clicintattr _ = clicintattr _ |- _ =>
      rewrite Hx end. reflexivity.
  - unfold active_prefix.
    repeat match goal with
           | Hx : active_list _ = active_list _ |- _ => rewrite Hx; clear Hx
           | Hx : active_count _ = active_count _ |- _ => rewrite Hx; clear Hx
           end. reflexivity.
  - match goal with
    | Hx : List.length (clicintip _) = List.length (clicintip _) |- _ =>
        rewrite Hx
    end. simpl. apply zset_length.
Qed.

Lemma trigger_type_cases s id :
  riscv_clic_get_trigger_type s id = POSITIVE_LEVEL \/
  riscv_clic_get_trigger_type s id = POSITIVE_EDGE \/
  riscv_clic_get_trigger_type s id = NEG_LEVEL \/
  riscv_clic_get_trigger_type s id = NEG_EDGE.
Proof.
  unfold riscv_clic_get_trigger_type, get_field, POSITIVE_LEVEL,
    POSITIVE_EDGE, NEG_LEVEL, NEG_EDGE.
  change (mask_lsb CLIC_INTATTR_TRIG) with 2.
  pose proof (ClicProofs.land_le_r (zget (clicintattr s) id)
                CLIC_INTATTR_TRIG ltac:(unfold CLIC_INTATTR_TRIG; lia)) as H.
  unfold CLIC_INTATTR_TRIG in *.
  assert (0 <= Z.land (zget (clicintattr s) id) 6 / 2 < 4).
  { split; [apply Z.div_pos; lia|apply Z.div_lt_upper_bound; lia]. }
  lia.
Qed.

(** X25.  A pulse on the input line of an interrupt that is not in the
    enabled list, the line raised and then lowered: the pending bit is
    left set unless the interrupt is positive-level triggered, for which
    it is left clear. *)
Theorem input_pulse env s id :
  0 <= id < Z.of_nat (List.length (clicintip s)) ->
  (forall a, In a (active_prefix s) -> irq a <> id) ->
  let raised := riscv_clic_set_irq MODE_SHIFT LEVEL_SHIFT encode_irq env s
                  id 1 in
  let lowered := riscv_clic_set_irq MODE_SHIFT LEVEL_SHIFT encode_irq env
                   raised id 0 in
  zget (clicintip lowered) id
  = if riscv_clic_get_trigger_type s id =? POSITIVE_LEVEL then 0 else 1.
Proof.
  intros Hid Hno. cbv zeta.
  assert (Hk : forall st v,
            active_prefix st = active_prefix s ->
            List.length (clicintip st) = List.length (clicintip s) ->
            zget (clicintip (riscv_clic_update_intip MODE_SHIFT LEVEL_SHIFT
                               encode_irq env st id v)) id = lnot2 v).
  { intros st v Ha Hl.
    apply ClicProofs.update_intip_kept; [rewrite Hl; exact Hid|].
    rewrite Ha. intros a Hin _. apply Hno, Hin. }
  assert (Htrig : forall v,
            riscv_clic_get_trigger_type
              (riscv_clic_update_intip MODE_SHIFT LEVEL_SHIFT encode_irq env
                 s id v) id = riscv_clic_get_trigger_type s id).
  { intros v. unfold riscv_clic_get_trigger_type.
    rewrite (proj1 (update_intip_config env s id v)). reflexivity. }
  unfold riscv_clic_set_irq at 2.
  change (negb (1 =? 0)) with true. cbv iota.
  destruct (trigger_type_cases s id) as [E|[E|[E|E]]]; rewrite E;
    unfold POSITIVE_LEVEL, POSITIVE_EDGE, NEG_LEVEL, NEG_EDGE in *;
    cbn [Z.eqb Pos.eqb orb]; unfold riscv_clic_set_irq;
    rewrite ?Htrig, E; change (negb (0 =? 0)) with false;
    cbn [Z.eqb Pos.eqb orb]; cbv iota.
  - apply Hk; apply update_intip_config.
  - apply Hk; reflexivity.
  - apply Hk; apply update_intip_config.
  - apply Hk; reflexivity.
Qed.


(** X26.  The register at offset 8 is [mintthresh] in version v0.8 only,
    and through every view the CPU's privilege admits.  A write there
    never re-arbitrates (the CPU line and the pending bits are left
    alone).  In v0.8 the value reads back truncated to 32 bits and its low
    byte becomes the machine-mode threshold of the next arbitration; in
    other versions the write changes nothing and the register reads 0. *)
Theorem mintthresh_only_in_v08 env mode s value size :
  8 < clic_size s -> mode <= priv env ->
  exists s',
    riscv_clic_write MODE_SHIFT LEVEL_SHIFT encode_irq env mode s 8 value
      size = Some s' /\
    cpu_irq s' = cpu_irq s /\ clicintip s' = clicintip s /\
    (version s = "v0.8"%string ->
     riscv_clic_read env mode s' 8 size = Some (uint32 value) /\
     il env s' PRV_M = Z.max (mintstatus_mil env) (Z.land value 255)) /\
    (version s <> "v0.8"%string ->
     s' = s /\ riscv_clic_read env mode s 8 size = Some 0).
Proof.
  intros Hsz Hp. unfold riscv_clic_write, riscv_clic_read.
  destruct (Z.ltb_spec 8 (clic_size s)); [|lia].
  destruct (Z.gtb_spec mode (priv env)); [lia|]. cbn [negb].
  change (8 <? CLIC_INTCTL_BASE) with true.
  change (negb (8 mod 4 =? 0)) with false. change (8 / 4) with 2.
  change (2 =? 0) with false.
  change ((CLIC_INTTRIG_START <=? 2) && (2 <=? CLIC_INTTRIG_END)) with false.
  change (2 =? 2) with true. cbv iota.
  destruct (String.eqb_spec (version s) "v0.8"%string) as [E|E].
  - eexists. split; [reflexivity|]. split; [reflexivity|].
    split; [reflexivity|]. split; [|intros Hn; contradiction].
    intros _. cbn [clic_size version mintthresh set_mintthresh].
    destruct (Z.ltb_spec 8 (clic_size s)); [|lia]. cbn [negb].
    rewrite E. change ("v0.8" =? "v0.8")%string with true. cbv iota.
    split; [reflexivity|].
    unfold il, PRV_M. cbn [Z.eqb Pos.eqb mintthresh set_mintthresh].
    unfold uint32. rewrite <- Z.land_assoc. reflexivity.
  - exists s. split; [reflexivity|]. split; [reflexivity|].
    split; [reflexivity|]. split; [intros Hv; contradiction|].
    intros _. split; reflexivity.
Qed.

End Views.


Lemma msu_clic_wf : wf_clic msu_clic.
Proof. unfold wf_clic; simpl; repeat split; try lia; reflexivity. Defined.

Lemma machine_owned_wf : wf_clic machine_owned.
Proof. unfold wf_clic; simpl; repeat split; try lia; reflexivity. Defined.

Lemma machine_interrupt_hidden_from_lower_views_witness :
  riscv_clic_read env_supervisor PRV_S machine_owned
    (CLIC_INTCTL_BASE + 4 * 3 + 3) 1 = Some 0 /\
  riscv_clic_write 12 14 (fun i _ => i) env_supervisor PRV_S machine_owned
    (CLIC_INTCTL_BASE + 4 * 3 + 3) 0xff 1 = Some machine_owned.
Proof.
  apply (machine_interrupt_hidden_from_lower_views 12 14 (fun i _ => i)
           env_supervisor PRV_S machine_owned 3 3 0xff 1).
  - unfold nmbits_valid; simpl; lia.
  - right; reflexivity.
  - reflexivity.
  - lia.
  - lia.
  - reflexivity.
Defined.

Lemma intattr_mode_at_most_priv_witness :
  exists s',
    riscv_clic_write 12 14 (fun i _ => i) env_supervisor PRV_S msu_clic
      (clicintattr_addr 3) 0x41 1 = Some s' /\
    (zget (clicintattr s') 3 = zget (clicintattr msu_clic) 3
     \/ get_field (zget (clicintattr s') 3) CLIC_INTATTR_MODE
        <= priv env_supervisor).
Proof.
  eexists. split; [reflexivity|].
  assert (Hi : 0 <= 3) by lia.
  apply (intattr_mode_at_most_priv 12 14 (fun i _ => i) env_supervisor PRV_S
           msu_clic 3 0x41 _ msu_clic_wf Hi eq_refl).
  reflexivity.
Defined.

Lemma clicinttrig_write_then_read_witness :
  exists s',
    riscv_clic_write 12 14 (fun i _ => i) env_reset PRV_M small_clic
      (0x40 + 4 * 2) 0x80000005 4 = Some s' /\
    riscv_clic_read env_reset PRV_M s' (0x40 + 4 * 2) 4 = Some 0x80000005.
Proof.
  assert (Hl : List.length (clicinttrig small_clic) = 32%nat) by reflexivity.
  assert (Hk : 0 <= 2 < 32) by lia.
  assert (Ha : 0x40 + 4 * 2 < clic_size small_clic) by reflexivity.
  assert (Hp : PRV_M <= priv env_reset) by (simpl; lia).
  destruct (clicinttrig_write_then_read 12 14 (fun i _ => i) env_reset PRV_M
              small_clic 2 0x80000005 4 Hl Hk Ha Hp) as (s' & Hw & Hr & _).
  exists s'. split; [exact Hw|]. apply Hr. vm_compute. discriminate.
Defined.

Lemma cliccfg_write_then_read_witness :
  exists s',
    riscv_clic_write 12 14 (fun i _ => i) env_reset PRV_M msu_clic 0
      0x03040025 4 = Some s' /\
    riscv_clic_read env_reset PRV_M s' 0 4 = Some 0x03040025 /\
    riscv_clic_read env_reset PRV_S s' 0 4 = Some 0x03040000 /\
    riscv_clic_read env_reset PRV_U s' 0 4 = Some 0x03000000.
Proof.
  assert (Hsz : 0 < clic_size msu_clic) by reflexivity.
  assert (Hp : PRV_M <= priv env_reset) by (simpl; lia).
  apply (cliccfg_write_then_read 12 14 (fun i _ => i) env_reset msu_clic
           0x03040025 4 Hsz Hp); vm_compute; discriminate.
Defined.

Lemma level_pending_follows_line_witness :
  zget (clicintip (riscv_clic_set_irq 12 14 (fun i _ => i) env_reset
                     small_clic 3 1)) 3 = 1.
Proof.
  assert (Hi : 0 <= 3 < Z.of_nat (List.length (clicintip small_clic)))
    by (vm_compute; split; [discriminate|reflexivity]).
  apply (level_pending_follows_line 12 14 (fun i _ => i) env_reset small_clic
           3 1 Hi).
  left; reflexivity.
Defined.

Lemma software_pending_write_witness :
  exists s',
    riscv_clic_write 12 14 (fun i _ => i) env_reset PRV_M machine_owned
      (clicintip_addr 3) 1 1 = Some s' /\
    zget (clicintip s') 3 = 1.
Proof.
  assert (Hi : 0 <= 3 < num_sources machine_owned) by (simpl; lia).
  assert (Hp : PRV_M <= priv env_reset) by (simpl; lia).
  destruct (software_pending_write 12 14 (fun i _ => i) env_reset PRV_M
              machine_owned 3 1 machine_owned_wf Hi Hp eq_refl eq_refl)
    as (s' & Hw & _ & Hs).
  exists s'. split; [exact Hw|]. apply Hs.
  - discriminate.
  - left; reflexivity.
  - intros a Ha. vm_compute in Ha. destruct Ha.
Defined.

Lemma clicintattr_write_then_read_witness :
  exists s',
    riscv_clic_write 12 14 (fun i _ => i) env_reset PRV_M machine_owned
      (clicintattr_addr 3) 0xBB 1 = Some s' /\
    riscv_clic_read env_reset PRV_M s' (clicintattr_addr 3) 1 = Some 0xC3.
Proof.
  assert (Hn : nmbits_valid machine_owned)
    by (unfold nmbits_valid; simpl; lia).
  assert (Hi : 0 <= 3 < num_sources machine_owned) by (simpl; lia).
  assert (Hv : 0 <= 0xBB < 256) by lia.
  assert (Hp : PRV_M <= priv env_reset) by (simpl; lia).
  exact (clicintattr_write_then_read 12 14 (fun i _ => i) env_reset
           machine_owned 3 0xBB machine_owned_wf Hn Hi Hv Hp).
Defined.

Lemma input_pulse_witness :
  zget (clicintip
          (riscv_clic_set_irq 12 14 (fun i _ => i) env_reset
             (riscv_clic_set_irq 12 14 (fun i _ => i) env_reset
                machine_owned 3 1) 3 0)) 3 = 1.
Proof.
  assert (Hi : 0 <= 3 < Z.of_nat (List.length (clicintip machine_owned)))
    by (vm_compute; split; [discriminate|reflexivity]).
  apply (input_pulse 12 14 (fun i _ => i) env_reset machine_owned 3 Hi).
  intros a Ha. vm_compute in Ha. destruct Ha.
Defined.

Lemma mintthresh_only_in_v08_witness :
  exists s',
    riscv_clic_write 12 14 (fun i _ => i) env_reset PRV_M v08_clic 8
      0x1234567A0 4 = Some s' /\
    riscv_clic_read env_reset PRV_M s' 8 4 = Some 0x234567A0 /\
    il env_reset s' PRV_M = 0xA0.
Proof.
  assert (Hsz : 8 < clic_size v08_clic) by reflexivity.
  assert (Hp : PRV_M <= priv env_reset) by (simpl; lia).
  destruct (mintthresh_only_in_v08 12 14 (fun i _ => i) env_reset PRV_M
              v08_clic 0x1234567A0 4 Hsz Hp) as (s' & Hw & _ & _ & Hv & _).
  exists s'. split; [exact Hw|]. apply Hv. reflexivity.
Defined.

End ClicViews.

(** ** UART: receive queue, interrupt identification, divisor latch *)

Module UartQueue.
Import Bits Uart.

Lemma uint32_land_small x m :
  0 <= m < 2 ^ 32 -> Z.land (uint32 x) m = Z.land x m.
Proof.
  intros Hm. unfold uint32. change 4294967295 with (Z.ones 32).
  rewrite <- Z.land_assoc. f_equal.
  rewrite Z.land_comm, Z.land_ones by lia. apply Z.mod_small. exact Hm.
Qed.

Lemma lor_land_absorb a m : Z.lor (Z.land a m) m = m.
Proof.
  apply Z.bits_inj'. intros n _. rewrite Z.lor_spec, Z.land_spec.
  destruct (Z.testbit a n), (Z.testbit m n); reflexivity.
Qed.

(** [x |= m] leaves the bits of [m] set. *)
Lemma set_flag x m :
  0 <= m < 2 ^ 32 -> Z.land (uint32 (Z.lor x m)) m = m.
Proof.
  intros Hm. rewrite uint32_land_small by exact Hm.
  rewrite Z.land_lor_distr_l, Z.land_diag. apply lor_land_absorb.
Qed.

(** [x |= m'] keeps a bit of [m] that was set. *)
Lemma keep_flag x m m' :
  0 <= m < 2 ^ 32 -> Z.land x m <> 0 -> Z.land (uint32 (Z.lor x m')) m <> 0.
Proof.
  intros Hm Hx. rewrite uint32_land_small by exact Hm.
  rewrite Z.land_lor_distr_l. intros H. apply Z.lor_eq_0_iff in H.
  apply Hx, H.
Qed.

(** [x &= ~m] leaves the bits of [m] clear. *)
Lemma clear_flag x m : 0 <= m < 2 ^ 32 -> Z.land (clear_bits x m) m = 0.
Proof.
  intros Hm. unfold clear_bits. rewrite uint32_land_small by exact Hm.
  rewrite <- Z.land_assoc, (Z.land_comm (Z.lnot m)), Z.land_lnot_diag.
  apply Z.land_0_r.
Qed.

(** The identification field after [(iir & ~0xf) | src]. *)
Lemma iir_with_id x src :
  Z.land src 0xf = src -> Z.land (iir_with x src) 0xf = src.
Proof.
  intros Hs. unfold iir_with. rewrite uint32_land_small by lia.
  rewrite Z.land_lor_distr_l, <- Z.land_assoc.
  change (Z.land (Z.lnot 15) 15) with 0.
  rewrite Z.land_0_r, Z.lor_0_l. exact Hs.
Qed.

Lemma mod16_wrap x :
  0 <= x < 32 -> (if x >=? 16 then x - 16 else x) = x mod 16.
Proof.
  intros Hx. destruct (Z.geb_spec x 16).
  - replace x with (x - 16 + 1 * 16) at 2 by lia.
    rewrite Z.mod_add by lia. symmetry. apply Z.mod_small. lia.
  - symmetry. apply Z.mod_small. lia.
Qed.

(** A byte received in FIFO mode with room left joins the queue at its
    end. *)
Lemma receive_contents s b :
  fifo_mode s -> rx_count s < 16 ->
  fifo_mode (thead_uart_receive s b 1) /\
  rx_count (thead_uart_receive s b 1) = rx_count s + 1 /\
  fifo_contents (thead_uart_receive s b 1) = fifo_contents s ++ [uint8 b].
Proof.
  intros (Hf & Hl & Hlen & Hp & Hc) Hroom. unfold thead_uart_receive.
  change (1 <? 1) with false. cbv iota.
  destruct (Z.eqb_spec (Z.land (fcr s) 1) 0) as [E|_]; [contradiction|].
  rewrite mod16_wrap by lia.
  unfold fifo_mode, fifo_contents, thead_uart_update, set_rx; cbn [fcr lcr rx_fifo rx_pos rx_count].
  split; [|split; [reflexivity|]].
  - repeat split; try assumption; try lia.
    rewrite zset_length. exact Hlen.
  - replace (Z.to_nat (rx_count s + 1)) with (S (Z.to_nat (rx_count s)))
      by lia.
    rewrite seq_S, map_app. cbn [map plus]. f_equal.
    + apply map_ext_in. intros k Hk. apply in_seq in Hk.
      apply zget_zset_other.
      * apply Z.mod_pos_bound. lia.
      * intros Heq.
        assert (Hzk : 0 <= Z.of_nat k < rx_count s) by lia.
        rewrite <- !mod16_wrap in Heq by lia.
        destruct (Z.geb_spec (rx_pos s + rx_count s) 16),
                 (Z.geb_spec (rx_pos s + Z.of_nat k) 16); lia.
    + rewrite Z2Nat.id by lia. f_equal.
      apply zget_zset_same. rewrite Hlen.
      pose proof (Z.mod_pos_bound (rx_pos s + rx_count s) 16). lia.
Qed.

(** A read of the receive buffer in FIFO mode takes the oldest byte off a
    queue that is not empty; the data-ready bit is cleared with the last
    byte. *)
Lemma read_contents s :
  fifo_mode s -> 0 < rx_count s ->
  fifo_mode (snd (thead_uart_read s 0 4)) /\
  rx_count (snd (thead_uart_read s 0 4)) = rx_count s - 1 /\
  fifo_contents s
  = fst (thead_uart_read s 0 4) :: fifo_contents (snd (thead_uart_read s 0 4))
  /\ (rx_count s = 1 -> Z.land (lsr (snd (thead_uart_read s 0 4))) lsr_DR = 0).
Proof.
  intros (Hf & Hl & Hlen & Hp & Hc) Hne. unfold thead_uart_read.
  change (Z.shiftr (Z.land 0 4095) 2 =? 0) with true. cbv iota.
  rewrite Hl. change (negb (0 =? 0)) with false. cbv iota.
  destruct (Z.eqb_spec (Z.land (fcr s) 1) 0) as [E|_]; [contradiction|].
  cbn [negb].
  destruct (Z.gtb_spec (rx_count s) 0) as [_|]; [|lia].
  unfold fifo_mode, fifo_contents, thead_uart_update, set_rx;
    cbn [fst snd fcr lcr lsr rx_fifo rx_pos rx_count].
  split; [|split; [reflexivity|split]].
  - repeat split; try assumption; try lia;
      destruct (Z.eqb_spec (rx_pos s + 1) 16); lia.
  - replace (Z.to_nat (rx_count s)) with (S (Z.to_nat (rx_count s - 1)))
      by lia.
    cbn [seq map]. f_equal.
    + rewrite Z.add_0_r, Z.mod_small by lia. reflexivity.
    + rewrite <- seq_shift, map_map. apply map_ext. intros k.
      f_equal. rewrite Nat2Z.inj_succ.
      destruct (Z.eqb_spec (rx_pos s + 1) 16) as [E|E].
      * replace (rx_pos s + Z.succ (Z.of_nat k))
          with (0 + Z.of_nat k + 1 * 16) by lia.
        apply Z.mod_add. lia.
      * f_equal. lia.
  - intros H1. rewrite H1. change (1 - 1 =? 0) with true. cbv iota.
    apply clear_flag. unfold lsr_DR. lia.
Qed.

Lemma deliver_contents bs : forall s,
  fifo_mode s -> rx_count s + Z.of_nat (List.length bs) <= 16 ->
  fifo_mode (deliver_bytes s bs) /\
  rx_count (deliver_bytes s bs) = rx_count s + Z.of_nat (List.length bs) /\
  fifo_contents (deliver_bytes s bs) = fifo_contents s ++ map uint8 bs.
Proof.
  induction bs as [|b bs IH]; intros s Hm Hroom.
  - simpl. rewrite app_nil_r. split; [exact Hm|]. split; [lia|reflexivity].
  - cbn [List.length] in Hroom. rewrite Nat2Z.inj_succ in Hroom.
    destruct Hm as (Hf & Hl & Hlen & Hp & Hc).
    destruct (receive_contents s b) as (Hm1 & Hc1 & Hq1);
      [repeat split; assumption || lia|lia|].
    change (deliver_bytes s (b :: bs))
      with (deliver_bytes (thead_uart_receive s b 1) bs).
    destruct (IH _ Hm1) as (Hm2 & Hc2 & Hq2); [lia|].
    split; [exact Hm2|]. split.
    + rewrite Hc2, Hc1. cbn [List.length]. lia.
    + rewrite Hq2, Hq1, <- app_assoc. reflexivity.
Qed.

Lemma read_rbr_drains n : forall s,
  fifo_mode s -> rx_count s = Z.of_nat n ->
  fst (read_rbr n s) = fifo_contents s /\
  rx_count (snd (read_rbr n s)) = 0 /\
  ((0 < n)%nat -> Z.land (lsr (snd (read_rbr n s))) lsr_DR = 0).
Proof.
  induction n as [|n IH]; intros s Hm Hc.
  - simpl. unfold fifo_contents. rewrite Hc. simpl.
    repeat split; intros; lia.
  - destruct (read_contents s Hm) as (Hm1 & Hc1 & Hq & Hdr); [lia|].
    cbn [read_rbr].
    destruct (thead_uart_read s 0 4) as [c s1] eqn:Er. cbn [fst snd] in *.
    destruct (IH s1 Hm1) as (Hq2 & Hc2 & Hdr2); [lia|].
    destruct (read_rbr n s1) as [cs s2] eqn:Ed. cbn [fst snd] in *.
    split; [rewrite Hq, Hq2; reflexivity|]. split; [exact Hc2|].
    intros _. destruct n as [|n].
    + simpl in Ed. injection Ed as _ <-. apply Hdr. lia.
    + apply Hdr2. lia.
Qed.

(** X13.  In FIFO mode the receive queue is first in, first out: bytes
    delivered by the back-end while room is left, then read back through
    the receive buffer register as many times as bytes are queued, come
    out as the bytes already queued followed by the delivered ones in
    arrival order, each truncated to 8 bits; the queue is then empty and,
    if anything was read, the data-ready bit is clear. *)
Theorem fifo_first_in_first_out s bs :
  fifo_mode s -> rx_count s + Z.of_nat (List.length bs) <= 16 ->
  let n := (Z.to_nat (rx_count s) + List.length bs)%nat in
  let r := read_rbr n (deliver_bytes s bs) in
  fst r = fifo_contents s ++ map uint8 bs /\
  rx_count (snd r) = 0 /\
  ((0 < n)%nat -> Z.land (lsr (snd r)) lsr_DR = 0).
Proof.
  intros Hm Hroom n r.
  destruct (deliver_contents bs s Hm Hroom) as (Hm1 & Hc1 & Hq1).
  destruct Hm as (_ & _ & _ & _ & Hc).
  destruct (read_rbr_drains n (deliver_bytes s bs) Hm1) as (Hq & Hz & Hdr).
  { rewrite Hc1. unfold n. lia. }
  subst r. rewrite Hq, Hq1. auto.
Qed.

Lemma fifo_first_in_first_out_witness :
  fst (read_rbr 3 (deliver_bytes fifo_threshold_4 [0x141; 0x42; 0x43]))
  = [0x41; 0x42; 0x43].
Proof.
  assert (Hm : fifo_mode fifo_threshold_4).
  { unfold fifo_mode. vm_compute.
    repeat split; try discriminate; reflexivity. }
  assert (Hr : rx_count fifo_threshold_4
               + Z.of_nat (List.length [0x141; 0x42; 0x43]) <= 16)
    by (vm_compute; discriminate).
  exact (proj1 (fifo_first_in_first_out fifo_threshold_4 [0x141; 0x42; 0x43]
                  Hm Hr)).
Defined.


(** X14.  With the divisor latch not selected, a read of the receive
    buffer register withdraws the interrupt whatever the queue holds: the
    identification field becomes "none" and the line is driven low, also
    when bytes remain in the FIFO. *)
Theorem rbr_read_withdraws_interrupt s offset size :
  Z.shiftr (Z.land offset 0xfff) 2 = 0 -> Z.land (lcr s) 0x80 = 0 ->
  let s' := snd (thead_uart_read s offset size) in
  Z.land (iir s') 0xf = INT_NONE /\ irq_level s' = 0 /\
  (Z.land (fcr s) 0x1 <> 0 -> 1 < rx_count s ->
   rx_count s' = rx_count s - 1 /\ Z.land (lsr s') lsr_DR = Z.land (lsr s) lsr_DR).
Proof.
  intros Hreg Hl. unfold thead_uart_read. rewrite Hreg, Hl.
  change (0 =? 0) with true. cbn [negb]. cbv iota.
  assert (Hid : forall x, Z.land (iir_with x INT_NONE) 15 = INT_NONE)
    by (intros x; apply iir_with_id; reflexivity).
  destruct (Z.eqb_spec (Z.land (fcr s) 1) 0) as [E|E]; cbn [negb];
    unfold irq_level, thead_uart_update, set_rx;
    cbn [fst snd iir ier irq lsr rx_count hd]; rewrite Hid;
    (split; [reflexivity|]); (split; [reflexivity|]).
  - intros H. contradiction.
  - intros _ Hc. destruct (Z.gtb_spec (rx_count s) 0); [|lia].
    destruct (Z.eqb_spec (rx_count s - 1) 0); [lia|]. split; reflexivity.
Qed.

Lemma rbr_read_withdraws_interrupt_witness :
  let s := deliver_bytes fifo_threshold_4 [0x41; 0x42] in
  irq_level s = 1 /\
  irq_level (snd (thead_uart_read s 0 4)) = 0 /\
  rx_count (snd (thead_uart_read s 0 4)) = 1.
Proof.
  cbv zeta. split; [reflexivity|].
  destruct (rbr_read_withdraws_interrupt
              (deliver_bytes fifo_threshold_4 [0x41; 0x42]) 0 4
              eq_refl eq_refl) as (_ & Hirq & Hrest).
  split; [exact Hirq|].
  apply Hrest; vm_compute; [discriminate|reflexivity].
Defined.

Lemma read_iir_tx s :
  Z.land (iir s) 0xf = INT_TX ->
  Z.land (fst (thead_uart_read s 8 4)) 0xf = INT_TX /\
  irq_level (snd (thead_uart_read s 8 4)) = 0 /\
  Z.land (iir (snd (thead_uart_read s 8 4))) 0xf = INT_NONE.
Proof.
  intros Htx. unfold thead_uart_read.
  change (Z.shiftr (Z.land 8 4095) 2) with 2.
  change (2 =? 0) with false. change (2 =? 1) with false.
  change (2 =? 2) with true. cbv iota. rewrite Htx.
  change (INT_TX =? INT_TX) with true. cbv iota beta zeta.
  unfold irq_level, thead_uart_update, set_rx. cbn [fst snd iir ier irq hd].
  rewrite !(iir_with_id _ INT_NONE eq_refl).
  change (INT_NONE =? INT_TX) with false.
  change (INT_NONE =? INT_RX) with false. cbn [andb].
  split; [|split; reflexivity].
  apply (iir_with_id (iir_with (iir s) INT_NONE) INT_TX). reflexivity.
Qed.

Lemma read_iir_other s :
  Z.land (iir s) 0xf <> INT_TX -> thead_uart_read s 8 4 = (iir s, s).
Proof.
  intros Hn. unfold thead_uart_read.
  change (Z.shiftr (Z.land 8 4095) 2) with 2.
  change (2 =? 0) with false. change (2 =? 1) with false.
  change (2 =? 2) with true. cbv iota.
  destruct (Z.eqb_spec (Z.land (iir s) 15) INT_TX); [contradiction|].
  reflexivity.
Qed.

Lemma write_thr s v size :
  Z.land (lcr s) 0x80 = 0 -> Z.land (iir s) 0xf <> INT_RX ->
  let s1 := thead_uart_write s 0 v size in
  chr s1 = uint8 v :: chr s /\ Z.land (iir s1) 0xf = INT_TX /\
  irq_level s1 = lnot2 (Z.land (ier s) 0x2).
Proof.
  intros Hl Hrx. cbv zeta. unfold thead_uart_write.
  change (Z.shiftr 0 2 =? 0) with true. cbv iota.
  rewrite Hl. change (negb (0 =? 0)) with false. cbv iota.
  destruct (Z.eqb_spec (Z.land (iir s) 15) INT_RX) as [E|_]; [contradiction|].
  cbn [negb]. unfold irq_level, thead_uart_update.
  cbn [iir ier irq chr hd].
  rewrite !(iir_with_id _ INT_TX eq_refl).
  change (INT_TX =? INT_TX) with true.
  change (INT_TX =? INT_RX) with false. cbn [andb].
  repeat split. unfold lnot2.
  destruct (Z.land (ier s) 2 =? 0); reflexivity.
Qed.

(** X15.  With the divisor latch not selected, the transmit interrupt
    enabled and no receive interrupt identified, a write to the transmit
    holding register hands the low byte to the back-end and raises the
    line; the next read of the identification register reports the
    transmit interrupt and lowers the line, and the read after that reports
    none. *)
Theorem thr_write_interrupt_acknowledged s v size :
  Z.land (lcr s) 0x80 = 0 -> Z.land (iir s) 0xf <> INT_RX ->
  Z.land (ier s) 0x2 <> 0 ->
  let s1 := thead_uart_write s 0 v size in
  let r := thead_uart_read s1 8 4 in
  chr s1 = uint8 v :: chr s /\ irq_level s1 = 1 /\
  Z.land (fst r) 0xf = INT_TX /\ irq_level (snd r) = 0 /\
  Z.land (fst (thead_uart_read (snd r) 8 4)) 0xf = INT_NONE.
Proof.
  intros Hl Hrx Hie. cbv zeta.
  destruct (write_thr s v size Hl Hrx) as (Hchr & Htx & Hirq).
  destruct (read_iir_tx _ Htx) as (Hr & Hlow & Hnone).
  split; [exact Hchr|]. split.
  - rewrite Hirq. unfold lnot2.
    destruct (Z.eqb_spec (Z.land (ier s) 2) 0); [contradiction|reflexivity].
  - split; [exact Hr|]. split; [exact Hlow|].
    rewrite read_iir_other by (rewrite Hnone; discriminate).
    exact Hnone.
Qed.

Lemma thr_write_interrupt_acknowledged_witness :
  let s := thead_uart_write thead_uart_init 4 0x2 4 in
  let s1 := thead_uart_write s 0 0x141 4 in
  chr s1 = [0x41] /\ irq_level s1 = 1 /\
  Z.land (fst (thead_uart_read s1 8 4)) 0xf = INT_TX /\
  irq_level (snd (thead_uart_read s1 8 4)) = 0.
Proof.
  cbv zeta.
  destruct (thr_write_interrupt_acknowledged
              (thead_uart_write thead_uart_init 4 0x2 4) 0x141 4)
    as (H1 & H2 & H3 & H4 & _).
  - reflexivity.
  - vm_compute. discriminate.
  - vm_compute. discriminate.
  - repeat split; assumption.
Defined.

Lemma receive_non_fifo s b :
  Z.land (fcr s) 0x1 = 0 ->
  let s1 := thead_uart_receive s b 1 in
  fcr s1 = fcr s /\ rx_fifo s1 = zset (rx_fifo s) 0 (uint8 b) /\
  rx_count s1 = rx_count s /\
  usr s1 = uint32 (Z.lor (Z.lor (usr s) usr_REF) usr_RFNE) /\
  lsr s1 = uint32 (Z.lor (if negb (Z.land (usr s) usr_REF =? 0)
                          then uint32 (Z.lor (lsr s) lsr_OE) else lsr s)
                         lsr_DR).
Proof.
  intros Hf. cbv zeta. unfold thead_uart_receive.
  change (1 <? 1) with false. cbv iota. rewrite Hf.
  change (0 =? 0) with true. cbv iota.
  unfold thead_uart_update, set_rx. cbn [fcr lsr usr rx_fifo rx_count].
  repeat split.
Qed.

(** X16.  With the FIFO disabled, a byte that arrives before the previous
    one was read replaces it and sets the overrun bit; [rx_count] does not
    move, so [thead_uart_can_receive] answers as before and the back-end is
    never held off. *)
Theorem non_fifo_overrun s b1 b2 :
  Z.land (fcr s) 0x1 = 0 -> (1 <= List.length (rx_fifo s))%nat ->
  let s2 := thead_uart_receive (thead_uart_receive s b1 1) b2 1 in
  zget (rx_fifo s2) 0 = uint8 b2 /\
  Z.land (lsr s2) lsr_OE <> 0 /\
  rx_count s2 = rx_count s /\
  thead_uart_can_receive s2 = thead_uart_can_receive s.
Proof.
  intros Hf Hlen. cbv zeta.
  destruct (receive_non_fifo s b1 Hf) as (Hf1 & Hq1 & Hc1 & Hu1 & _).
  set (s1 := thead_uart_receive s b1 1) in *.
  destruct (receive_non_fifo s1 b2) as (Hf2 & Hq2 & Hc2 & _ & Hl2);
    [rewrite Hf1; exact Hf|].
  set (s2 := thead_uart_receive s1 b2 1) in *.
  assert (Href : Z.land (usr s1) usr_REF <> 0).
  { rewrite Hu1. apply keep_flag; [unfold usr_REF; lia|].
    rewrite Z.land_lor_distr_l, Z.land_diag, lor_land_absorb.
    discriminate. }
  split; [|split; [|split]].
  - rewrite Hq2. apply zget_zset_same. rewrite Hq1, zset_length. lia.
  - rewrite Hl2.
    destruct (Z.eqb_spec (Z.land (usr s1) usr_REF) 0) as [E|_];
      [contradiction|].
    cbn [negb]. apply keep_flag; [unfold lsr_OE; lia|].
    rewrite set_flag by (unfold lsr_OE; lia). discriminate.
  - rewrite Hc2. exact Hc1.
  - unfold thead_uart_can_receive. rewrite Hf2, Hf1, Hc2, Hc1. reflexivity.
Qed.

Lemma non_fifo_overrun_witness :
  let s2 := thead_uart_receive (thead_uart_receive thead_uart_init 0x41 1)
              0x42 1 in
  zget (rx_fifo s2) 0 = 0x42 /\ Z.land (lsr s2) lsr_OE <> 0.
Proof.
  cbv zeta.
  destruct (non_fifo_overrun thead_uart_init 0x41 0x42) as (H1 & H2 & _).
  - reflexivity.
  - vm_compute. apply le_S, le_S, le_S, le_S, le_S, le_S, le_S, le_S, le_S,
      le_S, le_S, le_S, le_S, le_S, le_S, le_n.
  - split; assumption.
Defined.



End UartQueue.

(** ** Timer: the register file of the four channels *)

Module TimerRegs.
Import Bits Timer.

Lemma chan_offset n r :
  0 <= r < 0x14 -> (0x14 * n + r) / 0x14 = n /\ (0x14 * n + r) mod 0x14 = r.
Proof.
  intros Hr. replace (0x14 * n + r) with (r + n * 0x14) by lia.
  rewrite Z.div_add, Z.mod_add by lia.
  rewrite Z.div_small, Z.mod_small by lia. split; reflexivity.
Qed.

Lemma zget_zset_four l n v :
  List.length l = 4%nat -> 0 <= n < 4 -> zget (zset l n v) n = v.
Proof. intros Hl Hn. apply zget_zset_same. rewrite Hl. lia. Qed.

Section Registers.

Variable ptimer_state : Type.
Variable ptimer_set_limit : ptimer_state -> Z -> Z -> ptimer_state.
Variable ptimer_get_count : ptimer_state -> Z.
Variable ptimer_run : ptimer_state -> Z -> ptimer_state.
Variable ptimer_stop : ptimer_state -> ptimer_state.
Variable ptimer_set_freq : ptimer_state -> Z -> ptimer_state.

Abbreviation state := (thead_timer_state ptimer_state).
Abbreviation timers_read :=
  (thead_timers_read ptimer_state ptimer_get_count).
Abbreviation timers_write :=
  (thead_timers_write ptimer_state ptimer_set_limit ptimer_run ptimer_stop
     ptimer_set_freq).
Abbreviation tick := (thead_timer_tick ptimer_state ptimer_set_limit).

(** [set_timer] touches the ptimer of one channel only. *)
Lemma set_timer_fields (s : state) n f :
  control _ (set_timer _ s n f) = control _ s /\
  limit _ (set_timer _ s n f) = limit _ s /\
  freq _ (set_timer _ s n f) = freq _ s /\
  int_level _ (set_timer _ s n f) = int_level _ s /\
  List.length (timer _ (set_timer _ s n f)) = List.length (timer _ s).
Proof.
  unfold set_timer. destruct (nth_error (timer _ s) (Z.to_nat n)); simpl;
    repeat split. apply set_nth_length.
Qed.

Lemma set_timer_nth (s : state) n f t :
  nth_error (timer _ s) (Z.to_nat n) = Some t ->
  nth_error (timer _ (set_timer _ s n f)) (Z.to_nat n) = Some (f t).
Proof.
  unfold set_timer. intros H. rewrite H. simpl.
  revert H. generalize (Z.to_nat n) (timer _ s). clear.
  intros k l. revert k. induction l as [|h l IH]; intros [|k]; simpl;
    try discriminate.
  - intros [= ->]. reflexivity.
  - apply IH.
Qed.

Lemma reload_fields (s : state) r n :
  control _ (thead_timer_reload _ ptimer_set_limit s r n) = control _ s /\
  limit _ (thead_timer_reload _ ptimer_set_limit s r n) = limit _ s /\
  freq _ (thead_timer_reload _ ptimer_set_limit s r n) = freq _ s /\
  int_level _ (thead_timer_reload _ ptimer_set_limit s r n) = int_level _ s /\
  List.length (timer _ (thead_timer_reload _ ptimer_set_limit s r n))
  = List.length (timer _ s).
Proof. unfold thead_timer_reload. apply set_timer_fields. Qed.

(** X18.  When channel [n] expires its line is driven high exactly when
    bit 2 of its control register ([TIMER_CTRL_IE]) is clear: the bit masks
    the interrupt.  A read of the channel's EOI register then returns 0,
    drives the line low and clears the raw level, after which the
    channel's IntStatus reads 0. *)
Theorem tick_then_eoi (s : state) n :
  four_channels _ s -> 0 <= n < 4 ->
  let masked := negb (Z.land (zget (control _ s) n) TIMER_CTRL_IE =? 0) in
  let s1 := fst (tick s n) in
  let r := timers_read s1 (0x14 * n + 0xc) 4 in
  snd (tick s n) = [(n, if masked then 0 else 1)] /\
  fst (fst (timers_read s1 (0x14 * n + 0x10) 4)) = (if masked then 0 else 1) /\
  fst (fst r) = 0 /\ snd r = [(n, 0)] /\
  zget (int_level _ (snd (fst r))) n = 0 /\
  fst (fst (timers_read (snd (fst r)) (0x14 * n + 0x10) 4)) = 0.
Proof.
  intros (Ht & Hc & Hl & Hf & Hi) Hn. cbv zeta.
  destruct (reload_fields s 1 n) as (Rc & Rl & Rf & Ri & Rt).
  destruct (chan_offset n 0xc ltac:(lia)) as [D1 M1].
  destruct (chan_offset n 0x10 ltac:(lia)) as [D2 M2].
  unfold thead_timers_read. rewrite D1, M1, D2, M2.
  destruct (Z.leb_spec 0 n); [|lia]. destruct (Z.leb_spec n 3); [|lia].
  cbn [andb]. unfold thead_timer_read.
  change (Z.shiftr 12 2) with 3. change (Z.shiftr 16 2) with 4.
  change (3 =? 0) with false. change (3 =? 1) with false.
  change (3 =? 2) with false. change (3 =? 3) with true.
  change (4 =? 0) with false. change (4 =? 1) with false.
  change (4 =? 2) with false. change (4 =? 3) with false.
  change (4 =? 4) with true. cbv iota.
  unfold thead_timer_tick, thead_timer_update, int_status, set_int_level.
  cbn [fst snd control int_level]. rewrite Rc, Ri.
  rewrite !zget_zset_four by (rewrite ?zset_length; assumption).
  change (negb (1 =? 0)) with true. change (negb (0 =? 0)) with false.
  cbn [andb Z.b2z].
  destruct (Z.land (zget (control _ s) n) TIMER_CTRL_IE =? 0);
    repeat split.
Qed.

(** X19.  A read of the TimersEOI register (offset 0xa4) returns 0, clears
    the raw level of all four channels and drives all four lines low, in
    channel order; the raw and masked status registers then read 0. *)
Theorem timers_eoi_clears_all (s : state) :
  four_channels _ s ->
  let r := timers_read s 0xa4 4 in
  let s' := snd (fst r) in
  fst (fst r) = 0 /\
  snd r = [(0, 0); (1, 0); (2, 0); (3, 0)] /\
  int_level _ s' = [0; 0; 0; 0] /\
  control _ s' = control _ s /\ limit _ s' = limit _ s /\
  timer _ s' = timer _ s /\
  fst (fst (timers_read s' 0xa8 4)) = 0 /\
  fst (fst (timers_read s' 0xa0 4)) = 0.
Proof.
  intros (Ht & Hc & Hl & Hf & Hi). cbv zeta.
  destruct s as [tm ct lm fq il]. cbn [timer control limit freq int_level] in *.
  destruct il as [|a [|b [|c [|d [|e il]]]]]; try discriminate.
  unfold thead_timers_read.
  change (164 / 20) with 8. change (164 mod 20) with 4.
  change (168 / 20) with 8. change (168 mod 20) with 8.
  change (160 / 20) with 8. change (160 mod 20) with 0.
  change ((0 <=? 8) && (8 <=? 3)) with false.
  change (8 =? 8) with true.
  change (Z.shiftr 4 2) with 1. change (Z.shiftr 8 2) with 2.
  change (Z.shiftr 0 2) with 0.
  change (1 =? 0) with false. change (1 =? 1) with true.
  change (2 =? 0) with false. change (2 =? 1) with false.
  change (2 =? 2) with true. change (0 =? 0) with true. cbv iota.
  unfold eoi_all, thead_timer_update, int_status, set_int_level.
  cbn [timer control limit freq int_level fst snd].
  change (zset [a; b; c; d] 0 0) with [0; b; c; d].
  change (zset [0; b; c; d] (0 + 1) 0) with [0; 0; c; d].
  change (zset [0; 0; c; d] (0 + 1 + 1) 0) with [0; 0; 0; d].
  change (zset [0; 0; 0; d] (0 + 1 + 1 + 1) 0) with [0; 0; 0; 0].
  repeat split.
Qed.

(** X20.  The TimersIntStatus register (offset 0xa0) gathers the masked
    status of the four channels: its bit [i] is what channel [i]'s own
    IntStatus register reads, and no other bit is set.  Reading it changes
    nothing and drives no line. *)
Theorem timers_int_status_bits (s : state) i :
  0 <= i < 4 ->
  let r := thead_timers_read ptimer_state ptimer_get_count s 0xa0 4 in
  Z.b2z (Z.testbit (fst (fst r)) i)
  = fst (fst (thead_timers_read ptimer_state ptimer_get_count s
                (0x14 * i + 0x10) 4)) /\
  0 <= fst (fst r) < 16 /\ snd (fst r) = s /\ snd r = [].
Proof.
  intros Hi. cbv zeta.
  destruct (chan_offset i 0x10 ltac:(lia)) as [D M].
  unfold thead_timers_read. rewrite D, M.
  destruct (Z.leb_spec 0 i); [|lia]. destruct (Z.leb_spec i 3); [|lia].
  cbn [andb]. unfold thead_timer_read.
  change (160 / 20) with 8. change (160 mod 20) with 0.
  change ((0 <=? 8) && (8 <=? 3)) with false.
  change (8 =? 8) with true.
  change (Z.shiftr 16 2) with 4. change (Z.shiftr 0 2) with 0.
  change (4 =? 0) with false. change (4 =? 1) with false.
  change (4 =? 2) with false. change (4 =? 3) with false.
  change (4 =? 4) with true. change (0 =? 0) with true. cbv iota.
  cbn [fst snd]. unfold int_status.
  assert (Hcases : i = 0 \/ i = 1 \/ i = 2 \/ i = 3) by lia.
  clear D M.
  destruct Hcases as [-> | [-> | [-> | ->]]];
    generalize (negb (zget (int_level _ s) 0 =? 0)
                && (Z.land (zget (control _ s) 0) TIMER_CTRL_IE =? 0));
    generalize (negb (zget (int_level _ s) 1 =? 0)
                && (Z.land (zget (control _ s) 1) TIMER_CTRL_IE =? 0));
    generalize (negb (zget (int_level _ s) 2 =? 0)
                && (Z.land (zget (control _ s) 2) TIMER_CTRL_IE =? 0));
    generalize (negb (zget (int_level _ s) 3 =? 0)
                && (Z.land (zget (control _ s) 3) TIMER_CTRL_IE =? 0));
    intros b3 b2 b1 b0;
    destruct b0, b1, b2, b3; vm_compute; repeat split; discriminate.
Qed.

(** X21.  A write to a channel's LoadCount register reads back truncated
    to 32 bits and leaves the control registers and raw levels alone.  If
    the channel is disabled its ptimer is not touched; if it is enabled the
    ptimer is given the new limit without a reload and then run. *)
Theorem load_count_write (s : state) n v t :
  four_channels _ s -> 0 <= n < 4 ->
  nth_error (timer _ s) (Z.to_nat n) = Some t ->
  let s1 := fst (timers_write s (0x14 * n) v 4) in
  fst (fst (timers_read s1 (0x14 * n) 4)) = uint32 v /\
  control _ s1 = control _ s /\ int_level _ s1 = int_level _ s /\
  snd (timers_write s (0x14 * n) v 4) = [(n, int_status _ s n)] /\
  nth_error (timer _ s1) (Z.to_nat n)
  = Some (if Z.land (zget (control _ s) n) TIMER_CTRL_ENABLE =? 0 then t
          else ptimer_run (ptimer_set_limit t (uint32 v) 0) 0).
Proof.
  intros (Ht & Hc & Hl & Hf & Hi) Hn Hnth. cbv zeta.
  destruct (chan_offset n 0 ltac:(lia)) as [D M].
  rewrite Z.add_0_r in D, M.
  unfold thead_timers_write, thead_timers_read. rewrite D, M.
  destruct (Z.leb_spec 0 n); [|lia]. destruct (Z.leb_spec n 3); [|lia].
  cbn [andb]. unfold thead_timer_write, thead_timer_read.
  change (Z.shiftr 0 2 =? 0) with true. cbv iota.
  set (s0 := set_limit _ s n (uint32 v)).
  assert (Hl0 : zget (limit _ s0) n = uint32 v)
    by (apply zget_zset_four; assumption).
  assert (Hc0 : control _ s0 = control _ s) by reflexivity.
  assert (Ht0 : nth_error (timer _ s0) (Z.to_nat n) = Some t) by exact Hnth.
  rewrite Hc0.
  destruct (Z.eqb_spec (Z.land (zget (control _ s) n) TIMER_CTRL_ENABLE) 0);
    cbn [negb fst snd].
  - unfold thead_timer_update, int_status. repeat split; assumption.
  - set (s1 := thead_timer_reload _ ptimer_set_limit s0 0 n).
    destruct (reload_fields s0 0 n) as (Rc & Rl & Rf & Ri & _).
    fold s1 in Rc, Rl, Rf, Ri.
    destruct (set_timer_fields s1 n (fun t => ptimer_run t 0))
      as (Sc & Sl & Sf & Si & _).
    unfold thead_timer_update, int_status. rewrite Sc, Sl, Si, Rc, Rl, Ri.
    repeat split; try assumption.
    apply (set_timer_nth s1 n (fun t => ptimer_run t 0)
             (ptimer_set_limit t (uint32 v) 0)).
    unfold s1, thead_timer_reload.
    replace (if negb (Z.land (zget (control _ s0) n) TIMER_CTRL_MODE =? 0)
             then zget (limit _ s0) n else zget (limit _ s0) n)
      with (uint32 v) by (rewrite Hl0; destruct (negb _); reflexivity).
    apply (set_timer_nth s0 n (fun t => ptimer_set_limit t (uint32 v) 0)).
    exact Ht0.
Qed.

End Registers.

(** A ptimer stood for by its count, for the examples: setting the limit
    with the reload flag loads the count. *)
Lemma tick_then_eoi_witness :
  let set_limit := fun (t l r : Z) => if r =? 0 then t else l in
  let s := thead_timer_init Z 1000000000 0 0 0 0 in
  snd (thead_timer_tick Z set_limit s 2) = [(2, 1)].
Proof.
  cbv zeta.
  refine (proj1 (tick_then_eoi Z (fun t l r => if r =? 0 then t else l)
                   (fun t => t) (thead_timer_init Z 1000000000 0 0 0 0) 2
                   _ _)).
  - unfold four_channels. repeat split.
  - lia.
Defined.

Lemma timers_eoi_clears_all_witness :
  let set_limit := fun (t l r : Z) => if r =? 0 then t else l in
  let s := fst (thead_timer_tick Z set_limit
                  (thead_timer_init Z 1000000000 0 0 0 0) 1) in
  snd (thead_timers_read Z (fun t => t) s 0xa4 4)
  = [(0, 0); (1, 0); (2, 0); (3, 0)].
Proof.
  cbv zeta.
  refine (proj1 (proj2 (timers_eoi_clears_all Z (fun t => t) _ _))).
  unfold four_channels. repeat split.
Defined.

Lemma timers_int_status_bits_witness :
  let set_limit := fun (t l r : Z) => if r =? 0 then t else l in
  let s := fst (thead_timer_tick Z set_limit
                  (thead_timer_init Z 1000000000 0 0 0 0) 1) in
  Z.b2z (Z.testbit (fst (fst (thead_timers_read Z (fun t => t) s 0xa0 4))) 1)
  = fst (fst (thead_timers_read Z (fun t => t) s (0x14 * 1 + 0x10) 4)).
Proof.
  cbv zeta.
  refine (proj1 (timers_int_status_bits Z (fun t => t) _ 1 _)). lia.
Defined.

Lemma load_count_write_witness :
  let set_limit := fun (t l r : Z) => if r =? 0 then t else l in
  let write := thead_timers_write Z set_limit (fun t _ => t) (fun t => t)
                 (fun t _ => t) in
  let s := thead_timer_init Z 1000000000 0 0 0 0 in
  fst (fst (thead_timers_read Z (fun t => t)
              (fst (write s (0x14 * 3) 0x100001234 4)) (0x14 * 3) 4))
  = 0x1234.
Proof.
  cbv zeta.
  refine (proj1 (load_count_write Z (fun t l r => if r =? 0 then t else l)
                   (fun t => t) (fun t _ => t) (fun t => t) (fun t _ => t)
                   (thead_timer_init Z 1000000000 0 0 0 0) 3 0x100001234 0
                   _ _ _)).
  - unfold four_channels. repeat split.
  - lia.
  - reflexivity.
Defined.

End TimerRegs.

(** ** CLINT: software interrupt latch and timer compare *)

Module ClintProofs.
Import Bits Clint.

(** Bit [n] of a value truncated to 64 bits, of the low-word mask, and of
    the two shifts by 32. *)
Lemma uint64_bit x n : 0 <= n < 64 -> Z.testbit (uint64 x) n = Z.testbit x n.
Proof. intros Hn. unfold uint64. apply Z.mod_pow2_bits_low. lia. Qed.

Lemma low_word_bit n :
  0 <= n -> Z.testbit 0xFFFFFFFF n = (n <? 32).
Proof.
  intros Hn. change 0xFFFFFFFF with (Z.ones 32).
  destruct (Z.ltb_spec n 32).
  - apply Z.ones_spec_low. lia.
  - apply Z.ones_spec_high. lia.
Qed.

Lemma low_word_of_join hi lo :
  Z.land (uint64 (Z.lor (uint64 (Z.shiftl hi 32)) (Z.land lo 0xFFFFFFFF)))
         0xFFFFFFFF
  = Z.land lo 0xFFFFFFFF.
Proof.
  apply Z.bits_inj'. intros n Hn.
  rewrite !Z.land_spec, low_word_bit by exact Hn.
  destruct (Z.ltb_spec n 32); [|rewrite !andb_false_r; reflexivity].
  rewrite uint64_bit, Z.lor_spec, uint64_bit, Z.shiftl_spec by lia.
  rewrite Z.testbit_neg_r by lia.
  rewrite Z.land_spec, low_word_bit by exact Hn.
  destruct (Z.ltb_spec n 32); [|lia].
  cbn [orb]. rewrite !andb_true_r. reflexivity.
Qed.

Lemma high_word_of_join hi lo :
  Z.land (Z.shiftr (uint64 (Z.lor (uint64 (Z.shiftl hi 32))
                                  (Z.land lo 0xFFFFFFFF))) 32) 0xFFFFFFFF
  = Z.land hi 0xFFFFFFFF.
Proof.
  apply Z.bits_inj'. intros n Hn.
  rewrite !Z.land_spec, low_word_bit by exact Hn.
  destruct (Z.ltb_spec n 32); [|rewrite !andb_false_r; reflexivity].
  rewrite Z.shiftr_spec by exact Hn.
  rewrite uint64_bit, Z.lor_spec, uint64_bit, Z.shiftl_spec by lia.
  rewrite Z.land_spec, low_word_bit by lia.
  destruct (Z.ltb_spec (n + 32) 32); [lia|].
  replace (n + 32 - 32) with n by lia.
  rewrite andb_false_r, orb_false_r. reflexivity.
Qed.

Section Device.

Variable muldiv64 : Z -> Z -> Z -> Z.

Abbreviation read_rtc := (cpu_riscv_read_rtc muldiv64).
Abbreviation write_timecmp := (thead_clint_write_timecmp muldiv64).
Abbreviation clint_read := (thead_clint_read muldiv64).
Abbreviation clint_write := (thead_clint_write muldiv64).

Lemma write_timecmp_fields s now value :
  mtimecmp (write_timecmp s now value) = uint64 value /\
  msip (write_timecmp s now value) = msip s /\
  fst (irq (write_timecmp s now value)) = fst (irq s).
Proof.
  unfold thead_clint_write_timecmp.
  destruct (uint64 value <=? cpu_riscv_read_rtc muldiv64 now);
    repeat split.
Qed.

(** X22.  The two halves of [mtimecmp] are written independently: a write
    to the low word (0x4000) reads back there, masked to 32 bits, and
    leaves what the high word (0x4004) reads; a write to the high word
    reads back there and leaves what the low word reads. *)
Theorem timecmp_half_writes s now now' v :
  (let s' := thead_clint_write muldiv64 s now 0x4000 v 4 in
   thead_clint_read muldiv64 s' now' 0x4000 4 = Z.land v 0xFFFFFFFF /\
   thead_clint_read muldiv64 s' now' 0x4004 4
   = thead_clint_read muldiv64 s now' 0x4004 4) /\
  (let s' := thead_clint_write muldiv64 s now 0x4004 v 4 in
   thead_clint_read muldiv64 s' now' 0x4004 4 = Z.land v 0xFFFFFFFF /\
   thead_clint_read muldiv64 s' now' 0x4000 4
   = thead_clint_read muldiv64 s now' 0x4000 4).
Proof.
  cbv zeta. unfold thead_clint_write, thead_clint_read.
  change (negb (Z.land 16384 3 =? 0) || negb (4 =? 4)) with false.
  change (negb (Z.land 16388 3 =? 0) || negb (4 =? 4)) with false.
  change (16384 =? 0) with false. change (16388 =? 0) with false.
  change (16384 =? 16384) with true. change (16388 =? 16384) with false.
  change (16388 =? 16388) with true. change (16384 =? 16388) with false.
  cbv iota.
  repeat match goal with
         | |- context [mtimecmp (thead_clint_write_timecmp muldiv64 ?a ?b ?c)] =>
             rewrite (proj1 (write_timecmp_fields a b c))
         end.
  repeat split.
  - apply low_word_of_join.
  - apply high_word_of_join.
  - rewrite Z.lor_comm.
    apply Z.bits_inj'. intros n Hn.
    rewrite !Z.land_spec, low_word_bit by exact Hn.
    destruct (Z.ltb_spec n 32); [|rewrite !andb_false_r; reflexivity].
    rewrite Z.shiftr_spec by exact Hn.
    rewrite uint64_bit, Z.lor_spec, uint64_bit, Z.shiftl_spec by lia.
    rewrite Z.land_spec, low_word_bit by lia.
    destruct (Z.ltb_spec (n + 32) 32); [lia|].
    replace (n + 32 - 32) with n by lia.
    rewrite ?andb_false_r, ?andb_true_r, ?orb_false_r, ?orb_false_l.
    reflexivity.
  - apply Z.bits_inj'. intros n Hn.
    rewrite !Z.land_spec, low_word_bit by exact Hn.
    destruct (Z.ltb_spec n 32); [|rewrite !andb_false_r; reflexivity].
    rewrite uint64_bit, Z.lor_spec, uint64_bit, Z.shiftl_spec by lia.
    rewrite Z.testbit_neg_r by lia.
    rewrite Z.land_spec, low_word_bit by exact Hn.
    destruct (Z.ltb_spec n 32); [|lia].
    cbn [orb]. rewrite !andb_true_r. reflexivity.
Qed.

Lemma write_keeps_msip s now addr value size :
  msip s = 1 -> msip (clint_write s now addr value size) = 1.
Proof.
  intros H. unfold thead_clint_write.
  repeat match goal with
         | |- context [if ?c then _ else _] => destruct c
         end;
    try exact H; try reflexivity;
    rewrite (proj1 (proj2 (write_timecmp_fields _ _ _))); exact H.
Qed.

Lemma writes_keep_msip l : forall s,
  msip s = 1 -> msip (clint_writes muldiv64 l s) = 1.
Proof.
  induction l as [|[[[now addr] value] size] l IH]; intros s H.
  - exact H.
  - apply IH. apply write_keeps_msip. exact H.
Qed.

(** X23.  The software interrupt bit is a latch the guest cannot clear:
    an aligned four-byte write to offset 0 sets [msip] to 1 and pulses the
    software line whatever value is written, and once a run of writes
    contains such a write [msip] reads 1 at its end. *)
Theorem msip_never_cleared l s now v :
  In (now, 0, v, 4) l ->
  msip (clint_writes muldiv64 l s) = 1 /\
  clint_read (clint_writes muldiv64 l s) now 0 4 = 1 /\
  fst (irq (clint_write s now 0 v 4)) = fst (irq s) + 1.
Proof.
  intros Hin.
  assert (H : msip (clint_writes muldiv64 l s) = 1).
  { apply in_split in Hin. destruct Hin as (l1 & l2 & ->).
    unfold clint_writes. rewrite fold_left_app. cbn [fold_left].
    apply writes_keep_msip. reflexivity. }
  split; [exact H|]. split; [exact H|]. reflexivity.
Qed.

(** X24.  Writing the compare value, [muldiv64] being exact and the time
    [now] in nanoseconds below 2^63, the counter running at one tick per
    100 ns.  A value not above the counter pulses the timer line at once
    and leaves the armed deadline as it was.  A value above it sends no
    pulse and arms the timer for [100 * cmp + now mod 100] ns, at which
    instant the counter reads exactly the compare value. *)
Theorem timecmp_deadline s now value :
  muldiv64_exact muldiv64 -> 0 <= now < 2 ^ 63 ->
  let cmp := uint64 value in
  let s' := write_timecmp s now value in
  read_rtc now = now / 100 /\
  mtimecmp s' = cmp /\
  (cmp <= now / 100 ->
   timer s' = timer s /\ irq s' = (fst (irq s), snd (irq s) + 1)) /\
  (now / 100 < cmp -> 100 * cmp + now mod 100 < 2 ^ 63 ->
   timer s' = Some (100 * cmp + now mod 100) /\ irq s' = irq s /\
   read_rtc (100 * cmp + now mod 100) = cmp).
Proof.
  intros Hmd Hnow. cbv zeta.
  assert (Hrtc : forall t, 0 <= t < 2 ^ 63 -> read_rtc t = t / 100).
  { intros t Ht. unfold cpu_riscv_read_rtc, NANOSECONDS_PER_SECOND.
    rewrite Hmd by lia.
    change 1000000000 with (100 * 10000000).
    rewrite Z.div_mul_cancel_r by lia.
    unfold uint64. apply Z.mod_small.
    split; [apply Z.div_pos; lia|].
    apply Z.div_lt_upper_bound; lia. }
  pose proof (Z.div_mod now 100 ltac:(lia)) as Hdm.
  pose proof (Z.mod_pos_bound now 100 ltac:(lia)) as Hmb.
  assert (Hcmp : 0 <= uint64 value < 2 ^ 64)
    by (apply Z.mod_pos_bound; lia).
  split; [apply Hrtc; exact Hnow|].
  split; [apply write_timecmp_fields|].
  unfold thead_clint_write_timecmp. rewrite (Hrtc now Hnow).
  split.
  - intros Hle. destruct (Z.leb_spec (uint64 value) (now / 100)); [|lia].
    split; reflexivity.
  - intros Hlt Hfit. destruct (Z.leb_spec (uint64 value) (now / 100)); [lia|].
    cbn [timer irq].
    assert (Hdiff : uint64 (uint64 value - now / 100)
                    = uint64 value - now / 100).
    { unfold uint64 at 1. apply Z.mod_small. lia. }
    rewrite Hdiff. unfold NANOSECONDS_PER_SECOND.
    rewrite Hmd by lia.
    change 1000000000 with (100 * 10000000).
    rewrite Z.mul_assoc, Z.div_mul by lia.
    assert (Hmul : uint64 ((uint64 value - now / 100) * 100)
                   = (uint64 value - now / 100) * 100).
    { unfold uint64 at 1. apply Z.mod_small. lia. }
    rewrite Hmul.
    assert (Hnext : now + (uint64 value - now / 100) * 100
                    = 100 * uint64 value + now mod 100) by lia.
    rewrite Hnext.
    assert (Hu : uint64 (100 * uint64 value + now mod 100)
                 = 100 * uint64 value + now mod 100).
    { unfold uint64 at 1. apply Z.mod_small. lia. }
    rewrite Hu. unfold int64.
    destruct (Z.ltb_spec (100 * uint64 value + now mod 100) (2 ^ 63)); [|lia].
    split; [reflexivity|]. split; [reflexivity|].
    rewrite Hrtc by lia.
    replace (100 * uint64 value + now mod 100)
      with (now mod 100 + uint64 value * 100) by lia.
    rewrite Z.div_add, Z.div_small by lia. lia.
Qed.

End Device.

Lemma muldiv64_wide_exact : muldiv64_exact muldiv64_wide.
Proof. intros a b c _ _ _. reflexivity. Defined.

Lemma msip_never_cleared_witness :
  msip (clint_writes muldiv64_wide
          [(10, 0, 0, 4); (20, 0x4000, 5, 4); (30, 0, 0, 4)]
          thead_clint_init) = 1.
Proof.
  refine (proj1 (msip_never_cleared muldiv64_wide
                   [(10, 0, 0, 4); (20, 0x4000, 5, 4); (30, 0, 0, 4)]
                   thead_clint_init 10 0 _)).
  left. reflexivity.
Defined.

Lemma timecmp_deadline_witness :
  timer (thead_clint_write_timecmp muldiv64_wide thead_clint_init 1234567
           20000) = Some 2000067 /\
  cpu_riscv_read_rtc muldiv64_wide 2000067 = 20000.
Proof.
  assert (Hnow : 0 <= 1234567 < 2 ^ 63) by lia.
  destruct (timecmp_deadline muldiv64_wide thead_clint_init 1234567 20000
              muldiv64_wide_exact Hnow) as (_ & _ & _ & H).
  destruct H as (Ht & _ & Hr); [vm_compute; reflexivity..|].
  split; [exact Ht|exact Hr].
Defined.

End ClintProofs.
